(** * DpdkChassisManager: port configuration reconciliation

    A shallow embedding of
    [stratum/hal/lib/tdi/dpdk/dpdk_chassis_manager.cc] and the properties
    its specification states about it.

    The chassis manager keeps eight [std::map]s and the [initialized_]
    flag, and drives the device backend through [sde_interface_].  The
    embedding keeps that shape:
    - the protobuf messages and the [PortConfig] struct are records, their
      enums inductive types or integer codes;
    - every [std::map] is a [gmap] with integer keys, iterated in ascending
      key order;
    - [TdiSdeInterface] is a type class over the backend's own state, and
      every call made through [sde_interface_] is also appended to a log, so
      that "which calls were issued, in which order" can be stated;
    - functions returning [::util::Status] are computations in a state and
      error monad: [RETURN_IF_ERROR] is the monad's early exit, and the state
      reached at the exit is kept, as the out-parameters of the C++ code are.
*)

From Stdlib Require Import ZArith String List Lia.
From stdpp Require Import base option list gmap strings sorting.

Local Open Scope Z_scope.

(** ** Protobuf enums and error codes *)

(** [AdminState] is an enum of a proto3 message, and such an enum is open: the
    field holds the number that was on the wire, also when it is none of the
    four named values.  [ADMIN_STATE_OTHER] stands for such a number; the
    source compares an admin state with the named values only. *)
Inductive AdminState :=
| ADMIN_STATE_UNKNOWN
| ADMIN_STATE_ENABLED
| ADMIN_STATE_DISABLED
| ADMIN_STATE_DIAG
| ADMIN_STATE_OTHER (value : Z).

#[global] Instance AdminState_eq_dec : EqDecision AdminState.
Proof. solve_decision. Defined.

(** The other enums of [common.proto] are carried as their integer codes;
    the source only names their zero value. *)
Abbreviation TriState := Z (only parsing).
Abbreviation LoopbackState := Z (only parsing).
Abbreviation FecMode := Z (only parsing).
Abbreviation PortState := Z (only parsing).

Definition TRI_STATE_UNKNOWN : TriState := 0.
Definition LOOPBACK_STATE_UNKNOWN : LoopbackState := 0.
Definition PORT_STATE_UNKNOWN : PortState := 0.

(** [absl::Time] as nanoseconds since the epoch. *)
Abbreviation Time := Z (only parsing).
Definition UnixEpoch : Time := 0.

Inductive Platform :=
| PLT_UNKNOWN
| PLT_GENERIC_BAREFOOT_TOFINO
| PLT_GENERIC_BAREFOOT_TOFINO2
| PLT_P4_SOFT_SWITCH
| PLT_OTHER (code : Z).

Inductive ErrorCode :=
| ERR_INVALID_PARAM
| ERR_UNIMPLEMENTED
| ERR_INTERNAL
| ERR_REBOOT_REQUIRED
| ERR_NOT_INITIALIZED
| ERR_OTHER (code : Z).

#[global] Instance ErrorCode_eq_dec : EqDecision ErrorCode.
Proof. solve_decision. Defined.

(** [::util::Status]: either OK or an error code with its message.  The
    messages keep the literal text of the source; the numbers streamed into
    them are left out. *)
Record Error := MAKE_ERROR { error_code : ErrorCode; error_message : string }.

Inductive Status :=
| OkStatus
| ErrStatus (e : Error).

#[global] Instance Error_eq_dec : EqDecision Error.
Proof. solve_decision. Defined.
#[global] Instance Status_eq_dec : EqDecision Status.
Proof. solve_decision. Defined.

Definition ok (s : Status) : bool :=
  match s with OkStatus => true | ErrStatus _ => false end.

(** [::util::StatusOr<A>] *)
Abbreviation StatusOr A := (Error + A)%type (only parsing).

Definition status_of {A} (r : StatusOr A) : Status :=
  match r with inl e => ErrStatus e | inr _ => OkStatus end.

(** The error code of a result, if it is an error. *)
Definition error_code_of {A} (r : StatusOr A) : option ErrorCode :=
  match r with inl e => Some (error_code e) | inr _ => None end.

(** ** Protobuf messages of the desired configuration *)

Module Node.
Record t := mk { id : Z; slot : Z }.
End Node.

Module ConfigParams.
Record t := mk {
  admin_state : AdminState;
  mtu : Z;
  autoneg : TriState;
  fec_mode : FecMode;
  loopback_mode : LoopbackState;
  port_type : Z;
  pipeline_name : string }.

(** A message with every field at its protobuf default. *)
Definition empty : t := mk ADMIN_STATE_UNKNOWN 0 0 0 0 0 "".

Definition set_admin_state (v : AdminState) (c : t) : t :=
  mk v (mtu c) (autoneg c) (fec_mode c) (loopback_mode c) (port_type c)
     (pipeline_name c).
Definition set_autoneg (v : TriState) (c : t) : t :=
  mk (admin_state c) (mtu c) v (fec_mode c) (loopback_mode c) (port_type c)
     (pipeline_name c).
Definition set_mtu (v : Z) (c : t) : t :=
  mk (admin_state c) v (autoneg c) (fec_mode c) (loopback_mode c)
     (port_type c) (pipeline_name c).
Definition set_fec_mode (v : FecMode) (c : t) : t :=
  mk (admin_state c) (mtu c) (autoneg c) v (loopback_mode c) (port_type c)
     (pipeline_name c).
End ConfigParams.

Module SingletonPort.
Record t := mk {
  id : Z;
  name : string;
  slot : Z;
  port : Z;
  channel : Z;
  speed_bps : Z;
  node : Z;
  config_params : ConfigParams.t }.

(** [mutable_config_params()->set_...] *)
Definition map_config_params (f : ConfigParams.t → ConfigParams.t) (p : t) : t :=
  mk (id p) (name p) (slot p) (port p) (channel p) (speed_bps p) (node p)
     (f (config_params p)).
End SingletonPort.

Module Chassis.
Record t := mk { platform : Platform }.
End Chassis.

Module ChassisConfig.
Record t := mk {
  chassis : option Chassis.t;          (* [has_chassis()] is [is_Some] *)
  nodes : list Node.t;
  singleton_ports : list SingletonPort.t;
  trunk_ports_size : Z;
  port_groups_size : Z }.
End ChassisConfig.

(** Modelled from the spec: [BuildSingletonPort] is declared in
    [stratum/hal/lib/common/utils.h], which is not part of the sources at
    hand.  The spec (4.4) has the rollback "reconstructing a SingletonPort
    from the old config": the call sets slot, port, channel and speed, every
    other field of the message keeps its protobuf default. *)
Definition BuildSingletonPort (slot port channel speed_bps : Z) : SingletonPort.t :=
  SingletonPort.mk 0 "" slot port channel speed_bps 0 ConfigParams.empty.

(** ** Types of the chassis manager *)

(** [PortKey]: the (slot, port, channel) triple. *)
Record PortKey := mkPortKey { pk_slot : Z; pk_port : Z; pk_channel : Z }.

#[global] Instance PortKey_eq_dec : EqDecision PortKey.
Proof. solve_decision. Defined.

#[global] Instance PortKey_countable : Countable PortKey :=
  inj_countable' (λ k, (pk_slot k, pk_port k, pk_channel k))
                 (λ t, mkPortKey t.1.1 t.1.2 t.2)
                 (λ k, match k with mkPortKey _ _ _ => eq_refl end).

Module PortConfig.
(** The cached configuration of a port.  The [absl::optional] members are
    options: the source resets and dereferences them. *)
Record t := mk {
  admin_state : AdminState;
  speed_bps : option Z;
  mtu : option Z;
  autoneg : option TriState;
  fec_mode : option FecMode;
  loopback_mode : option LoopbackState;
  port_type : Z;
  device_type : Z;
  packet_dir : Z;
  queues : Z;
  socket_path : string;
  host_name : string;
  pipeline_name : string;
  mempool_name : string;
  control_port : string;
  pci_bdf : string }.

#[global] Instance eq_dec : EqDecision t.
Proof. solve_decision. Defined.

Definition set_admin_state (v : AdminState) (c : t) : t :=
  mk v (speed_bps c) (mtu c) (autoneg c) (fec_mode c) (loopback_mode c)
     (port_type c) (device_type c) (packet_dir c) (queues c) (socket_path c)
     (host_name c) (pipeline_name c) (mempool_name c) (control_port c)
     (pci_bdf c).
Definition set_speed_bps (v : option Z) (c : t) : t :=
  mk (admin_state c) v (mtu c) (autoneg c) (fec_mode c) (loopback_mode c)
     (port_type c) (device_type c) (packet_dir c) (queues c) (socket_path c)
     (host_name c) (pipeline_name c) (mempool_name c) (control_port c)
     (pci_bdf c).
Definition set_mtu (v : option Z) (c : t) : t :=
  mk (admin_state c) (speed_bps c) v (autoneg c) (fec_mode c)
     (loopback_mode c) (port_type c) (device_type c) (packet_dir c)
     (queues c) (socket_path c) (host_name c) (pipeline_name c)
     (mempool_name c) (control_port c) (pci_bdf c).
Definition set_autoneg (v : option TriState) (c : t) : t :=
  mk (admin_state c) (speed_bps c) (mtu c) v (fec_mode c) (loopback_mode c)
     (port_type c) (device_type c) (packet_dir c) (queues c) (socket_path c)
     (host_name c) (pipeline_name c) (mempool_name c) (control_port c)
     (pci_bdf c).
Definition set_fec_mode (v : option FecMode) (c : t) : t :=
  mk (admin_state c) (speed_bps c) (mtu c) (autoneg c) v (loopback_mode c)
     (port_type c) (device_type c) (packet_dir c) (queues c) (socket_path c)
     (host_name c) (pipeline_name c) (mempool_name c) (control_port c)
     (pci_bdf c).
Definition set_loopback_mode (v : option LoopbackState) (c : t) : t :=
  mk (admin_state c) (speed_bps c) (mtu c) (autoneg c) (fec_mode c) v
     (port_type c) (device_type c) (packet_dir c) (queues c) (socket_path c)
     (host_name c) (pipeline_name c) (mempool_name c) (control_port c)
     (pci_bdf c).
Definition set_port_type (v : Z) (c : t) : t :=
  mk (admin_state c) (speed_bps c) (mtu c) (autoneg c) (fec_mode c)
     (loopback_mode c) v (device_type c) (packet_dir c) (queues c)
     (socket_path c) (host_name c) (pipeline_name c) (mempool_name c)
     (control_port c) (pci_bdf c).
Definition set_pipeline_name (v : string) (c : t) : t :=
  mk (admin_state c) (speed_bps c) (mtu c) (autoneg c) (fec_mode c)
     (loopback_mode c) (port_type c) (device_type c) (packet_dir c)
     (queues c) (socket_path c) (host_name c) v (mempool_name c)
     (control_port c) (pci_bdf c).
Definition set_mempool_name (v : string) (c : t) : t :=
  mk (admin_state c) (speed_bps c) (mtu c) (autoneg c) (fec_mode c)
     (loopback_mode c) (port_type c) (device_type c) (packet_dir c)
     (queues c) (socket_path c) (host_name c) (pipeline_name c) v
     (control_port c) (pci_bdf c).
End PortConfig.

(** Modelled from the spec: the [PortConfig] struct and its constructor are
    declared in [dpdk_chassis_manager.h], which is not part of the sources
    at hand.  The spec (3) has [admin_state = unknown] as the state of a
    port "not yet successfully configured"; a default-constructed
    [PortConfig] has that admin state, empty optionals, and zero or empty
    values elsewhere. *)
Definition PortConfig_default : PortConfig.t :=
  PortConfig.mk ADMIN_STATE_UNKNOWN None None None None None 0 0 0 0
                "" "" "" "" "" "".

(** [TdiSdeInterface::PortConfigParams] *)
Module PortConfigParams.
Record t := mk {
  port_type : Z;
  device_type : Z;
  packet_dir : Z;
  queues : Z;
  mtu : Z;
  socket_path : string;
  host_name : string;
  port_name : string;
  pipeline_name : string;
  mempool_name : string;
  pci_bdf : string }.

#[global] Instance eq_dec : EqDecision t.
Proof. solve_decision. Defined.

Definition set_port_type (v : Z) (c : t) : t :=
  mk v (device_type c) (packet_dir c) (queues c) (mtu c) (socket_path c)
     (host_name c) (port_name c) (pipeline_name c) (mempool_name c)
     (pci_bdf c).
Definition set_packet_dir (v : Z) (c : t) : t :=
  mk (port_type c) (device_type c) v (queues c) (mtu c) (socket_path c)
     (host_name c) (port_name c) (pipeline_name c) (mempool_name c)
     (pci_bdf c).
End PortConfigParams.

Abbreviation PortCounters := (list Z) (only parsing).

(** The constants and macros the source takes from headers that are not part
    of the sources at hand.  They stay parameters of the development. *)
Class Constants := {
  kSdkPortControlBase : Z;
  kDefaultMtu : Z;
  kDefaultPortPacketDirection : Z;
  kDefaultPipelineName : string;
  kDefaultMempoolName : string;
  kCpuPortId : Z;
  PORT_TYPE_TAP : Z;
  (** the error code of a failed [RET_CHECK] *)
  RET_CHECK_code : ErrorCode }.

(** ** The device backend *)

(** The calls the manager makes through [sde_interface_].  Each operation
    takes the backend's state and returns its result with the next state. *)
Class TdiSdeInterface (W : Type) := {
  sde_AddPort : Z → Z → Z → FecMode → W → Status * W;
  sde_AddPort_params :
    Z → Z → Z → PortConfigParams.t → FecMode → W → Status * W;
  sde_DeletePort : Z → Z → W → Status * W;
  sde_DisablePort : Z → Z → W → Status * W;
  sde_EnablePort : Z → Z → W → Status * W;
  sde_IsValidPort : Z → Z → W → bool * W;
  sde_SetPortAutonegPolicy : Z → Z → TriState → W → Status * W;
  sde_SetPortLoopbackMode : Z → Z → LoopbackState → W → Status * W;
  sde_SetPortMtu : Z → Z → Z → W → Status * W;
  sde_GetPortIdFromPortKey : Z → PortKey → W → StatusOr Z * W;
  sde_GetPortCounters : Z → Z → W → StatusOr PortCounters * W }.

(** The log of issued calls. *)
Inductive SdeCall :=
| CallAddPort (unit port speed : Z) (fec : FecMode)
| CallAddPortParams (unit port speed : Z) (params : PortConfigParams.t)
                    (fec : FecMode)
| CallDeletePort (unit port : Z)
| CallDisablePort (unit port : Z)
| CallEnablePort (unit port : Z)
| CallIsValidPort (unit port : Z)
| CallSetPortAutonegPolicy (unit port : Z) (autoneg : TriState)
| CallSetPortLoopbackMode (unit port : Z) (mode : LoopbackState)
| CallSetPortMtu (unit port mtu : Z)
| CallGetPortIdFromPortKey (unit : Z) (key : PortKey)
| CallGetPortCounters (unit port : Z).

#[global] Instance SdeCall_eq_dec : EqDecision SdeCall.
Proof. solve_decision. Defined.

(** The calls that change the backend, as opposed to the queries. *)
Definition is_mutation (c : SdeCall) : bool :=
  match c with
  | CallIsValidPort _ _ | CallGetPortIdFromPortKey _ _
  | CallGetPortCounters _ _ => false
  | _ => true
  end.

Definition is_DisablePort (c : SdeCall) : bool :=
  match c with CallDisablePort _ _ => true | _ => false end.
Definition is_EnablePort (c : SdeCall) : bool :=
  match c with CallEnablePort _ _ => true | _ => false end.
Definition is_DeletePort (c : SdeCall) : bool :=
  match c with CallDeletePort _ _ => true | _ => false end.

Definition count_calls (f : SdeCall → bool) (l : list SdeCall) : nat :=
  length (filter (λ c, f c = true) l).

(** ** The state and error monad *)

(** A computation over a state [S]: it ends with a value or with an error,
    and in both cases with the state reached. *)
Definition M (S A : Type) : Type := S → StatusOr A * S.

#[global] Instance M_ret {S} : MRet (M S) := λ A a s, (inr a, s).
#[global] Instance M_bind {S} : MBind (M S) := λ A B f m s,
  match m s with
  | (inl e, s') => (inl e, s')
  | (inr a, s') => f a s'
  end.

(** [return MAKE_ERROR(code) << msg] *)
Definition fail {S A} (code : ErrorCode) (msg : string) : M S A :=
  λ s, (inl (MAKE_ERROR code msg), s).

Definition get {S} : M S S := λ s, (inr s, s).
Definition gets {S A} (f : S → A) : M S A := λ s, (inr (f s), s).
Definition modify {S} (f : S → S) : M S () := λ s, (inr (), f s).

(** [RETURN_IF_ERROR(expr)] for an expression that yields a [Status]. *)
Definition RETURN_IF_ERROR {S} (m : M S Status) : M S () :=
  st ← m;
  match st with
  | OkStatus => mret ()
  | ErrStatus e => λ s, (inl e, s)
  end.

(** [ASSIGN_OR_RETURN(lhs, expr)] for an expression that yields a
    [StatusOr]. *)
Definition ASSIGN_OR_RETURN {S A} (m : M S (StatusOr A)) : M S A :=
  r ← m;
  match r return M S A with
  | inr a => mret a
  | inl e => λ s, (inl e, s)
  end.

(** [RET_CHECK(cond) << msg] *)
Definition RET_CHECK `{!Constants} {S} (cond : bool) (msg : string) : M S () :=
  if cond then mret () else fail RET_CHECK_code msg.

(** The status of a call whose result the caller inspects instead of
    propagating. *)
Definition status_value {S} (m : M S ()) : M S Status :=
  λ s, match m s with
       | (inl e, s') => (inr (ErrStatus e), s')
       | (inr _, s') => (inr OkStatus, s')
       end.

(** A range-based [for] over a repeated field; an error leaves the loop. *)
Fixpoint for_each {S A} (l : list A) (body : A → M S ()) : M S () :=
  match l with
  | [] => mret ()
  | x :: l' => body x ;; for_each l' body
  end.

(** ** The manager's view of the backend *)

Section Manager.
Context {W : Type} `{!TdiSdeInterface W} `{!Constants}.

(** The backend behind [sde_interface_], with the log of the calls made
    through it (oldest first). *)
Record World := mkWorld { sde : W; calls : list SdeCall }.

Class HasWorld (S : Type) := {
  get_world : S → World;
  set_world : World → S → S }.

(** One call through [sde_interface_]: it is logged, and the backend
    moves to its next state. *)
Definition sde_call {S} `{!HasWorld S} {A} (c : SdeCall) (f : W → A * W)
  : M S A :=
  λ s, let w := get_world s in
       let r := f (sde w) in
       (inr r.1, set_world (mkWorld r.2 (calls w ++ [c])) s).

Section Calls.
Context {S : Type} `{!HasWorld S}.

Definition AddPort (unit port speed : Z) (fec : FecMode) : M S Status :=
  sde_call (CallAddPort unit port speed fec)
           (sde_AddPort unit port speed fec).
Definition AddPort_params (unit port speed : Z)
           (params : PortConfigParams.t) (fec : FecMode) : M S Status :=
  sde_call (CallAddPortParams unit port speed params fec)
           (sde_AddPort_params unit port speed params fec).
Definition DeletePort (unit port : Z) : M S Status :=
  sde_call (CallDeletePort unit port) (sde_DeletePort unit port).
Definition DisablePort (unit port : Z) : M S Status :=
  sde_call (CallDisablePort unit port) (sde_DisablePort unit port).
Definition IsValidPort (unit port : Z) : M S bool :=
  sde_call (CallIsValidPort unit port) (sde_IsValidPort unit port).
Definition SetPortAutonegPolicy (unit port : Z) (autoneg : TriState)
  : M S Status :=
  sde_call (CallSetPortAutonegPolicy unit port autoneg)
           (sde_SetPortAutonegPolicy unit port autoneg).
Definition SetPortLoopbackMode (unit port : Z) (mode : LoopbackState)
  : M S Status :=
  sde_call (CallSetPortLoopbackMode unit port mode)
           (sde_SetPortLoopbackMode unit port mode).
Definition GetPortIdFromPortKey (unit : Z) (key : PortKey)
  : M S (StatusOr Z) :=
  sde_call (CallGetPortIdFromPortKey unit key)
           (sde_GetPortIdFromPortKey unit key).
Definition sde_interface_GetPortCounters (unit port : Z)
  : M S (StatusOr PortCounters) :=
  sde_call (CallGetPortCounters unit port) (sde_GetPortCounters unit port).
End Calls.

(** ** AddPortHelper and UpdatePortHelper *)

(** The state of a helper: the [PortConfig] behind its out-parameter
    [config], and the backend. *)
Record HelperSt := mkHelperSt { config : PortConfig.t; world : World }.

#[global] Instance HelperSt_world : HasWorld HelperSt := {|
  get_world := world;
  set_world w s := mkHelperSt (config s) w |}.

(** [config->field = v] *)
Definition set_config (f : PortConfig.t → PortConfig.t) : M HelperSt () :=
  modify (λ s, mkHelperSt (f (config s)) (world s)).

Definition string_empty (s : string) : bool :=
  match s with EmptyString => true | _ => false end.

Definition AddPortHelper (node_id unit sdk_port_id : Z)
           (singleton_port : SingletonPort.t) : M HelperSt () :=
  set_config (PortConfig.set_admin_state ADMIN_STATE_UNKNOWN) ;;
  (* SingletonPort ID is the SDN/Stratum port ID *)
  let port_id := SingletonPort.id singleton_port in
  let port_name := SingletonPort.name singleton_port in
  let config_params := SingletonPort.config_params singleton_port in
  (if decide (ConfigParams.admin_state config_params = ADMIN_STATE_UNKNOWN)
   then fail ERR_INVALID_PARAM "Invalid admin state for port"
   else mret ()) ;;
  (if decide (ConfigParams.admin_state config_params = ADMIN_STATE_DIAG)
   then fail ERR_UNIMPLEMENTED "Unsupported 'diags' admin state for port"
   else mret ()) ;;
  set_config (PortConfig.set_speed_bps
                (Some (SingletonPort.speed_bps singleton_port))) ;;
  set_config (PortConfig.set_admin_state ADMIN_STATE_DISABLED) ;;
  set_config (PortConfig.set_fec_mode
                (Some (ConfigParams.fec_mode config_params))) ;;
  set_config (PortConfig.set_port_type
                (ConfigParams.port_type config_params)) ;;
  set_config (λ c, PortConfig.set_pipeline_name
                (if negb (string_empty
                            (ConfigParams.pipeline_name config_params))
                 then PortConfig.pipeline_name c
                 else kDefaultPipelineName) c) ;;
  set_config (λ c, PortConfig.set_mempool_name
                (if negb (string_empty (PortConfig.mempool_name c))
                 then PortConfig.mempool_name c
                 else kDefaultMempoolName) c) ;;
  set_config (PortConfig.set_mtu
                (Some (if decide (ConfigParams.mtu config_params ≠ 0)
                       then ConfigParams.mtu config_params
                       else kDefaultMtu))) ;;
  c ← gets config;
  let sde_params :=
    PortConfigParams.mk
      (ConfigParams.port_type config_params)
      (PortConfig.device_type c)
      (if decide (PortConfig.packet_dir c ≠ 0)
       then PortConfig.packet_dir c else kDefaultPortPacketDirection)
      (PortConfig.queues c)
      (default 0 (PortConfig.mtu c))   (* [*config->mtu], set just above *)
      (PortConfig.socket_path c)
      (PortConfig.host_name c)
      port_name
      (if negb (string_empty (PortConfig.pipeline_name c))
       then PortConfig.pipeline_name c else kDefaultPipelineName)
      (if negb (string_empty (PortConfig.mempool_name c))
       then PortConfig.mempool_name c else kDefaultMempoolName)
      (PortConfig.pci_bdf c) in
  RETURN_IF_ERROR
    (AddPort_params unit port_id (SingletonPort.speed_bps singleton_port)
                    sde_params (ConfigParams.fec_mode config_params)) ;;
  (* Check if Control Port Creation is opted in CLI. *)
  (if negb (string_empty (PortConfig.control_port c)) then
     (* Packet direction for control port will always be host type *)
     let sde_params := PortConfigParams.set_port_type PORT_TYPE_TAP sde_params in
     let sde_params :=
       PortConfigParams.set_packet_dir kDefaultPortPacketDirection sde_params in
     (* [uint32] arithmetic *)
     let sdk_ctl_port_id := (kSdkPortControlBase + sdk_port_id) `mod` 2 ^ 32 in
     RETURN_IF_ERROR
       (AddPort_params unit sdk_ctl_port_id
                       (SingletonPort.speed_bps singleton_port) sde_params
                       (ConfigParams.fec_mode config_params))
   else mret ()) ;;
  c ← gets config;
  match PortConfig.mtu c with
  | Some _ => mret ()    (* the call to SetPortMtu is commented out *)
  | None =>
      if decide (ConfigParams.mtu config_params ≠ 0)
      then set_config (PortConfig.set_mtu
                         (Some (ConfigParams.mtu config_params)))
      else mret ()
  end ;;
  (if decide (ConfigParams.autoneg config_params ≠ TRI_STATE_UNKNOWN)
   then RETURN_IF_ERROR
          (SetPortAutonegPolicy unit sdk_port_id
                                (ConfigParams.autoneg config_params))
   else mret ()) ;;
  set_config (PortConfig.set_autoneg
                (Some (ConfigParams.autoneg config_params))) ;;
  (if decide (ConfigParams.loopback_mode config_params
              ≠ LOOPBACK_STATE_UNKNOWN)
   then RETURN_IF_ERROR
          (SetPortLoopbackMode unit sdk_port_id
                               (ConfigParams.loopback_mode config_params))
   else mret ()) ;;
  set_config (PortConfig.set_loopback_mode
                (Some (ConfigParams.loopback_mode config_params))) ;;
  (if decide (ConfigParams.admin_state config_params = ADMIN_STATE_ENABLED)
   then (* the call to EnablePort is commented out *)
        set_config (PortConfig.set_admin_state ADMIN_STATE_ENABLED)
   else mret ()) ;;
  mret ().

(** The [SingletonPort] that the rollback of a speed change rebuilds from
    the old configuration (the block of [UpdatePortHelper] that starts at
    "Revert to the old port configuration"). *)
Definition port_old_of (singleton_port : SingletonPort.t)
           (config_old : PortConfig.t) : SingletonPort.t :=
  let port_old :=
    BuildSingletonPort (SingletonPort.slot singleton_port)
                       (SingletonPort.port singleton_port)
                       (SingletonPort.channel singleton_port)
                       (* [*config_old.speed_bps]: the caller checked it *)
                       (default 0 (PortConfig.speed_bps config_old)) in
  let port_old :=
    SingletonPort.map_config_params
      (ConfigParams.set_admin_state (PortConfig.admin_state config_old))
      port_old in
  let port_old :=
    match PortConfig.autoneg config_old with
    | Some a => SingletonPort.map_config_params
                  (ConfigParams.set_autoneg a) port_old
    | None => port_old
    end in
  let port_old :=
    match PortConfig.mtu config_old with
    | Some m => SingletonPort.map_config_params
                  (ConfigParams.set_mtu m) port_old
    | None => port_old
    end in
  match PortConfig.fec_mode config_old with
  | Some f => SingletonPort.map_config_params
                (ConfigParams.set_fec_mode f) port_old
  | None => port_old
  end.

Definition UpdatePortHelper (node_id unit sdk_port_id : Z)
           (singleton_port : SingletonPort.t) (config_old : PortConfig.t)
  : M HelperSt () :=
  set_config (λ _, config_old) ;;
  (* SingletonPort ID is the SDN/Stratum port ID *)
  let port_id := SingletonPort.id singleton_port in
  valid ← IsValidPort unit sdk_port_id;
  (if negb valid then
     set_config (PortConfig.set_admin_state ADMIN_STATE_UNKNOWN) ;;
     set_config (PortConfig.set_speed_bps None) ;;
     set_config (PortConfig.set_fec_mode None) ;;
     fail ERR_INTERNAL "Port is not valid"
   else mret ()) ;;
  let config_params := SingletonPort.config_params singleton_port in
  if decide (Some (SingletonPort.speed_bps singleton_port)
             ≠ PortConfig.speed_bps config_old) then
    (* every path of this block returns *)
    RETURN_IF_ERROR (DisablePort unit sdk_port_id) ;;
    RETURN_IF_ERROR (DeletePort unit sdk_port_id) ;;
    status ← status_value
               (AddPortHelper node_id unit sdk_port_id singleton_port);
    if ok status then mret ()
    else
      (* Revert to the old port configuration *)
      let port_old := port_old_of singleton_port config_old in
      _ ← status_value (AddPortHelper node_id unit sdk_port_id port_old);
      fail ERR_INVALID_PARAM "Could not add port with new speed to BF SDE"
  else
  (* same for FEC mode *)
  (if decide (Some (ConfigParams.fec_mode config_params)
              ≠ PortConfig.fec_mode config_old)
   then fail ERR_UNIMPLEMENTED
             "The FEC mode for port has changed; you need to delete the port and add it again"
   else mret ()) ;;
  (if decide (ConfigParams.admin_state config_params = ADMIN_STATE_UNKNOWN)
   then fail ERR_INVALID_PARAM "Invalid admin state for port"
   else mret ()) ;;
  (if decide (ConfigParams.admin_state config_params = ADMIN_STATE_DIAG)
   then fail ERR_UNIMPLEMENTED "Unsupported 'diags' admin state for port"
   else mret ()) ;;
  let config_changed := false in
  config_changed ←
    (if decide (Some (ConfigParams.mtu config_params)
                ≠ PortConfig.mtu config_old) then
       set_config (PortConfig.set_mtu None) ;;
       (* the call to SetPortMtu is commented out *)
       set_config (PortConfig.set_mtu
                     (Some (ConfigParams.mtu config_params))) ;;
       mret true
     else mret config_changed);
  config_changed ←
    (if decide (Some (ConfigParams.autoneg config_params)
                ≠ PortConfig.autoneg config_old) then
       set_config (PortConfig.set_autoneg None) ;;
       RETURN_IF_ERROR
         (SetPortAutonegPolicy unit sdk_port_id
                               (ConfigParams.autoneg config_params)) ;;
       set_config (PortConfig.set_autoneg
                     (Some (ConfigParams.autoneg config_params))) ;;
       mret true
     else mret config_changed);
  config_changed ←
    (if decide (Some (ConfigParams.loopback_mode config_params)
                ≠ PortConfig.loopback_mode config_old) then
       set_config (PortConfig.set_loopback_mode None) ;;
       RETURN_IF_ERROR
         (SetPortLoopbackMode unit sdk_port_id
                              (ConfigParams.loopback_mode config_params)) ;;
       set_config (PortConfig.set_loopback_mode
                     (Some (ConfigParams.loopback_mode config_params))) ;;
       mret true
     else mret config_changed);
  let '(need_disable, need_enable) :=
    if decide (ConfigParams.admin_state config_params = ADMIN_STATE_DISABLED)
    then
      (* if the new admin state is disabled, we need to disable the port if
         it was previously enabled. *)
      (bool_decide (PortConfig.admin_state config_old ≠ ADMIN_STATE_DISABLED),
       false)
    else if decide (ConfigParams.admin_state config_params
                    = ADMIN_STATE_ENABLED)
    then
      let need_disable :=
        config_changed
        && bool_decide (PortConfig.admin_state config_old
                        ≠ ADMIN_STATE_DISABLED) in
      (need_disable,
       need_disable
       || bool_decide (PortConfig.admin_state config_old
                       = ADMIN_STATE_DISABLED))
    else (false, false) in
  (if need_disable then
     RETURN_IF_ERROR (DisablePort unit sdk_port_id) ;;
     set_config (PortConfig.set_admin_state ADMIN_STATE_DISABLED)
   else mret ()) ;;
  (if need_enable then
     (* the call to EnablePort is commented out *)
     set_config (PortConfig.set_admin_state ADMIN_STATE_ENABLED)
   else mret ()) ;;
  mret ().

(** ** The maps of the manager *)

(** [m[k]] on a non-const [std::map]: an absent key is inserted with a
    value-initialised element.  The result is the element and the map
    after the access. *)
Definition map_index {V} (dflt : V) (k : Z) (m : gmap Z V) : V * gmap Z V :=
  match m !! k with
  | Some v => (v, m)
  | None => (dflt, <[k := dflt]> m)
  end.

(** [m[n][p]], read *)
Definition map_index2 {V} (dflt : V) (n p : Z) (m : gmap Z (gmap Z V))
  : V * gmap Z (gmap Z V) :=
  let inner := map_index ∅ n m in
  let v := map_index dflt p inner.1 in
  (v.1, <[n := v.2]> inner.2).

(** [m[n][p] = v] *)
Definition map_assign2 {V} (n p : Z) (v : V) (m : gmap Z (gmap Z V))
  : gmap Z (gmap Z V) :=
  <[n := <[p := v]> (default ∅ (m !! n))]> m.

(** [gtl::FindOrNull] on the outer map, then on the inner one. *)
Definition lookup2 {V} (n p : Z) (m : gmap Z (gmap Z V)) : option V :=
  match m !! n with
  | Some inner => inner !! p
  | None => None
  end.

(** The entries of a [std::map] in iteration order: ascending keys. *)
Definition key_le {V} (a b : Z * V) : Prop := a.1 ≤ b.1.

#[global] Instance key_le_dec {V} (a b : Z * V) : Decision (key_le a b) :=
  Z_le_dec _ _.

Definition sorted_items {V} (m : gmap Z V) : list (Z * V) :=
  merge_sort key_le (map_to_list m).

(** The members of [DpdkChassisManager] that hold the live generation.
    [mode_] and [gnmi_event_writer_] play no part in the functions below;
    [sde_interface_] is the [World]. *)
Record DpdkChassisManager := mkManager {
  initialized_ : bool;
  unit_to_node_id_ : gmap Z Z;
  node_id_to_unit_ : gmap Z Z;
  node_id_to_port_id_to_port_state_ : gmap Z (gmap Z PortState);
  node_id_to_port_id_to_time_last_changed_ : gmap Z (gmap Z Time);
  node_id_to_port_id_to_port_config_ : gmap Z (gmap Z PortConfig.t);
  node_id_to_port_id_to_singleton_port_key_ : gmap Z (gmap Z PortKey);
  node_id_to_port_id_to_sdk_port_id_ : gmap Z (gmap Z Z);
  node_id_to_sdk_port_id_to_port_id_ : gmap Z (gmap Z Z) }.

(** The manager as its constructor leaves it. *)
Definition new_manager : DpdkChassisManager :=
  mkManager false ∅ ∅ ∅ ∅ ∅ ∅ ∅ ∅.

Definition set_node_id_to_unit_ (v : gmap Z Z) (m : DpdkChassisManager) :=
  mkManager (initialized_ m) (unit_to_node_id_ m) v
            (node_id_to_port_id_to_port_state_ m)
            (node_id_to_port_id_to_time_last_changed_ m)
            (node_id_to_port_id_to_port_config_ m)
            (node_id_to_port_id_to_singleton_port_key_ m)
            (node_id_to_port_id_to_sdk_port_id_ m)
            (node_id_to_sdk_port_id_to_port_id_ m).
Definition set_node_id_to_port_id_to_port_state_
           (v : gmap Z (gmap Z PortState)) (m : DpdkChassisManager) :=
  mkManager (initialized_ m) (unit_to_node_id_ m) (node_id_to_unit_ m) v
            (node_id_to_port_id_to_time_last_changed_ m)
            (node_id_to_port_id_to_port_config_ m)
            (node_id_to_port_id_to_singleton_port_key_ m)
            (node_id_to_port_id_to_sdk_port_id_ m)
            (node_id_to_sdk_port_id_to_port_id_ m).
Definition set_node_id_to_port_id_to_time_last_changed_
           (v : gmap Z (gmap Z Time)) (m : DpdkChassisManager) :=
  mkManager (initialized_ m) (unit_to_node_id_ m) (node_id_to_unit_ m)
            (node_id_to_port_id_to_port_state_ m) v
            (node_id_to_port_id_to_port_config_ m)
            (node_id_to_port_id_to_singleton_port_key_ m)
            (node_id_to_port_id_to_sdk_port_id_ m)
            (node_id_to_sdk_port_id_to_port_id_ m).
Definition set_node_id_to_port_id_to_port_config_
           (v : gmap Z (gmap Z PortConfig.t)) (m : DpdkChassisManager) :=
  mkManager (initialized_ m) (unit_to_node_id_ m) (node_id_to_unit_ m)
            (node_id_to_port_id_to_port_state_ m)
            (node_id_to_port_id_to_time_last_changed_ m) v
            (node_id_to_port_id_to_singleton_port_key_ m)
            (node_id_to_port_id_to_sdk_port_id_ m)
            (node_id_to_sdk_port_id_to_port_id_ m).
Definition set_node_id_to_port_id_to_sdk_port_id_
           (v : gmap Z (gmap Z Z)) (m : DpdkChassisManager) :=
  mkManager (initialized_ m) (unit_to_node_id_ m) (node_id_to_unit_ m)
            (node_id_to_port_id_to_port_state_ m)
            (node_id_to_port_id_to_time_last_changed_ m)
            (node_id_to_port_id_to_port_config_ m)
            (node_id_to_port_id_to_singleton_port_key_ m) v
            (node_id_to_sdk_port_id_to_port_id_ m).

(** The local maps that [PushChassisConfig] builds ("new maps"). *)
Record NewMaps := mkNewMaps {
  unit_to_node_id : gmap Z Z;
  node_id_to_unit : gmap Z Z;
  node_id_to_port_id_to_port_state : gmap Z (gmap Z PortState);
  node_id_to_port_id_to_time_last_changed : gmap Z (gmap Z Time);
  node_id_to_port_id_to_port_config : gmap Z (gmap Z PortConfig.t);
  node_id_to_port_id_to_singleton_port_key : gmap Z (gmap Z PortKey);
  node_id_to_port_id_to_sdk_port_id : gmap Z (gmap Z Z);
  node_id_to_sdk_port_id_to_port_id : gmap Z (gmap Z Z) }.

Definition set_node_id_to_unit (v : gmap Z Z) (g : NewMaps) :=
  mkNewMaps (unit_to_node_id g) v
            (node_id_to_port_id_to_port_state g)
            (node_id_to_port_id_to_time_last_changed g)
            (node_id_to_port_id_to_port_config g)
            (node_id_to_port_id_to_singleton_port_key g)
            (node_id_to_port_id_to_sdk_port_id g)
            (node_id_to_sdk_port_id_to_port_id g).
Definition set_node_id_to_port_id_to_port_config
           (v : gmap Z (gmap Z PortConfig.t)) (g : NewMaps) :=
  mkNewMaps (unit_to_node_id g) (node_id_to_unit g)
            (node_id_to_port_id_to_port_state g)
            (node_id_to_port_id_to_time_last_changed g) v
            (node_id_to_port_id_to_singleton_port_key g)
            (node_id_to_port_id_to_sdk_port_id g)
            (node_id_to_sdk_port_id_to_port_id g).
Definition set_node_id_to_port_id_to_sdk_port_id
           (v : gmap Z (gmap Z Z)) (g : NewMaps) :=
  mkNewMaps (unit_to_node_id g) (node_id_to_unit g)
            (node_id_to_port_id_to_port_state g)
            (node_id_to_port_id_to_time_last_changed g)
            (node_id_to_port_id_to_port_config g)
            (node_id_to_port_id_to_singleton_port_key g) v
            (node_id_to_sdk_port_id_to_port_id g).

(** The state of a member function: the object and the backend. *)
Record MgrSt := mkMgrSt { this : DpdkChassisManager; mworld : World }.

#[global] Instance MgrSt_world : HasWorld MgrSt := {|
  get_world := mworld;
  set_world w s := mkMgrSt (this s) w |}.

Definition modify_this (f : DpdkChassisManager → DpdkChassisManager)
  : M MgrSt () :=
  modify (λ s, mkMgrSt (f (this s)) (mworld s)).

(** A helper called on the [PortConfig] [c] behind its out-parameter: the
    result is the helper's status and the [PortConfig] it leaves. *)
Definition run_helper (m : M HelperSt ()) (c : PortConfig.t)
  : M MgrSt (Status * PortConfig.t) :=
  λ s, let r := m (mkHelperSt c (mworld s)) in
       (inr (status_of r.1, config r.2), mkMgrSt (this s) (world r.2)).

(** A loop that carries local variables [B] from one iteration to the
    next; an error leaves the loop, and the function. *)
Fixpoint foldM {S A B} (body : B → A → M S B) (b : B) (l : list A)
  : M S B :=
  match l with
  | [] => mret b
  | x :: l' => b' ← body b x; foldM body b' l'
  end.

(** ** Queries *)

Definition ret_check_error {A} (msg : string) : StatusOr A :=
  inl (MAKE_ERROR RET_CHECK_code msg).

Definition GetPortConfig (mgr : DpdkChassisManager) (node_id port_id : Z)
  : StatusOr PortConfig.t :=
  match node_id_to_port_id_to_port_config_ mgr !! node_id with
  | None => ret_check_error "Node is not configured or not known."
  | Some port_id_to_config =>
      match port_id_to_config !! port_id with
      | None =>
          ret_check_error "Port is not configured or not known for node."
      | Some config => inr config
      end
  end.

Definition GetSdkPortId (mgr : DpdkChassisManager) (node_id port_id : Z)
  : StatusOr Z :=
  if negb (initialized_ mgr)
  then inl (MAKE_ERROR ERR_NOT_INITIALIZED "Not initialized!")
  else
    match node_id_to_port_id_to_sdk_port_id_ mgr !! node_id with
    | None => ret_check_error "Node is not configured or not known."
    | Some port_map =>
        match port_map !! port_id with
        | None =>
            ret_check_error "Port for node is not configured or not known."
        | Some sdk_port_id => inr sdk_port_id
        end
    end.

Definition GetUnitFromNodeId (mgr : DpdkChassisManager) (node_id : Z)
  : StatusOr Z :=
  if negb (initialized_ mgr)
  then inl (MAKE_ERROR ERR_NOT_INITIALIZED "Not initialized!")
  else
    match node_id_to_unit_ mgr !! node_id with
    | None => ret_check_error "Node is not configured or not known."
    | Some unit => inr unit
    end.

(** The two [RET_CHECK]s test [count] before the map is indexed, so the
    indexing inserts nothing. *)
Definition GetPortTimeLastChanged (mgr : DpdkChassisManager)
           (node_id port_id : Z) : StatusOr Time :=
  if negb (initialized_ mgr)
  then inl (MAKE_ERROR ERR_NOT_INITIALIZED "Not initialized!")
  else
    match node_id_to_port_id_to_time_last_changed_ mgr !! node_id with
    | None =>
        ret_check_error
          "'node_id_to_port_id_to_time_last_changed_.count(node_id)' is false."
    | Some times =>
        match times !! port_id with
        | None =>
            ret_check_error
              "'node_id_to_port_id_to_time_last_changed_[node_id].count(port_id)' is false."
        | Some time => inr time
        end
    end.

Definition GetPortCounters (node_id port_id : Z) : M MgrSt PortCounters :=
  mgr ← gets this;
  (if negb (initialized_ mgr)
   then fail ERR_NOT_INITIALIZED "Not initialized!" else mret ()) ;;
  unit ← ASSIGN_OR_RETURN (mret (GetUnitFromNodeId mgr node_id));
  sdk_port_id ← ASSIGN_OR_RETURN (mret (GetSdkPortId mgr node_id port_id));
  ASSIGN_OR_RETURN (sde_interface_GetPortCounters unit sdk_port_id).

(** ** PushChassisConfig *)

(** The first loop of [PushChassisConfig], and the second node loop of
    [VerifyChassisConfig]: units in declaration order. *)
Fixpoint assign_units (nodes : list Node.t) (unit : Z)
         (maps : gmap Z Z * gmap Z Z) : gmap Z Z * gmap Z Z :=
  match nodes with
  | [] => maps
  | node :: rest =>
      assign_units rest (unit + 1)
                   (<[unit := Node.id node]> maps.1,
                    <[Node.id node := unit]> maps.2)
  end.

(** Body of the second loop: state of the port, and its SDK port id. *)
Definition push_resolve_port (g : NewMaps)
           (singleton_port : SingletonPort.t) : M MgrSt NewMaps :=
  let port_id := SingletonPort.id singleton_port in
  let node_id := SingletonPort.node singleton_port in
  match node_id_to_unit g !! node_id with
  | None => fail ERR_INVALID_PARAM "Invalid ChassisConfig, unknown node id"
  | Some unit =>
      let singleton_port_key :=
        mkPortKey (SingletonPort.slot singleton_port)
                  (SingletonPort.port singleton_port)
                  (SingletonPort.channel singleton_port) in
      let g :=
        mkNewMaps
          (unit_to_node_id g) (node_id_to_unit g)
          (map_assign2 node_id port_id PORT_STATE_UNKNOWN
                       (node_id_to_port_id_to_port_state g))
          (map_assign2 node_id port_id UnixEpoch
                       (node_id_to_port_id_to_time_last_changed g))
          (map_assign2 node_id port_id PortConfig_default
                       (node_id_to_port_id_to_port_config g))
          (map_assign2 node_id port_id singleton_port_key
                       (node_id_to_port_id_to_singleton_port_key g))
          (node_id_to_port_id_to_sdk_port_id g)
          (node_id_to_sdk_port_id_to_port_id g) in
      (* Translate the logical SDN port to SDK port (BF device port ID) *)
      sdk_port ← ASSIGN_OR_RETURN
                   (GetPortIdFromPortKey unit singleton_port_key);
      mret (mkNewMaps
              (unit_to_node_id g) (node_id_to_unit g)
              (node_id_to_port_id_to_port_state g)
              (node_id_to_port_id_to_time_last_changed g)
              (node_id_to_port_id_to_port_config g)
              (node_id_to_port_id_to_singleton_port_key g)
              (map_assign2 node_id port_id sdk_port
                           (node_id_to_port_id_to_sdk_port_id g))
              (map_assign2 node_id sdk_port port_id
                           (node_id_to_sdk_port_id_to_port_id g)))
  end.

(** A helper run on [node_id_to_port_id_to_port_config[node_id][port_id]]
    of the new maps ([auto& config = ...]).  When the helper fails the push
    returns, and its local maps with it. *)
Definition on_new_config (node_id port_id : Z) (g : NewMaps)
           (helper : M HelperSt ()) : M MgrSt NewMaps :=
  let entry := map_index2 PortConfig_default node_id port_id
                          (node_id_to_port_id_to_port_config g) in
  r ← run_helper helper entry.1;
  RETURN_IF_ERROR (mret r.1) ;;
  mret (set_node_id_to_port_id_to_port_config
          (map_assign2 node_id port_id r.2 entry.2) g).

(** Body of the third loop: add the port, or diff it against the live
    configuration. *)
Definition push_apply_port (g : NewMaps) (singleton_port : SingletonPort.t)
  : M MgrSt NewMaps :=
  let port_id := SingletonPort.id singleton_port in
  let node_id := SingletonPort.node singleton_port in
  (* we checked that node_id was valid in the previous loop *)
  let unit_access := map_index 0 node_id (node_id_to_unit g) in
  let unit := unit_access.1 in
  let g := set_node_id_to_unit unit_access.2 g in
  mgr ← gets this;
  let config_old :=
    lookup2 node_id port_id (node_id_to_port_id_to_port_config_ mgr) in
  let sdk_access := map_index2 0 node_id port_id
                               (node_id_to_port_id_to_sdk_port_id g) in
  let sdk_port_id := sdk_access.1 in
  let g := set_node_id_to_port_id_to_sdk_port_id sdk_access.2 g in
  match config_old with
  | None =>
      (* new port *)
      on_new_config node_id port_id g
        (AddPortHelper node_id unit sdk_port_id singleton_port)
  | Some config_old =>
      (* port already exists, config may have changed *)
      if decide (PortConfig.admin_state config_old = ADMIN_STATE_UNKNOWN)
      then
        (* something is wrong with the port. We make sure the port is
           deleted first (and ignore the error status if there is one),
           then add the port again. *)
        valid ← IsValidPort unit sdk_port_id;
        (if valid : bool
         then _ ← DeletePort unit sdk_port_id; mret ()
         else mret ()) ;;
        on_new_config node_id port_id g
          (AddPortHelper node_id unit sdk_port_id singleton_port)
      else
        (* sanity-check: if admin_state is not ADMIN_STATE_UNKNOWN, then
           the port was added and the speed_bps was set. *)
        (if decide (PortConfig.speed_bps config_old = None)
         then fail ERR_INTERNAL
                   "Invalid internal state in DpdkChassisManager, speed_bps field should contain a value"
         else mret ()) ;;
        on_new_config node_id port_id g
          (UpdatePortHelper node_id unit sdk_port_id singleton_port
                            config_old)
  end.

(** Body of the clean-up loop, for one port of the old configuration. *)
Definition push_cleanup_port (g : NewMaps) (node_id port_id : Z)
  : M MgrSt () :=
  if match node_id_to_port_id_to_port_config g !! node_id with
     | Some ports => bool_decide (is_Some (ports !! port_id))
     | None => false
     end
  then mret ()
  else
    mgr ← gets this;
    let unit_access := map_index 0 node_id (node_id_to_unit_ mgr) in
    modify_this (set_node_id_to_unit_ unit_access.2) ;;
    let unit := unit_access.1 in
    mgr ← gets this;
    let sdk_access := map_index2 0 node_id port_id
                                 (node_id_to_port_id_to_sdk_port_id_ mgr) in
    modify_this (set_node_id_to_port_id_to_sdk_port_id_ sdk_access.2) ;;
    let sdk_port_id := sdk_access.1 in
    (* remove ports which are no longer present in the ChassisConfig *)
    RETURN_IF_ERROR (DeletePort unit sdk_port_id).

(** The final assignments of [PushChassisConfig]. *)
Definition install (g : NewMaps) : DpdkChassisManager :=
  mkManager true
            (unit_to_node_id g)
            (node_id_to_unit g)
            (node_id_to_port_id_to_port_state g)
            (node_id_to_port_id_to_time_last_changed g)
            (node_id_to_port_id_to_port_config g)
            (node_id_to_port_id_to_singleton_port_key g)
            (node_id_to_port_id_to_sdk_port_id g)
            (node_id_to_sdk_port_id_to_port_id g).

Definition PushChassisConfig (config : ChassisConfig.t) : M MgrSt () :=
  (* new maps *)
  let units := assign_units (ChassisConfig.nodes config) 0 (∅, ∅) in
  let g := mkNewMaps units.1 units.2 ∅ ∅ ∅ ∅ ∅ ∅ in
  g ← foldM push_resolve_port g (ChassisConfig.singleton_ports config);
  g ← foldM push_apply_port g (ChassisConfig.singleton_ports config);
  (* Clean up from old config. *)
  mgr ← gets this;
  for_each (sorted_items (node_id_to_port_id_to_port_config_ mgr))
    (λ node_ports_old,
       for_each (sorted_items node_ports_old.2)
         (λ port_old, push_cleanup_port g node_ports_old.1 port_old.1)) ;;
  modify_this (λ _, install g).

(** ** VerifyChassisConfig *)

(** Body of the first node loop: positive slot and id, no id twice. *)
Definition verify_node (node_id_to_unit : gmap Z Z) (node : Node.t)
  : M MgrSt (gmap Z Z) :=
  RET_CHECK (bool_decide (0 < Node.slot node)) "No positive slot in" ;;
  RET_CHECK (bool_decide (0 < Node.id node)) "No positive ID in" ;;
  (* gtl::InsertIfNotPresent(&node_id_to_unit, node.id(), -1) *)
  RET_CHECK (bool_decide (node_id_to_unit !! Node.id node = None))
            "The id for Node was already recorded for another Node in the config." ;;
  mret (<[Node.id node := -1]> node_id_to_unit).

(** Body of the first port loop; its local variables are
    [node_id_to_port_ids] and [singleton_port_keys]. *)
Definition verify_singleton_port (node_id_to_unit : gmap Z Z)
           (acc : gmap Z (gset Z) * gset PortKey)
           (singleton_port : SingletonPort.t)
  : M MgrSt (gmap Z (gset Z) * gset PortKey) :=
  let node_id_to_port_ids := acc.1 in
  let singleton_port_keys := acc.2 in
  RET_CHECK (bool_decide (SingletonPort.id singleton_port ≠ kCpuPortId))
            "SingletonPort has the reserved CPU port ID." ;;
  RET_CHECK (bool_decide (0 < SingletonPort.slot singleton_port))
            "No valid slot in" ;;
  RET_CHECK (bool_decide (0 < SingletonPort.port singleton_port))
            "No valid port in" ;;
  RET_CHECK (bool_decide (0 < SingletonPort.speed_bps singleton_port))
            "No valid speed_bps in" ;;
  let singleton_port_key :=
    mkPortKey (SingletonPort.slot singleton_port)
              (SingletonPort.port singleton_port)
              (SingletonPort.channel singleton_port) in
  RET_CHECK (bool_decide (singleton_port_key ∉ singleton_port_keys))
            "The (slot, port, channel) tuple for SingletonPort was already recorded for another SingletonPort in the config." ;;
  let singleton_port_keys := {[ singleton_port_key ]} ∪ singleton_port_keys in
  RET_CHECK (bool_decide (0 < SingletonPort.node singleton_port))
            "No valid node ID in" ;;
  RET_CHECK (bool_decide
               (is_Some (node_id_to_unit !! SingletonPort.node singleton_port)))
            "Node ID given for SingletonPort has not been given to any Node in the config." ;;
  (* [node_id_to_port_ids[node]]: an absent node starts with no ids *)
  let port_ids :=
    default ∅ (node_id_to_port_ids !! SingletonPort.node singleton_port) in
  RET_CHECK (bool_decide (SingletonPort.id singleton_port ∉ port_ids))
            "The id for SingletonPort was already recorded for another SingletonPort for node." ;;
  mret (<[SingletonPort.node singleton_port :=
            {[ SingletonPort.id singleton_port ]} ∪ port_ids]>
          node_id_to_port_ids,
        singleton_port_keys).

(** Body of the second port loop: the key of the port, and the check that
    the backend knows it. *)
Definition verify_port_exists (node_id_to_unit : gmap Z Z)
           (node_id_to_port_id_to_singleton_port_key : gmap Z (gmap Z PortKey))
           (singleton_port : SingletonPort.t)
  : M MgrSt (gmap Z (gmap Z PortKey)) :=
  let port_id := SingletonPort.id singleton_port in
  let node_id := SingletonPort.node singleton_port in
  let singleton_port_key :=
    mkPortKey (SingletonPort.slot singleton_port)
              (SingletonPort.port singleton_port)
              (SingletonPort.channel singleton_port) in
  let node_id_to_port_id_to_singleton_port_key :=
    map_assign2 node_id port_id singleton_port_key
                node_id_to_port_id_to_singleton_port_key in
  (* Make sure that the port exists by getting the SDK port ID. *)
  match node_id_to_unit !! node_id with
  | None => fail RET_CHECK_code "Node not found for port."
  | Some unit =>
      r ← GetPortIdFromPortKey unit singleton_port_key;
      RETURN_IF_ERROR (mret (status_of r)) ;;
      mret node_id_to_port_id_to_singleton_port_key
  end.

(** The checks of [VerifyChassisConfig] that come before the comparison with
    the live generation.  They build [node_id_to_unit] and
    [node_id_to_port_id_to_singleton_port_key] for the desired
    configuration. *)
Definition verify_config_layout (config : ChassisConfig.t)
  : M MgrSt (gmap Z Z * gmap Z (gmap Z PortKey)) :=
  RET_CHECK (bool_decide (ChassisConfig.trunk_ports_size config = 0))
            "Trunk ports are not supported on Tofino." ;;
  RET_CHECK (bool_decide (ChassisConfig.port_groups_size config = 0))
            "Port groups are not supported on Tofino." ;;
  RET_CHECK (bool_decide (ChassisConfig.nodes config ≠ []))
            "The config must contain at least one node." ;;
  (* Find the supported Tofino chip types based on the given platform. *)
  let platform :=
    match ChassisConfig.chassis config with
    | Some chassis => Chassis.platform chassis
    | None => PLT_UNKNOWN
    end in
  RET_CHECK (match platform with PLT_UNKNOWN | PLT_OTHER 0 => false
                               | _ => true end)
            "Config needs a Chassis message with correct platform." ;;
  match platform with
  | PLT_GENERIC_BAREFOOT_TOFINO
  | PLT_GENERIC_BAREFOOT_TOFINO2
  | PLT_P4_SOFT_SWITCH => mret ()
  | _ => fail ERR_INVALID_PARAM "Unsupported platform: "
  end ;;
  (* Validate Node messages. Make sure there is no two nodes with the same
     id. *)
  node_id_to_unit ← foldM verify_node ∅ (ChassisConfig.nodes config);
  let units :=
    assign_units (ChassisConfig.nodes config) 0 (∅, node_id_to_unit) in
  let unit_to_node_id := units.1 in
  let node_id_to_unit := units.2 in
  _ ← foldM (verify_singleton_port node_id_to_unit) (∅, ∅)
            (ChassisConfig.singleton_ports config);
  node_id_to_port_id_to_singleton_port_key ←
    foldM (verify_port_exists node_id_to_unit) ∅
          (ChassisConfig.singleton_ports config);
  mret (node_id_to_unit, node_id_to_port_id_to_singleton_port_key).

Definition VerifyChassisConfig (config : ChassisConfig.t) : M MgrSt () :=
  layout ← verify_config_layout config;
  let node_id_to_unit := layout.1 in
  let node_id_to_port_id_to_singleton_port_key := layout.2 in
  (* If the class is initialized, we also need to check if the new config
     will require a change in the port layout. If so, report reboot
     required. *)
  mgr ← gets this;
  if initialized_ mgr then
    (if decide (node_id_to_port_id_to_singleton_port_key
                ≠ node_id_to_port_id_to_singleton_port_key_ mgr)
     then fail ERR_REBOOT_REQUIRED
               "The switch is already initialized, but we detected the newly pushed config requires a change in the port layout. The stack needs to be rebooted to finish config push."
     else mret ()) ;;
    (if decide (node_id_to_unit ≠ node_id_to_unit_ mgr)
     then fail ERR_REBOOT_REQUIRED
               "The switch is already initialized, but we detected the newly pushed config requires a change in node_id_to_unit. The stack needs to be rebooted to finish config push."
     else mret ())
  else mret ().

(** The port layout of a desired configuration: the key of every port, and
    the unit of every node, as the loops of [PushChassisConfig] and
    [VerifyChassisConfig] build them. *)
Definition config_port_keys (config : ChassisConfig.t)
  : gmap Z (gmap Z PortKey) :=
  foldl (λ m singleton_port,
           map_assign2 (SingletonPort.node singleton_port)
                       (SingletonPort.id singleton_port)
                       (mkPortKey (SingletonPort.slot singleton_port)
                                  (SingletonPort.port singleton_port)
                                  (SingletonPort.channel singleton_port)) m)
        ∅ (ChassisConfig.singleton_ports config).

Definition config_node_units (config : ChassisConfig.t) : gmap Z Z :=
  (assign_units (ChassisConfig.nodes config) 0 (∅, ∅)).2.

(** A computation that neither reads nor changes the members of the
    manager: with other members it returns the same result and reaches the
    same backend state. *)
Definition frame_ok {A} (m : M MgrSt A) : Prop :=
  ∀ mgr mgr' w,
    m (mkMgrSt mgr w)
    = ((m (mkMgrSt mgr' w)).1,
       mkMgrSt mgr (mworld (m (mkMgrSt mgr' w)).2)).

(** ** ReplayPortsConfig *)

(** Modelled from the spec: the macro [APPEND_STATUS_IF_ERROR] is defined in
    [stratum/lib/macros.h], which is not part of the sources at hand.  The
    spec (4.5) has the per-port failures "accumulated, not aborted on",
    with "an aggregated error reflecting all failures": an OK status adds
    nothing; an error is kept as it is when it is the first, and otherwise
    its message is added to the one accumulated so far, whose code stays. *)
Definition APPEND_STATUS_IF_ERROR (out : Status) (ret : Status) : Status :=
  match ret with
  | OkStatus => out
  | ErrStatus e =>
      match out with
      | OkStatus => ErrStatus e
      | ErrStatus o =>
          ErrStatus (MAKE_ERROR (error_code o)
                                (error_message o ++ " " ++ error_message e))
      end
  end.

(** The lambda [replay_one_port]; its out-parameter [config_new] is the
    [config] of the helper state. *)
Definition replay_one_port (mgr : DpdkChassisManager) (node_id unit : Z)
           (port_id : Z) (config : PortConfig.t) : M HelperSt () :=
  if decide (PortConfig.admin_state config = ADMIN_STATE_UNKNOWN)
  then mret ()   (* was not configured properly, so skipping replay *)
  else
    match PortConfig.speed_bps config, PortConfig.fec_mode config with
    | None, _ =>
        fail ERR_INTERNAL
             "Invalid internal state in DpdkChassisManager, speed_bps field should contain a value"
    | Some _, None =>
        fail ERR_INTERNAL
             "Invalid internal state in DpdkChassisManager, fec_mode field should contain a value"
    | Some speed_bps, Some fec_mode =>
        sdk_port_id ← ASSIGN_OR_RETURN
                        (mret (GetSdkPortId mgr node_id port_id));
        RETURN_IF_ERROR (AddPort unit sdk_port_id speed_bps fec_mode) ;;
        set_config (PortConfig.set_speed_bps (Some speed_bps)) ;;
        set_config (PortConfig.set_admin_state ADMIN_STATE_DISABLED) ;;
        set_config (PortConfig.set_fec_mode (Some fec_mode)) ;;
        match PortConfig.mtu config with
        | Some mtu =>
            (* the call to SetPortMtu is commented out *)
            set_config (PortConfig.set_mtu (Some mtu))
        | None => mret ()
        end ;;
        match PortConfig.autoneg config with
        | Some autoneg =>
            RETURN_IF_ERROR
              (SetPortAutonegPolicy unit sdk_port_id autoneg) ;;
            set_config (PortConfig.set_autoneg (Some autoneg))
        | None => mret ()
        end ;;
        match PortConfig.loopback_mode config with
        | Some loopback_mode =>
            RETURN_IF_ERROR
              (SetPortLoopbackMode unit sdk_port_id loopback_mode) ;;
            set_config (PortConfig.set_loopback_mode (Some loopback_mode))
        | None => mret ()
        end ;;
        (if decide (PortConfig.admin_state config = ADMIN_STATE_ENABLED)
         then (* the call to EnablePort is commented out *)
              set_config (PortConfig.set_admin_state ADMIN_STATE_ENABLED)
         else mret ()) ;;
        mret ()
    end.

(** Body of the port loop of [ReplayPortsConfig]; [status] is the local
    variable that keeps track of the errors. *)
Definition replay_port (node_id unit : Z) (status : Status)
           (p : Z * PortConfig.t) : M MgrSt Status :=
  let port_id := p.1 in
  mgr ← gets this;
  r ← run_helper (replay_one_port mgr node_id unit port_id p.2)
                 PortConfig_default;
  (* p.second = config_new *)
  modify_this (λ mgr,
    set_node_id_to_port_id_to_port_config_
      (map_assign2 node_id port_id r.2
                   (node_id_to_port_id_to_port_config_ mgr)) mgr) ;;
  mret (APPEND_STATUS_IF_ERROR status r.1).

Definition ReplayPortsConfig (node_id : Z) : M MgrSt () :=
  mgr ← gets this;
  (if negb (initialized_ mgr)
   then fail ERR_NOT_INITIALIZED "Not initialized!" else mret ()) ;;
  unit ← ASSIGN_OR_RETURN (mret (GetUnitFromNodeId mgr node_id));
  (* for (auto& p : node_id_to_port_id_to_port_state_[node_id]) *)
  modify_this (λ mgr,
    let states :=
      map_index ∅ node_id (node_id_to_port_id_to_port_state_ mgr) in
    set_node_id_to_port_id_to_port_state_
      (<[node_id := (λ _, PORT_STATE_UNKNOWN) <$> states.1]> states.2) mgr) ;;
  modify_this (λ mgr,
    let times :=
      map_index ∅ node_id (node_id_to_port_id_to_time_last_changed_ mgr) in
    set_node_id_to_port_id_to_time_last_changed_
      (<[node_id := (λ _, UnixEpoch) <$> times.1]> times.2) mgr) ;;
  mgr ← gets this;
  (* for (auto& p : node_id_to_port_id_to_port_config_[node_id]) *)
  let configs :=
    map_index ∅ node_id (node_id_to_port_id_to_port_config_ mgr) in
  modify_this (set_node_id_to_port_id_to_port_config_ configs.2) ;;
  status ← foldM (replay_port node_id unit) OkStatus
                 (sorted_items configs.1);
  RETURN_IF_ERROR (mret status).

(** What the port loop of [ReplayPortsConfig] does, port by port: for each
    port, the cached configuration and the backend it started from, and the
    status and the [PortConfig] that [replay_one_port] left.  Each replay
    starts in the backend state the previous one reached. *)
Record ReplayOutcome := mkReplayOutcome {
  ro_port_id : Z;
  ro_old : PortConfig.t;
  ro_before : World;
  ro_status : Status;
  ro_config : PortConfig.t }.

Fixpoint replay_outcomes (mgr : DpdkChassisManager) (node_id unit : Z)
         (ports : list (Z * PortConfig.t)) (w : World)
  : list ReplayOutcome * World :=
  match ports with
  | [] => ([], w)
  | p :: rest =>
      let r := replay_one_port mgr node_id unit p.1 p.2
                               (mkHelperSt PortConfig_default w) in
      let rs := replay_outcomes mgr node_id unit rest (world r.2) in
      (mkReplayOutcome p.1 p.2 w (status_of r.1) (config r.2) :: rs.1, rs.2)
  end.

(** The status that accumulates over a list of statuses. *)
Definition aggregate (statuses : list Status) : Status :=
  foldl APPEND_STATUS_IF_ERROR OkStatus statuses.

(** The cached configurations after these replays: each port's entry is
    assigned the [PortConfig] its replay left ([p.second = config_new]). *)
Definition apply_outcomes (node_id : Z) (outcomes : list ReplayOutcome)
           (configs : gmap Z (gmap Z PortConfig.t))
  : gmap Z (gmap Z PortConfig.t) :=
  foldl (λ m o, map_assign2 node_id (ro_port_id o) (ro_config o) m)
        configs outcomes.

(** Whether the replay of a port gets as far as an [AddPort] call that the
    backend accepts: the cached admin state is known, speed and FEC mode are
    there, the SDK port id is found, and the call returns OK. *)
Definition port_added (mgr : DpdkChassisManager) (node_id unit port_id : Z)
           (old : PortConfig.t) (w : World) : bool :=
  if decide (PortConfig.admin_state old = ADMIN_STATE_UNKNOWN) then false
  else
    match PortConfig.speed_bps old, PortConfig.fec_mode old,
          GetSdkPortId mgr node_id port_id with
    | Some speed_bps, Some fec_mode, inr sdk_port_id =>
        ok (sde_AddPort unit sdk_port_id speed_bps fec_mode (sde w)).1
    | _, _, _ => false
    end.

(** ** Shutdown *)

Definition CleanupInternalState (mgr : DpdkChassisManager)
  : DpdkChassisManager :=
  mkManager (initialized_ mgr) ∅ ∅ ∅ ∅ ∅ ∅ ∅ ∅.

Definition Shutdown : M MgrSt () :=
  mgr ← gets this;
  if negb (initialized_ mgr) then mret ()
  else
    modify_this (λ mgr,
      mkManager false
                (unit_to_node_id_ mgr) (node_id_to_unit_ mgr)
                (node_id_to_port_id_to_port_state_ mgr)
                (node_id_to_port_id_to_time_last_changed_ mgr)
                (node_id_to_port_id_to_port_config_ mgr)
                (node_id_to_port_id_to_singleton_port_key_ mgr)
                (node_id_to_port_id_to_sdk_port_id_ mgr)
                (node_id_to_sdk_port_id_to_port_id_ mgr)) ;;
    modify_this CleanupInternalState.

(** ** The states of the manager

    The members as the constructor leaves them, and as any sequence of calls
    of the member functions, on any backend, can leave them. *)
Inductive reachable : DpdkChassisManager → Prop :=
| reachable_new : reachable new_manager
| reachable_Push config mgr w :
    reachable mgr →
    reachable (this (PushChassisConfig config (mkMgrSt mgr w)).2)
| reachable_Verify config mgr w :
    reachable mgr →
    reachable (this (VerifyChassisConfig config (mkMgrSt mgr w)).2)
| reachable_Replay node_id mgr w :
    reachable mgr →
    reachable (this (ReplayPortsConfig node_id (mkMgrSt mgr w)).2)
| reachable_GetPortCounters node_id port_id mgr w :
    reachable mgr →
    reachable (this (GetPortCounters node_id port_id (mkMgrSt mgr w)).2)
| reachable_Shutdown mgr w :
    reachable mgr →
    reachable (this (Shutdown (mkMgrSt mgr w)).2).

(** Every cached port has a unit for its node and an SDK port id. *)
Definition ports_resolved (mgr : DpdkChassisManager) : Prop :=
  ∀ node_id port_id,
    is_Some (lookup2 node_id port_id (node_id_to_port_id_to_port_config_ mgr)) →
    is_Some (node_id_to_unit_ mgr !! node_id)
    ∧ is_Some (lookup2 node_id port_id
                       (node_id_to_port_id_to_sdk_port_id_ mgr)).

(** The same for the local maps of a push. *)
Definition new_ports_resolved (g : NewMaps) : Prop :=
  ∀ node_id port_id,
    is_Some (lookup2 node_id port_id (node_id_to_port_id_to_port_config g)) →
    is_Some (node_id_to_unit g !! node_id)
    ∧ is_Some (lookup2 node_id port_id (node_id_to_port_id_to_sdk_port_id g)).

(** The passes of [PushChassisConfig] over the ports of the configuration,
    and its clean-up loop. *)
Definition push_new_maps (config : ChassisConfig.t) : NewMaps :=
  let units := assign_units (ChassisConfig.nodes config) 0 (∅, ∅) in
  mkNewMaps units.1 units.2 ∅ ∅ ∅ ∅ ∅ ∅.

Definition push_cleanup (g : NewMaps) : M MgrSt () :=
  mgr ← gets this;
  for_each (sorted_items (node_id_to_port_id_to_port_config_ mgr))
    (λ node_ports_old,
       for_each (sorted_items node_ports_old.2)
         (λ port_old, push_cleanup_port g node_ports_old.1 port_old.1)).

End Manager.

(** ** A scripted backend, and sample configurations

    The backend below answers every call from a fixed script: which calls
    fail, and whether ports are reported valid.  It serves to run the
    manager on concrete inputs. *)

Record TestSde := mkTestSde {
  t_valid : bool;            (* the answer of IsValidPort *)
  t_add_fails : bool;        (* AddPort, both overloads *)
  t_delete_fails : bool;
  t_disable_fails : bool;
  t_autoneg_fails : bool;
  t_loopback_fails : bool;
  t_resolve_fails : bool }.  (* GetPortIdFromPortKey *)

Definition sde_error : Error := MAKE_ERROR (ERR_OTHER 1) "backend failure".

Definition scripted (fails : bool) (b : TestSde) : Status * TestSde :=
  (if fails then ErrStatus sde_error else OkStatus, b).

Definition test_sde : TdiSdeInterface TestSde := {|
  sde_AddPort _ _ _ _ b := scripted (t_add_fails b) b;
  sde_AddPort_params _ _ _ _ _ b := scripted (t_add_fails b) b;
  sde_DeletePort _ _ b := scripted (t_delete_fails b) b;
  sde_DisablePort _ _ b := scripted (t_disable_fails b) b;
  sde_EnablePort _ _ b := scripted false b;
  sde_IsValidPort _ _ b := (t_valid b, b);
  sde_SetPortAutonegPolicy _ _ _ b := scripted (t_autoneg_fails b) b;
  sde_SetPortLoopbackMode _ _ _ b := scripted (t_loopback_fails b) b;
  sde_SetPortMtu _ _ _ b := scripted false b;
  sde_GetPortIdFromPortKey _ key b :=
    (if t_resolve_fails b then inl sde_error else inr (pk_port key), b);
  sde_GetPortCounters _ _ b := (inr [], b) |}.

(** A backend on which every call succeeds and every port is valid. *)
Definition good_sde : TestSde :=
  mkTestSde true false false false false false false.

Definition test_constants : Constants := {|
  kSdkPortControlBase := 256;
  kDefaultMtu := 1500;
  kDefaultPortPacketDirection := 1;
  kDefaultPipelineName := "pipe";
  kDefaultMempoolName := "MEMPOOL0";
  kCpuPortId := 4294967293;
  PORT_TYPE_TAP := 2;
  RET_CHECK_code := ERR_INVALID_PARAM |}.

Definition test_world (b : TestSde) : World := mkWorld b [].

(** A port of node 1 at (slot 1, port [n], channel 0), with id [n]. *)
Definition test_port (n speed : Z) (params : ConfigParams.t) : SingletonPort.t :=
  SingletonPort.mk n "" 1 n 0 speed 1 params.

Definition test_params (admin : AdminState) (mtu : Z) (autoneg : TriState)
           (fec : FecMode) : ConfigParams.t :=
  ConfigParams.mk admin mtu autoneg fec 0 0 "".

Definition test_config (ports : list SingletonPort.t) : ChassisConfig.t :=
  ChassisConfig.mk (Some (Chassis.mk PLT_P4_SOFT_SWITCH))
                   [Node.mk 1 1] ports 0 0.

(** The members and the log after a member function has run. *)
Definition run_on {A} (m : M (@MgrSt TestSde) A) (s : @MgrSt TestSde)
  : @MgrSt TestSde := (m s).2.

Definition test_Push := @PushChassisConfig TestSde test_sde test_constants.
Definition test_Verify := @VerifyChassisConfig TestSde test_sde test_constants.
Definition test_Replay := @ReplayPortsConfig TestSde test_sde test_constants.
Definition test_AddPortHelper := @AddPortHelper TestSde test_sde test_constants.
Definition test_UpdatePortHelper :=
  @UpdatePortHelper TestSde test_sde test_constants.

(** A cached configuration as [AddPortHelper] leaves it. *)
Definition test_cached (admin : AdminState) (speed mtu : Z)
           (autoneg : TriState) (fec : FecMode) : PortConfig.t :=
  PortConfig.mk admin (Some speed) (Some mtu) (Some autoneg) (Some fec)
                (Some 0) 0 0 0 0 "" "" "pipe" "MEMPOOL0" "" "".

(** Sample ports and cached configurations: a 10G port with MTU 1500 and
    FEC mode 1, enabled. *)
Definition port_10g (admin : AdminState) : SingletonPort.t :=
  test_port 1 10000000000 (test_params admin 1500 0 1).
Definition cached_10g (admin : AdminState) : PortConfig.t :=
  test_cached admin 10000000000 1500 0 1.

Definition fresh_helper (b : TestSde) : @HelperSt TestSde :=
  mkHelperSt PortConfig_default (test_world b).

(** A configuration with two enabled ports of node 1, and the manager after
    it was pushed on a backend that accepts every call. *)
Definition two_ports : ChassisConfig.t :=
  test_config [port_10g ADMIN_STATE_ENABLED;
               test_port 2 10000000000
                         (test_params ADMIN_STATE_DISABLED 1500 0 1)].

Definition pushed_two_ports : DpdkChassisManager :=
  this (run_on (test_Push two_ports)
               (mkMgrSt new_manager (test_world good_sde))).

(** The same with port 1 alone. *)
Definition one_port : ChassisConfig.t :=
  test_config [port_10g ADMIN_STATE_ENABLED].

Definition pushed_one_port : DpdkChassisManager :=
  this (run_on (test_Push one_port)
               (mkMgrSt new_manager (test_world good_sde))).

(** One enabled port whose [config_params] leave the MTU unset. *)
Definition mtu_unset : ChassisConfig.t :=
  test_config [test_port 1 10000000000
                         (test_params ADMIN_STATE_ENABLED 0 0 1)].

(** A backend that refuses to set the autoneg policy. *)
Definition autoneg_fails_sde : TestSde :=
  mkTestSde true false false false true false false.

Definition replayed_two_ports : (Error + ()) * @MgrSt TestSde :=
  test_Replay 1 (mkMgrSt pushed_two_ports (test_world autoneg_fails_sde)).

(** A backend that refuses to add ports, and the replay of node 1 on it
    after two ports were pushed. *)
Definition add_refused_sde : TestSde :=
  mkTestSde true true false false false false false.

Definition replay_add_refused : (Error + ()) * @MgrSt TestSde :=
  test_Replay 1 (mkMgrSt pushed_two_ports (test_world add_refused_sde)).

(** The new maps of a push of [two_ports] when its third loop starts: the
    units of the nodes, and the SDK port ids that the second loop resolved. *)
Definition resolved_two_ports : NewMaps :=
  let resolved :=
    foldM (@push_resolve_port TestSde test_sde)
          (push_new_maps two_ports) (ChassisConfig.singleton_ports two_ports)
          (mkMgrSt new_manager (test_world good_sde)) in
  match resolved.1 with
  | inr g => g
  | inl _ => push_new_maps two_ports
  end.

(** ** The admin-state matrix, in the words of the specification

    "need_disable = (disabled requested and was enabled) or (enabled
    requested and changed and was enabled); need_enable = need_disable or
    (enabled requested and was disabled)", where the second [need_disable]
    is the one of a configuration change. *)




(** A call that is neither DisablePort, DeletePort nor EnablePort. *)
Definition quiet_call (c : SdeCall) : Prop :=
  is_DisablePort c = false ∧ is_DeletePort c = false
  ∧ is_EnablePort c = false.

(** ** Invariants of the live generation *)

(** What the third loop of [PushChassisConfig] calls its sanity check: a
    cached [PortConfig] whose admin state is known was added, and holds the
    values that were set then; one whose admin state is unknown is as its
    constructor left it.  The admin state that is cached is unknown, enabled
    or disabled: never the diagnostic one, and never a number without a
    name. *)
Definition config_sane (c : PortConfig.t) : Prop :=
  (PortConfig.admin_state c = ADMIN_STATE_UNKNOWN
   ∨ PortConfig.admin_state c = ADMIN_STATE_ENABLED
   ∨ PortConfig.admin_state c = ADMIN_STATE_DISABLED)
  ∧ (PortConfig.admin_state c ≠ ADMIN_STATE_UNKNOWN →
     is_Some (PortConfig.speed_bps c)
     ∧ is_Some (PortConfig.fec_mode c)
     ∧ is_Some (PortConfig.mtu c))
  ∧ (PortConfig.admin_state c = ADMIN_STATE_UNKNOWN →
     c = PortConfig_default).

(** Two per-port maps that hold the same ports. *)
Definition same_ports {A B} (m1 : gmap Z (gmap Z A)) (m2 : gmap Z (gmap Z B))
  : Prop :=
  ∀ node_id port_id,
    is_Some (lookup2 node_id port_id m1) ↔ is_Some (lookup2 node_id port_id m2).

(** The per-port maps of the manager hold the same ports, and the node of
    every port has a unit. *)
Definition ports_aligned (mgr : DpdkChassisManager) : Prop :=
  same_ports (node_id_to_port_id_to_port_config_ mgr)
             (node_id_to_port_id_to_port_state_ mgr)
  ∧ same_ports (node_id_to_port_id_to_port_config_ mgr)
               (node_id_to_port_id_to_time_last_changed_ mgr)
  ∧ same_ports (node_id_to_port_id_to_port_config_ mgr)
               (node_id_to_port_id_to_singleton_port_key_ mgr)
  ∧ same_ports (node_id_to_port_id_to_port_config_ mgr)
               (node_id_to_port_id_to_sdk_port_id_ mgr)
  ∧ ∀ node_id port_id,
      is_Some (lookup2 node_id port_id
                       (node_id_to_port_id_to_port_config_ mgr)) →
      is_Some (node_id_to_unit_ mgr !! node_id).

Definition configs_sane (mgr : DpdkChassisManager) : Prop :=
  ∀ node_id port_id c,
    lookup2 node_id port_id (node_id_to_port_id_to_port_config_ mgr) = Some c →
    config_sane c.

(** No port state and no time of change is ever recorded. *)
Definition states_unknown (mgr : DpdkChassisManager) : Prop :=
  (∀ node_id port_id state,
     lookup2 node_id port_id (node_id_to_port_id_to_port_state_ mgr)
     = Some state → state = PORT_STATE_UNKNOWN)
  ∧ (∀ node_id port_id time,
       lookup2 node_id port_id (node_id_to_port_id_to_time_last_changed_ mgr)
       = Some time → time = UnixEpoch).

(** [unit_to_node_id_] maps the unit of every node back to the node.  (The
    other direction can fail: a configuration that lists a node twice gives
    it two units, and [node_id_to_unit_] keeps the last.) *)
Definition units_map_back (mgr : DpdkChassisManager) : Prop :=
  ∀ node_id unit,
    node_id_to_unit_ mgr !! node_id = Some unit →
    unit_to_node_id_ mgr !! unit = Some node_id.

(** The ports of a list have a unit and an entry in the new maps. *)
Definition ports_present (ports : list SingletonPort.t) (g : NewMaps) : Prop :=
  Forall (λ singleton_port,
            let node_id := SingletonPort.node singleton_port in
            let port_id := SingletonPort.id singleton_port in
            is_Some (node_id_to_unit g !! node_id)
            ∧ is_Some (lookup2 node_id port_id
                               (node_id_to_port_id_to_sdk_port_id g))
            ∧ is_Some (lookup2 node_id port_id
                               (node_id_to_port_id_to_port_config g)))
         ports.

Section Desired.
Context `{!Constants}.

(** The live entry that the third loop of [PushChassisConfig] hands to
    [UpdatePortHelper] and that is updated in place: the port is cached, its
    admin state is known and its speed is the one asked for.  Every other
    port goes through [AddPortHelper]: a new port, a port whose cached admin
    state is unknown, and a port that is deleted and added again for its new
    speed. *)
Definition updated_in_place (config_old : option PortConfig.t)
           (singleton_port : SingletonPort.t) : option PortConfig.t :=
  match config_old with
  | Some old =>
      if decide (PortConfig.admin_state old ≠ ADMIN_STATE_UNKNOWN
                 ∧ PortConfig.speed_bps old
                   = Some (SingletonPort.speed_bps singleton_port))
      then Some old else None
  | None => None
  end.

(** The admin state that a push records for a port: enabled when enabled is
    asked for, and disabled when disabled is asked for.  For any other
    number that the helpers accept, it is disabled when the port was added
    ([AddPortHelper] records disabled before it looks for enabled), and what
    it was when the port was updated in place ([UpdatePortHelper] then needs
    neither a disable nor an enable). *)
Definition admin_state_after_push (config_old : option PortConfig.t)
           (singleton_port : SingletonPort.t) : AdminState :=
  let requested :=
    ConfigParams.admin_state (SingletonPort.config_params singleton_port) in
  if decide (requested = ADMIN_STATE_ENABLED) then ADMIN_STATE_ENABLED
  else match updated_in_place config_old singleton_port with
       | Some old =>
           if decide (requested = ADMIN_STATE_DISABLED)
           then ADMIN_STATE_DISABLED else PortConfig.admin_state old
       | None => ADMIN_STATE_DISABLED
       end.

(** A cached [PortConfig] that holds what a [SingletonPort] of the desired
    configuration asks for, [config_old] being the entry that was cached for
    the port before, if there was one.
    - The admin state asked for is neither unknown nor the diagnostic one.
      The cached one is enabled when enabled is asked for, and disabled
      when disabled is asked for.  For any other number it is disabled when
      the port was added, and what it was when the port was updated in
      place.
    - The speed, the FEC mode, the autoneg and the loopback values are the
      ones asked for.
    - The MTU is the one asked for; when it is unset (0), the default MTU
      is cached when the port was added, and 0 when it was updated in
      place. *)
Definition config_matches (config_old : option PortConfig.t)
           (singleton_port : SingletonPort.t) (c : PortConfig.t) : Prop :=
  let config_params := SingletonPort.config_params singleton_port in
  let requested := ConfigParams.admin_state config_params in
  let mtu := ConfigParams.mtu config_params in
  requested ≠ ADMIN_STATE_UNKNOWN
  ∧ requested ≠ ADMIN_STATE_DIAG
  ∧ PortConfig.admin_state c
    = admin_state_after_push config_old singleton_port
  ∧ (PortConfig.admin_state c = ADMIN_STATE_ENABLED
     ∨ PortConfig.admin_state c = ADMIN_STATE_DISABLED)
  ∧ PortConfig.speed_bps c = Some (SingletonPort.speed_bps singleton_port)
  ∧ PortConfig.fec_mode c = Some (ConfigParams.fec_mode config_params)
  ∧ PortConfig.autoneg c = Some (ConfigParams.autoneg config_params)
  ∧ PortConfig.loopback_mode c
    = Some (ConfigParams.loopback_mode config_params)
  ∧ PortConfig.mtu c
    = Some (match updated_in_place config_old singleton_port with
            | Some _ => mtu
            | None => if decide (mtu ≠ 0) then mtu else kDefaultMtu
            end).

(** A cached [PortConfig] in which [UpdatePortHelper] finds nothing to
    change for a [SingletonPort]: the speed, the FEC mode, the MTU, the
    autoneg and the loopback values are the ones asked for, and so is the
    admin state when enabled or disabled is asked for. *)
Definition config_up_to_date (singleton_port : SingletonPort.t)
           (c : PortConfig.t) : Prop :=
  let config_params := SingletonPort.config_params singleton_port in
  let requested := ConfigParams.admin_state config_params in
  (PortConfig.admin_state c = ADMIN_STATE_ENABLED
   ∨ PortConfig.admin_state c = ADMIN_STATE_DISABLED)
  ∧ (requested = ADMIN_STATE_ENABLED
     → PortConfig.admin_state c = ADMIN_STATE_ENABLED)
  ∧ (requested = ADMIN_STATE_DISABLED
     → PortConfig.admin_state c = ADMIN_STATE_DISABLED)
  ∧ PortConfig.speed_bps c = Some (SingletonPort.speed_bps singleton_port)
  ∧ PortConfig.fec_mode c = Some (ConfigParams.fec_mode config_params)
  ∧ PortConfig.autoneg c = Some (ConfigParams.autoneg config_params)
  ∧ PortConfig.loopback_mode c
    = Some (ConfigParams.loopback_mode config_params)
  ∧ PortConfig.mtu c = Some (ConfigParams.mtu config_params).

End Desired.

(** The (node, port id) pairs of the ports of a configuration. *)
Definition port_ids (ports : list SingletonPort.t) : list (Z * Z) :=
  (λ singleton_port,
     (SingletonPort.node singleton_port, SingletonPort.id singleton_port))
    <$> ports.

(** The [PortKey] of a singleton port. *)
Definition port_key_of (singleton_port : SingletonPort.t) : PortKey :=
  mkPortKey (SingletonPort.slot singleton_port)
            (SingletonPort.port singleton_port)
            (SingletonPort.channel singleton_port).

(** ** The calls a computation can make *)

Definition is_SetPortMtu (c : SdeCall) : bool :=
  match c with CallSetPortMtu _ _ _ => true | _ => false end.
Definition is_GetPortIdFromPortKey (c : SdeCall) : bool :=
  match c with CallGetPortIdFromPortKey _ _ => true | _ => false end.

(** A call other than [EnablePort] and [SetPortMtu]. *)
Definition never_issued (c : SdeCall) : Prop :=
  is_EnablePort c = false ∧ is_SetPortMtu c = false.

Section Appends.
Context {W : Type}.

(** From the state [s], the computation appends to the log only calls that
    satisfy [Q]. *)
Definition appends_from {S} `{!HasWorld (W := W) S} {A} (Q : SdeCall → Prop)
           (m : M S A) (s : S) : Prop :=
  ∃ l, calls (get_world (m s).2) = calls (get_world s) ++ l ∧ Forall Q l.

(** The same from every state. *)
Definition appends {S} `{!HasWorld (W := W) S} {A} (Q : SdeCall → Prop)
           (m : M S A) : Prop :=
  ∀ s, appends_from Q m s.

End Appends.

(** ** GetPortState and GetPortData *)

(** [DataRequest::Request]: the cases that the switch of [GetPortData]
    names, each with the node and the port asked about, and any other case
    of the [oneof] (among them a request that is not set). *)
Inductive Request :=
| ReqOperStatus (node_id port_id : Z)
| ReqAdminStatus (node_id port_id : Z)
| ReqMacAddress (node_id port_id : Z)
| ReqPortSpeed (node_id port_id : Z)
| ReqNegotiatedPortSpeed (node_id port_id : Z)
| ReqLacpRouterMac (node_id port_id : Z)
| ReqPortCounters (node_id port_id : Z)
| ReqAutonegStatus (node_id port_id : Z)
| ReqFrontPanelPortInfo (node_id port_id : Z)
| ReqFecStatus (node_id port_id : Z)
| ReqLoopbackStatus (node_id port_id : Z)
| ReqSdnPortId (node_id port_id : Z)
| ReqForwardingViability (node_id port_id : Z)
| ReqHealthIndicator (node_id port_id : Z)
| ReqOther.

(** [DataResponse]: the case of its [oneof] that [GetPortData] made
    mutable, with the fields it set; [RespNotSet] is the message as its
    constructor leaves it. *)
Inductive DataResponse :=
| RespNotSet
| RespOperStatus (state : PortState) (time_last_changed : Z)
| RespAdminStatus (state : AdminState)
| RespMacAddress (mac_address : Z)
| RespPortSpeed (speed_bps : Z)
| RespNegotiatedPortSpeed (speed_bps : Z)
| RespLacpRouterMac (mac_address : Z)
| RespPortCounters (counters : PortCounters)
| RespAutonegStatus (state : TriState)
| RespFecStatus (mode : FecMode)
| RespLoopbackStatus (state : LoopbackState)
| RespSdnPortId (port_id : Z)
| RespForwardingViability (state : Z)
| RespHealthIndicator (state : Z).

Definition TRUNK_MEMBER_BLOCK_STATE_UNKNOWN : Z := 0.
Definition HEALTH_STATE_UNKNOWN : Z := 0.

(** The constants that [GetPortData] takes from headers that are not part
    of the sources at hand. *)
Class DataConstants := {
  kDummyMacAddress : Z;
  PORT_STATE_UP : PortState }.

(** The query that [GetPortState] makes through [sde_interface_]. *)
Class TdiSdeStateQuery (W : Type) := {
  sde_GetPortState : Z → Z → W → StatusOr PortState * W }.

Section PortData.
Context {W : Type} `{!TdiSdeInterface W} `{!TdiSdeStateQuery W}
        `{!Constants} `{!DataConstants}.

(** The state of [GetPortData]: the object and the backend, and the log of
    the [GetPortState] queries made through [sde_interface_], (unit, port)
    pairs, oldest first. *)
Record DataSt := mkDataSt {
  dmgr : @MgrSt W;
  port_state_queries : list (Z * Z) }.

(** [sde_interface_->GetPortState(unit, sdk_port_id)] *)
Definition sde_interface_GetPortState (unit port : Z)
  : M DataSt (StatusOr PortState) :=
  λ s, let w := mworld (dmgr s) in
       let r := sde_GetPortState unit port (sde w) in
       (inr r.1,
        mkDataSt (mkMgrSt (this (dmgr s)) (mkWorld r.2 (calls w)))
                 (port_state_queries s ++ [(unit, port)])).

(** A member function of the part above, called from [GetPortData]. *)
Definition call_member {A} (m : M (@MgrSt W) A) : M DataSt A :=
  λ s, let r := m (dmgr s) in (r.1, mkDataSt r.2 (port_state_queries s)).

Definition GetPortState (node_id port_id : Z) : M DataSt PortState :=
  mgr ← gets (λ s, this (dmgr s));
  (if negb (initialized_ mgr)
   then fail ERR_NOT_INITIALIZED "Not initialized!" else mret ()) ;;
  unit ← ASSIGN_OR_RETURN (mret (GetUnitFromNodeId mgr node_id));
  match node_id_to_port_id_to_port_state_ mgr !! node_id with
  | None => fail RET_CHECK_code "Node is not configured or not known."
  | Some port_id_to_port_state =>
      let port_state_ptr := port_id_to_port_state !! port_id in
      match port_state_ptr with
      | Some port_state =>
          if decide (port_state ≠ PORT_STATE_UNKNOWN)
          then mret port_state
          else
            (* If state is unknown, query the state *)
            sdk_port_id ← ASSIGN_OR_RETURN
                            (mret (GetSdkPortId mgr node_id port_id));
            ASSIGN_OR_RETURN (sde_interface_GetPortState unit sdk_port_id)
      | None =>
          sdk_port_id ← ASSIGN_OR_RETURN
                          (mret (GetSdkPortId mgr node_id port_id));
          ASSIGN_OR_RETURN (sde_interface_GetPortState unit sdk_port_id)
      end
  end.

Definition GetPortData (request : Request) : M DataSt DataResponse :=
  mgr ← gets (λ s, this (dmgr s));
  (if negb (initialized_ mgr)
   then fail ERR_NOT_INITIALIZED "Not initialized!" else mret ()) ;;
  match request with
  | ReqOperStatus node_id port_id =>
      port_state ← GetPortState node_id port_id;
      last_changed ← ASSIGN_OR_RETURN
                       (mret (GetPortTimeLastChanged mgr node_id port_id));
      (* [absl::ToUnixNanos]: a [Time] is its nanoseconds *)
      mret (RespOperStatus port_state last_changed)
  | ReqAdminStatus node_id port_id =>
      config ← ASSIGN_OR_RETURN (mret (GetPortConfig mgr node_id port_id));
      mret (RespAdminStatus (PortConfig.admin_state config))
  | ReqMacAddress _ _ =>
      mret (RespMacAddress kDummyMacAddress)
  | ReqPortSpeed node_id port_id =>
      config ← ASSIGN_OR_RETURN (mret (GetPortConfig mgr node_id port_id));
      match PortConfig.speed_bps config with
      | Some speed_bps => mret (RespPortSpeed speed_bps)
      | None => mret RespNotSet
      end
  | ReqNegotiatedPortSpeed node_id port_id =>
      config ← ASSIGN_OR_RETURN (mret (GetPortConfig mgr node_id port_id));
      match PortConfig.speed_bps config with
      | None => mret RespNotSet
      | Some speed_bps =>
          port_state ← GetPortState node_id port_id;
          if decide (port_state ≠ PORT_STATE_UP) then mret RespNotSet
          else mret (RespNegotiatedPortSpeed speed_bps)
      end
  | ReqLacpRouterMac _ _ =>
      mret (RespLacpRouterMac kDummyMacAddress)
  | ReqPortCounters node_id port_id =>
      counters ← call_member (GetPortCounters node_id port_id);
      mret (RespPortCounters counters)
  | ReqAutonegStatus node_id port_id =>
      config ← ASSIGN_OR_RETURN (mret (GetPortConfig mgr node_id port_id));
      match PortConfig.autoneg config with
      | Some autoneg => mret (RespAutonegStatus autoneg)
      | None => mret RespNotSet
      end
  | ReqFrontPanelPortInfo _ _ =>
      (* NOTE: return error? *)
      mret RespNotSet
  | ReqFecStatus node_id port_id =>
      config ← ASSIGN_OR_RETURN (mret (GetPortConfig mgr node_id port_id));
      match PortConfig.fec_mode config with
      | Some fec_mode => mret (RespFecStatus fec_mode)
      | None => mret RespNotSet
      end
  | ReqLoopbackStatus node_id port_id =>
      config ← ASSIGN_OR_RETURN (mret (GetPortConfig mgr node_id port_id));
      match PortConfig.loopback_mode config with
      | Some loopback_mode => mret (RespLoopbackStatus loopback_mode)
      | None => mret RespNotSet
      end
  | ReqSdnPortId node_id port_id =>
      sdk_port_id ← ASSIGN_OR_RETURN
                      (mret (GetSdkPortId mgr node_id port_id));
      mret (RespSdnPortId sdk_port_id)
  | ReqForwardingViability _ _ =>
      mret (RespForwardingViability TRUNK_MEMBER_BLOCK_STATE_UNKNOWN)
  | ReqHealthIndicator _ _ =>
      mret (RespHealthIndicator HEALTH_STATE_UNKNOWN)
  | ReqOther => fail ERR_INTERNAL "Not supported yet"
  end.

(** The requests that [GetPortData] answers from the members alone. *)
Definition cached_request (request : Request) : bool :=
  match request with
  | ReqOperStatus _ _ | ReqNegotiatedPortSpeed _ _ | ReqPortCounters _ _ =>
      false
  | _ => true
  end.

End PortData.

(** * The BMv2 binary: interfaces given on the command line

    [ParseInterfaces] of [stratum/hal/bin/bmv2/main.cc].  An argument is the
    text of a C string, without its terminator. *)

Module Bmv2.
Import Stdlib.Strings.Ascii.

(** [strchr(s, c)]: the offset of the first [c] in [s], if there is one. *)
Fixpoint strchr (c : ascii) (s : string) : option nat :=
  match s with
  | EmptyString => None
  | String a rest =>
      if Ascii.eqb a c then Some 0%nat else S <$> strchr c rest
  end.

(** [isspace] in the C locale: space, and the controls 9 to 13. *)
Definition isspace (c : ascii) : bool :=
  let n := nat_of_ascii c in
  (n =? 32)%nat || ((9 <=? n)%nat && (n <=? 13)%nat).

(** The value of a decimal digit. *)
Definition digit_of (c : ascii) : option Z :=
  let n := nat_of_ascii c in
  if ((48 <=? n)%nat && (n <=? 57)%nat) then Some (Z.of_nat n - 48)
  else None.

Fixpoint skip_spaces (s : string) : nat * string :=
  match s with
  | String a rest =>
      if isspace a
      then let r := skip_spaces rest in (S r.1, r.2)
      else (0%nat, s)
  | EmptyString => (0%nat, s)
  end.

(** The digits at the start of [s]: the number they denote after [acc], and
    how many they are. *)
Fixpoint digits (acc : Z) (s : string) : Z * nat :=
  match s with
  | String a rest =>
      match digit_of a with
      | Some d => let r := digits (10 * acc + d) rest in (r.1, S r.2)
      | None => (acc, 0%nat)
      end
  | EmptyString => (acc, 0%nat)
  end.

(** The optional sign: whether it is a minus, how many characters it takes,
    and the text after it. *)
Definition parse_sign (s : string) : bool * nat * string :=
  match s with
  | String "-" rest => (true, 1%nat, rest)
  | String "+" rest => (false, 1%nat, rest)
  | _ => (false, 0%nat, s)
  end.

(** [long] has 64 bits and [int] 32 on the platforms of the binary. *)
Definition LONG_MAX : Z := 2 ^ 63 - 1.
Definition LONG_MIN : Z := - 2 ^ 63.

(** The conversion of a [long] to [int], as the compilers of the project do
    it: the low 32 bits, in two's complement. *)
Definition to_int (v : Z) : Z := (v + 2 ^ 31) `mod` 2 ^ 32 - 2 ^ 31.

(** [strtol(s, &end, 10)] of the C library: white space, an optional sign,
    decimal digits.  The result is the value, [LONG_MAX] or [LONG_MIN] when
    it is out of range, and the offset of [end] in [s]; with no digit there
    is no conversion: the value is 0 and [end] is [s]. *)
Definition strtol (s : string) : Z * nat :=
  let spaces := skip_spaces s in
  let '(negative, sign, rest) := parse_sign spaces.2 in
  let number := digits 0 rest in
  if (number.2 =? 0)%nat then (0, 0%nat)
  else
    let value := if negative : bool then - number.1 else number.1 in
    (LONG_MIN `max` (value `min` LONG_MAX),
     (spaces.1 + sign + number.2)%nat).

(** The text from an offset on: a [char*] into the argument. *)
Fixpoint string_drop (n : nat) (s : string) : string :=
  match n, s with
  | O, _ => s
  | S n', String _ rest => string_drop n' rest
  | S _, EmptyString => EmptyString
  end.

(** The body of the loop of [ParseInterfaces]: [ifaces] is the list of the
    calls [parser.ifaces.add(intf_num, intf)] made so far. *)
Definition parse_interface (ifaces : list (Z * string)) (arg : string)
  : list (Z * string) :=
  match strchr "@" arg with
  | Some _ =>
      (* Found an interface *)
      let r := strtol arg in
      let intf_num := to_int r.1 in
      (* Point to the start of the interface name *)
      let intf := string_drop (r.2 + 1) arg in
      ifaces ++ [(intf_num, intf)]
  | None => ifaces   (* Ignoring extraneous non-option argument *)
  end.

(** [for (int i = 1; i < argc; i++)] *)
Definition ParseInterfaces (argv : list string) : list (Z * string) :=
  foldl parse_interface [] (tail argv).

(** The text of a number written in decimal digits. *)
Definition digit_char (d : Z) : ascii := ascii_of_nat (Z.to_nat (48 + d)).

Definition decimal (ds : list Z) : string :=
  foldr (λ d s, String (digit_char d) s) EmptyString ds.

Definition decimal_value (ds : list Z) : Z :=
  foldl (λ acc d, 10 * acc + d) 0 ds.

End Bmv2.

(** ** Sample backends for the queries *)

(** The scripted backend reports every port up. *)
Definition test_state_query : TdiSdeStateQuery TestSde := {|
  sde_GetPortState _ _ b := (inr 1, b) |}.

Definition test_data_constants : DataConstants := {|
  kDummyMacAddress := 18838586676582;
  PORT_STATE_UP := 1 |}.

(** A backend without a state of its own, on which every call succeeds and
    every port is valid. *)
Definition accepting_sde : TdiSdeInterface () := {|
  sde_AddPort _ _ _ _ b := (OkStatus, b);
  sde_AddPort_params _ _ _ _ _ b := (OkStatus, b);
  sde_DeletePort _ _ b := (OkStatus, b);
  sde_DisablePort _ _ b := (OkStatus, b);
  sde_EnablePort _ _ b := (OkStatus, b);
  sde_IsValidPort _ _ b := (true, b);
  sde_SetPortAutonegPolicy _ _ _ b := (OkStatus, b);
  sde_SetPortLoopbackMode _ _ _ b := (OkStatus, b);
  sde_SetPortMtu _ _ _ b := (OkStatus, b);
  sde_GetPortIdFromPortKey _ key b := (inr (pk_port key), b);
  sde_GetPortCounters _ _ b := (inr [], b) |}.

(** The manager after [two_ports] was pushed on that backend. *)
Definition accepted_two_ports : DpdkChassisManager :=
  this (@PushChassisConfig () accepting_sde test_constants two_ports
          (mkMgrSt new_manager (mkWorld () []))).2.

(** A port whose admin state is a number without a name, and whose MTU is
    unset; the configuration with that port alone. *)
Definition other_admin_port : SingletonPort.t :=
  test_port 1 10000000000 (test_params (ADMIN_STATE_OTHER 7) 0 0 1).

Definition other_admin : ChassisConfig.t := test_config [other_admin_port].

(** * Properties *)

(** ** Running a computation step by step *)

(** [mrun] unfolds the monad and the calls; the computation then stops at
    the first test or call whose outcome is not known. *)
Ltac mrun :=
  lazy beta iota zeta delta
      [mbind M_bind mret M_ret fail gets get modify set_config modify_this
       RETURN_IF_ERROR ASSIGN_OR_RETURN RET_CHECK status_value run_helper
       sde_call AddPort AddPort_params DeletePort
       DisablePort IsValidPort SetPortAutonegPolicy SetPortLoopbackMode
       GetPortIdFromPortKey sde_interface_GetPortCounters
       get_world set_world HelperSt_world MgrSt_world
       config world this mworld sde calls fst snd status_of ok negb andb orb
       PortConfig.set_admin_state PortConfig.set_speed_bps PortConfig.set_mtu
       PortConfig.set_autoneg PortConfig.set_fec_mode
       PortConfig.set_loopback_mode PortConfig.set_port_type
       PortConfig.set_pipeline_name PortConfig.set_mempool_name
       PortConfig.admin_state PortConfig.speed_bps PortConfig.mtu
       PortConfig.autoneg PortConfig.fec_mode PortConfig.loopback_mode
       PortConfig.port_type PortConfig.device_type PortConfig.packet_dir
       PortConfig.queues PortConfig.socket_path PortConfig.host_name
       PortConfig.pipeline_name PortConfig.mempool_name
       PortConfig.control_port PortConfig.pci_bdf
       SingletonPort.id SingletonPort.name SingletonPort.slot
       SingletonPort.port SingletonPort.channel SingletonPort.speed_bps
       SingletonPort.node SingletonPort.config_params
       ConfigParams.admin_state ConfigParams.mtu ConfigParams.autoneg
       ConfigParams.fec_mode ConfigParams.loopback_mode
       ConfigParams.port_type ConfigParams.pipeline_name].

(** The same in a hypothesis. *)
Ltac mrun_in H :=
  lazy beta iota zeta delta
      [mbind M_bind mret M_ret fail gets get modify set_config modify_this
       RETURN_IF_ERROR ASSIGN_OR_RETURN RET_CHECK status_value run_helper
       sde_call AddPort AddPort_params DeletePort
       DisablePort IsValidPort SetPortAutonegPolicy SetPortLoopbackMode
       GetPortIdFromPortKey sde_interface_GetPortCounters
       get_world set_world HelperSt_world MgrSt_world
       config world this mworld sde calls fst snd status_of ok negb andb orb
       PortConfig.set_admin_state PortConfig.set_speed_bps PortConfig.set_mtu
       PortConfig.set_autoneg PortConfig.set_fec_mode
       PortConfig.set_loopback_mode PortConfig.set_port_type
       PortConfig.set_pipeline_name PortConfig.set_mempool_name
       PortConfig.admin_state PortConfig.speed_bps PortConfig.mtu
       PortConfig.autoneg PortConfig.fec_mode PortConfig.loopback_mode
       PortConfig.port_type PortConfig.device_type PortConfig.packet_dir
       PortConfig.queues PortConfig.socket_path PortConfig.host_name
       PortConfig.pipeline_name PortConfig.mempool_name
       PortConfig.control_port PortConfig.pci_bdf
       SingletonPort.id SingletonPort.name SingletonPort.slot
       SingletonPort.port SingletonPort.channel SingletonPort.speed_bps
       SingletonPort.node SingletonPort.config_params
       ConfigParams.admin_state ConfigParams.mtu ConfigParams.autoneg
       ConfigParams.fec_mode ConfigParams.loopback_mode
       ConfigParams.port_type ConfigParams.pipeline_name] in H.

(** The same, with the members of the manager and the local maps of a
    push. *)
Ltac mrun_mgr :=
  mrun;
  cbn [initialized_ unit_to_node_id_ node_id_to_unit_
       node_id_to_port_id_to_port_state_
       node_id_to_port_id_to_time_last_changed_
       node_id_to_port_id_to_port_config_
       node_id_to_port_id_to_singleton_port_key_
       node_id_to_port_id_to_sdk_port_id_ node_id_to_sdk_port_id_to_port_id_
       set_node_id_to_unit_ set_node_id_to_port_id_to_port_state_
       set_node_id_to_port_id_to_time_last_changed_
       set_node_id_to_port_id_to_port_config_
       set_node_id_to_port_id_to_sdk_port_id_
       unit_to_node_id node_id_to_unit node_id_to_port_id_to_port_state
       node_id_to_port_id_to_time_last_changed
       node_id_to_port_id_to_port_config
       node_id_to_port_id_to_singleton_port_key
       node_id_to_port_id_to_sdk_port_id node_id_to_sdk_port_id_to_port_id
       set_node_id_to_unit set_node_id_to_port_id_to_port_config
       set_node_id_to_port_id_to_sdk_port_id
       this mworld fst snd];
  mrun.

(** The test or call at which a stopped computation waits. *)
Ltac head_of t :=
  lazymatch t with
  | match ?x with _ => _ end => head_of x
  | ?f _ =>
      lazymatch f with
      | match ?x with _ => _ end => head_of x
      | _ => t
      end
  | _ => t
  end.

Ltac mcase_on h :=
  lazymatch h with
  | (_, _) => fail "the computation has ended"
  | _ =>
      lazymatch goal with
      | H : h = _ |- _ => rewrite H
      | _ => destruct h eqn:?
      end
  end.

(** [mcase] splits on the outcome of that test or call. *)
Ltac mcase :=
  lazymatch goal with
  | |- ?lhs = _ → _ => let h := head_of lhs in mcase_on h
  | |- ?lhs = _ => let h := head_of lhs in mcase_on h
  end.

Ltac msteps :=
  repeat (mcase; mrun; try (discriminate || congruence || contradiction)).

(** [mstart prog] names the outcome of [prog], so that [mcase] can follow
    it; [mfinish] is for the ends of the computation. *)
Ltac mstart prog :=
  let r := fresh "r" in
  let H := fresh "Hrun" in
  remember prog as r eqn:H; symmetry in H; revert H.

Ltac mfinish := intros; simplify_eq; cbn [fst snd config world calls sde].

(** The tests left in a goal, settled from the hypotheses. *)
Ltac goal_decides :=
  repeat match goal with
    | |- context [decide ?P] =>
        destruct (decide P); try (congruence || contradiction)
    | |- context [bool_decide ?P] =>
        destruct (bool_decide_reflect P); try (congruence || contradiction)
    end.

(** The calls appended to a log. *)
Ltac solve_calls :=
  rewrite <- ?app_assoc; simpl;
  first [ by (exists []; rewrite ?app_nil_r; split; [|constructor])
        | eexists; split; [reflexivity|]; repeat constructor ].


Section Properties.
Context {W : Type} `{!TdiSdeInterface W} `{!Constants}.

(** *** AddPortHelper *)

(** C9: whenever [AddPortHelper] returns success, the [PortConfig] it
    leaves holds a speed, a FEC mode and an MTU, and its admin state is
    enabled if the desired one was enabled and disabled otherwise; it is
    never unknown. *)
Theorem C9_AddPortHelper_success_config
        (node_id unit sdk_port_id : Z) (singleton_port : SingletonPort.t)
        (s s' : HelperSt) :
  AddPortHelper node_id unit sdk_port_id singleton_port s = (inr (), s') →
  let config_params := SingletonPort.config_params singleton_port in
  PortConfig.speed_bps (config s')
    = Some (SingletonPort.speed_bps singleton_port)
  ∧ PortConfig.fec_mode (config s')
    = Some (ConfigParams.fec_mode config_params)
  ∧ is_Some (PortConfig.mtu (config s'))
  ∧ PortConfig.admin_state (config s')
    = (if decide (ConfigParams.admin_state config_params
                  = ADMIN_STATE_ENABLED)
       then ADMIN_STATE_ENABLED else ADMIN_STATE_DISABLED)
  ∧ PortConfig.admin_state (config s') ≠ ADMIN_STATE_UNKNOWN.
Proof.
  destruct s as [[] [b0 l0]]. unfold AddPortHelper. mrun. msteps.
  all: intros; simplify_eq; simpl; repeat split; eauto; try done.
  all: by case_decide.
Qed.

(** [AddPortHelper] only adds ports and sets autoneg and loopback: the calls
    it appends to the log are quiet. *)
Lemma AddPortHelper_calls (node_id unit sdk_port_id : Z)
      (singleton_port : SingletonPort.t) (s : HelperSt) :
  ∃ l, calls (world (AddPortHelper node_id unit sdk_port_id
                                   singleton_port s).2)
       = calls (world s) ++ l
       ∧ Forall quiet_call l.
Proof.
  destruct s as [[] [b0 l0]].
  mstart (AddPortHelper node_id unit sdk_port_id singleton_port
            {| config := {|
                 PortConfig.admin_state := admin_state;
                 PortConfig.speed_bps := speed_bps;
                 PortConfig.mtu := mtu;
                 PortConfig.autoneg := autoneg;
                 PortConfig.fec_mode := fec_mode;
                 PortConfig.loopback_mode := loopback_mode;
                 PortConfig.port_type := port_type;
                 PortConfig.device_type := device_type;
                 PortConfig.packet_dir := packet_dir;
                 PortConfig.queues := queues;
                 PortConfig.socket_path := socket_path;
                 PortConfig.host_name := host_name;
                 PortConfig.pipeline_name := pipeline_name;
                 PortConfig.mempool_name := mempool_name;
                 PortConfig.control_port := control_port;
                 PortConfig.pci_bdf := pci_bdf |};
               world := {| sde := b0; calls := l0 |} |}).
  unfold AddPortHelper. mrun. msteps.
  all: mfinish; solve_calls.
Qed.

Lemma count_calls_app (f : SdeCall → bool) (l1 l2 : list SdeCall) :
  count_calls f (l1 ++ l2) = (count_calls f l1 + count_calls f l2)%nat.
Proof. unfold count_calls. by rewrite filter_app, length_app. Qed.

Lemma count_calls_app_none (f : SdeCall → bool) (l1 l2 : list SdeCall) :
  count_calls f l2 = 0%nat → count_calls f (l1 ++ l2) = count_calls f l1.
Proof. intros H0. rewrite count_calls_app, H0. lia. Qed.

Lemma quiet_calls_count (l : list SdeCall) :
  Forall quiet_call l →
  count_calls is_DisablePort l = 0%nat
  ∧ count_calls is_DeletePort l = 0%nat
  ∧ count_calls is_EnablePort l = 0%nat.
Proof.
  induction 1 as [|c l (Hd & Hx & He) _ (IH1 & IH2 & IH3)]; [done|].
  unfold count_calls in *. rewrite !filter_cons.
  repeat case_decide; simpl; try congruence. auto.
Qed.

(** *** UpdatePortHelper *)

(** C6, amended: for a port that the backend reports valid, a desired
    configuration with the cached speed and another FEC mode makes
    [UpdatePortHelper] return an unimplemented error; the [PortConfig] it
    leaves is the cached one, and the one call it issues is the
    [IsValidPort] query. *)
Theorem C6_fec_change_unimplemented
        (node_id unit sdk_port_id : Z) (singleton_port : SingletonPort.t)
        (config_old : PortConfig.t) (s : HelperSt) (b : W) :
  sde_IsValidPort unit sdk_port_id (sde (world s)) = (true, b) →
  PortConfig.speed_bps config_old
    = Some (SingletonPort.speed_bps singleton_port) →
  PortConfig.fec_mode config_old
    ≠ Some (ConfigParams.fec_mode
              (SingletonPort.config_params singleton_port)) →
  ∃ msg,
    UpdatePortHelper node_id unit sdk_port_id singleton_port config_old s
    = (inl (MAKE_ERROR ERR_UNIMPLEMENTED msg),
       mkHelperSt config_old
                  (mkWorld b (calls (world s)
                              ++ [CallIsValidPort unit sdk_port_id]))).
Proof.
  intros Hvalid Hspeed Hfec.
  destruct s as [c [b0 l0]], config_old,
           singleton_port as [? ? ? ? ? ? ? []];
    simpl in *.
  subst. unfold UpdatePortHelper. mrun. rewrite Hvalid. mrun.
  destruct (decide _) as [?|_]; [done|]. mrun.
  destruct (decide _) as [_|Hn]; [|destruct Hn; congruence]. mrun.
  by eexists.
Qed.


(** The [SingletonPort] of the rollback carries the old speed, admin state,
    autoneg, MTU and FEC mode. *)
Lemma port_old_of_fields (singleton_port : SingletonPort.t)
      (config_old : PortConfig.t) :
  let port_old := port_old_of singleton_port config_old in
  let params := SingletonPort.config_params port_old in
  (∀ v, PortConfig.speed_bps config_old = Some v →
        SingletonPort.speed_bps port_old = v)
  ∧ ConfigParams.admin_state params = PortConfig.admin_state config_old
  ∧ (∀ v, PortConfig.autoneg config_old = Some v →
          ConfigParams.autoneg params = v)
  ∧ (∀ v, PortConfig.mtu config_old = Some v → ConfigParams.mtu params = v)
  ∧ (∀ v, PortConfig.fec_mode config_old = Some v →
          ConfigParams.fec_mode params = v).
Proof.
  destruct config_old as [a sp m an f lb ? ? ? ? ? ? ? ? ? ?].
  unfold port_old_of; simpl.
  destruct sp, m, an, f; simpl; repeat split; intros; by simplify_eq.
Qed.

(** C4, amended: when the backend reports the port valid and accepts the
    [DisablePort] and [DeletePort] calls, an update whose speed differs from
    the cached one issues exactly one [DisablePort], one [DeletePort], and
    then runs [AddPortHelper] with the new specification.  If that fails,
    [AddPortHelper] is run again on a [SingletonPort] rebuilt from the old
    configuration, and the caller gets an error whatever the second run
    returns. *)
Theorem C4_speed_change_recreates
        (node_id unit sdk_port_id : Z) (singleton_port : SingletonPort.t)
        (config_old : PortConfig.t) (s : HelperSt) (b1 b2 b3 : W) :
  Some (SingletonPort.speed_bps singleton_port)
  ≠ PortConfig.speed_bps config_old →
  sde_IsValidPort unit sdk_port_id (sde (world s)) = (true, b1) →
  sde_DisablePort unit sdk_port_id b1 = (OkStatus, b2) →
  sde_DeletePort unit sdk_port_id b2 = (OkStatus, b3) →
  let before_create :=
    mkHelperSt config_old
      (mkWorld b3 (calls (world s)
                   ++ [CallIsValidPort unit sdk_port_id;
                       CallDisablePort unit sdk_port_id;
                       CallDeletePort unit sdk_port_id])) in
  let create :=
    AddPortHelper node_id unit sdk_port_id singleton_port before_create in
  let port_old := port_old_of singleton_port config_old in
  let rollback :=
    AddPortHelper node_id unit sdk_port_id port_old create.2 in
  let r := UpdatePortHelper node_id unit sdk_port_id singleton_port
                            config_old s in
  match create.1 with
  | inr _ => r = (inr (), create.2)
  | inl _ =>
      ∃ msg, r = (inl (MAKE_ERROR ERR_INVALID_PARAM msg), rollback.2)
  end
  ∧ count_calls is_DisablePort (calls (world r.2))
    = S (count_calls is_DisablePort (calls (world s)))
  ∧ count_calls is_DeletePort (calls (world r.2))
    = S (count_calls is_DeletePort (calls (world s)))
  ∧ (∀ v, PortConfig.speed_bps config_old = Some v →
          SingletonPort.speed_bps port_old = v)
  ∧ ConfigParams.admin_state (SingletonPort.config_params port_old)
    = PortConfig.admin_state config_old
  ∧ (∀ v, PortConfig.autoneg config_old = Some v →
          ConfigParams.autoneg (SingletonPort.config_params port_old) = v)
  ∧ (∀ v, PortConfig.mtu config_old = Some v →
          ConfigParams.mtu (SingletonPort.config_params port_old) = v)
  ∧ (∀ v, PortConfig.fec_mode config_old = Some v →
          ConfigParams.fec_mode (SingletonPort.config_params port_old) = v).
Proof.
  intros Hspeed Hvalid Hdisable Hdelete before_create create port_old
         rollback r.
  cut (match create.1 with
       | inr _ => r = (inr (), create.2)
       | inl _ =>
           ∃ msg, r = (inl (MAKE_ERROR ERR_INVALID_PARAM msg), rollback.2)
       end
       ∧ count_calls is_DisablePort (calls (world r.2))
         = S (count_calls is_DisablePort (calls (world s)))
       ∧ count_calls is_DeletePort (calls (world r.2))
         = S (count_calls is_DeletePort (calls (world s)))).
  { intros (H1 & H2 & H3).
    pose proof (port_old_of_fields singleton_port config_old) as Hold.
    simpl in Hold. fold port_old in Hold. tauto. }
  assert (Hr : match create.1 with
               | inr _ => r = (inr (), create.2)
               | inl _ =>
                   ∃ msg,
                     r = (inl (MAKE_ERROR ERR_INVALID_PARAM msg), rollback.2)
               end).
  { subst r rollback port_old create before_create.
    destruct s as [c [b0 l0]], config_old,
             singleton_port as [? ? ? ? ? ? ? []]; simpl in *.
    unfold UpdatePortHelper. mrun. rewrite Hvalid. mrun.
    destruct (decide _) as [_|Hn]; [|by destruct Hn]. mrun.
    rewrite Hdisable. mrun. rewrite Hdelete. mrun.
    rewrite <- !app_assoc. simpl.
    match goal with
    | |- match (let (x, _) := ?create in x) with _ => _ end =>
        destruct create as [[e|[]] s2]
    end; mrun; [|done].
    destruct (AddPortHelper _ _ _ _ _) as [[e'|[]] s3]; mrun; by eexists. }
  split; [exact Hr|].
  destruct (AddPortHelper_calls node_id unit sdk_port_id singleton_port
              before_create) as (l1 & Hl1 & Hq1).
  destruct (AddPortHelper_calls node_id unit sdk_port_id port_old create.2)
    as (l2 & Hl2 & Hq2).
  fold create in Hl1. fold rollback in Hl2.
  destruct (quiet_calls_count l1 Hq1) as (Hd1 & Hx1 & _).
  destruct (quiet_calls_count l2 Hq2) as (Hd2 & Hx2 & _).
  assert (Hcalls : calls (world r.2)
                   = calls (world before_create) ++ l1
                   ∨ calls (world r.2)
                     = (calls (world before_create) ++ l1) ++ l2).
  { destruct create.1; [destruct Hr as [msg ->]; right|rewrite Hr; left];
      simpl; [rewrite Hl2, Hl1|rewrite Hl1]; done. }
  subst before_create; simpl in Hcalls.
  destruct Hcalls as [-> | ->];
    rewrite !count_calls_app, ?Hd1, ?Hd2, ?Hx1, ?Hx2;
    split; unfold count_calls; simpl; lia.
Qed.

(** *** The maps *)

Lemma lookup2_map_assign2 {V} (n p n' p' : Z) (v : V) (m : gmap Z (gmap Z V)) :
  lookup2 n' p' (map_assign2 n p v m)
  = if decide (n' = n ∧ p' = p) then Some v else lookup2 n' p' m.
Proof.
  unfold lookup2, map_assign2.
  destruct (decide (n' = n)) as [->|Hn].
  - rewrite lookup_insert_eq.
    destruct (decide (p' = p)) as [->|Hp].
    + rewrite lookup_insert_eq. by rewrite decide_True.
    + rewrite lookup_insert_ne by done.
      rewrite decide_False by tauto.
      by destruct (m !! n).
  - rewrite lookup_insert_ne by done. by rewrite decide_False by tauto.
Qed.

Lemma map_index_present {V} (d v : V) (k : Z) (m : gmap Z V) :
  m !! k = Some v → map_index d k m = (v, m).
Proof. intros H0. unfold map_index. by rewrite H0. Qed.

Lemma map_index2_present {V} (d v : V) (n p : Z) (m : gmap Z (gmap Z V)) :
  lookup2 n p m = Some v → map_index2 d n p m = (v, m).
Proof.
  unfold lookup2, map_index2. intros H0.
  destruct (m !! n) as [inner|] eqn:Hn; [|done].
  rewrite (map_index_present ∅ inner n m Hn). simpl.
  rewrite (map_index_present d v p inner H0). simpl.
  by rewrite insert_id.
Qed.

Lemma sorted_items_perm {V} (m : gmap Z V) : sorted_items m ≡ₚ map_to_list m.
Proof. apply merge_sort_Permutation. Qed.

Lemma elem_of_sorted_items {V} (m : gmap Z V) (k : Z) (v : V) :
  (k, v) ∈ sorted_items m ↔ m !! k = Some v.
Proof. by rewrite sorted_items_perm, elem_of_map_to_list. Qed.

Lemma NoDup_sorted_items {V} (m : gmap Z V) : NoDup (sorted_items m).*1.
Proof. rewrite sorted_items_perm. apply NoDup_fst_map_to_list. Qed.

(** *** ReplayPortsConfig *)

(** The status that accumulates is OK exactly when every status is. *)
Lemma APPEND_STATUS_IF_ERROR_keeps_error (e : Error) (l : list Status) :
  ∃ e', foldl APPEND_STATUS_IF_ERROR (ErrStatus e) l = ErrStatus e'
        ∧ error_code e' = error_code e.
Proof.
  revert e. induction l as [|st l IH]; intros e; simpl; [by eexists|].
  destruct st as [|e1]; simpl; [apply IH|].
  destruct (IH (MAKE_ERROR (error_code e)
                           (error_message e ++ " " ++ error_message e1)))
    as (e' & -> & Hc).
  by eexists.
Qed.

Lemma aggregate_ok (l : list Status) :
  aggregate l = OkStatus ↔ Forall (λ st, st = OkStatus) l.
Proof.
  unfold aggregate. induction l as [|st l IH]; simpl; [by split|].
  destruct st as [|e]; simpl.
  - rewrite IH. split; [by constructor|by inversion 1].
  - destruct (APPEND_STATUS_IF_ERROR_keeps_error e l) as (e' & -> & _).
    split; [done|by inversion 1].
Qed.

(** [replay_one_port] reads the manager through [GetSdkPortId] alone. *)
Lemma replay_one_port_ext (mgr mgr' : DpdkChassisManager)
      (node_id unit port_id : Z) (c : PortConfig.t) :
  GetSdkPortId mgr node_id port_id = GetSdkPortId mgr' node_id port_id →
  replay_one_port mgr node_id unit port_id c
  = replay_one_port mgr' node_id unit port_id c.
Proof. intros Heq. unfold replay_one_port. by rewrite Heq. Qed.

(** The [PortConfig] and the status a replay leaves, by whether the port was
    added. *)
Lemma replay_one_port_config (mgr : DpdkChassisManager)
      (node_id unit port_id : Z) (old : PortConfig.t) (w : World) :
  let r := replay_one_port mgr node_id unit port_id old
                           (mkHelperSt PortConfig_default w) in
  if port_added mgr node_id unit port_id old w
  then PortConfig.admin_state (config r.2)
       = (if ok (status_of r.1)
             && bool_decide (PortConfig.admin_state old = ADMIN_STATE_ENABLED)
          then ADMIN_STATE_ENABLED else ADMIN_STATE_DISABLED)
       ∧ PortConfig.speed_bps (config r.2) = PortConfig.speed_bps old
       ∧ PortConfig.fec_mode (config r.2) = PortConfig.fec_mode old
  else config r.2 = PortConfig_default
       ∧ (PortConfig.admin_state old = ADMIN_STATE_UNKNOWN →
          r = (inr (), mkHelperSt PortConfig_default w))
       ∧ (PortConfig.admin_state old ≠ ADMIN_STATE_UNKNOWN →
          ∃ e, r.1 = inl e
               ∧ (PortConfig.speed_bps old = None
                  ∨ PortConfig.fec_mode old = None →
                  error_code e = ERR_INTERNAL ∧ world r.2 = w)).
Proof.
  unfold port_added.
  destruct old as [a sp m an f lb ? ? ? ? ? ? ? ? ? ?], w as [b0 l0].
  cbn [PortConfig.admin_state PortConfig.speed_bps PortConfig.fec_mode sde].
  match goal with
  | |- context [replay_one_port ?a ?b ?c ?d ?e ?f] =>
      mstart (replay_one_port a b c d e f)
  end.
  unfold replay_one_port, PortConfig_default. mrun. msteps.
  all: mfinish; cbn [ok status_of andb]; goal_decides.
  all: repeat split; try done; try (by intros [|]).
  all: try (intros _; eexists; split; [done|]; by intros [|]).
Qed.

Lemma map_index_eq {V} (d : V) (k : Z) (m : gmap Z V) :
  map_index d k m = (default d (m !! k), <[k := default d (m !! k)]> m).
Proof.
  unfold map_index. destruct (m !! k) eqn:Hk; simpl; [|done].
  by rewrite insert_id.
Qed.

Lemma GetSdkPortId_ext (mgr mgr' : DpdkChassisManager) (node_id port_id : Z) :
  initialized_ mgr = initialized_ mgr' →
  node_id_to_port_id_to_sdk_port_id_ mgr
  = node_id_to_port_id_to_sdk_port_id_ mgr' →
  GetSdkPortId mgr node_id port_id = GetSdkPortId mgr' node_id port_id.
Proof. intros Hi Hs. unfold GetSdkPortId. by rewrite Hi, Hs. Qed.

Lemma bind_run {S A B} (m : M S A) (k : A → M S B) (s : S) :
  (m ≫= k) s
  = match m s with
    | (inl e, s') => (inl e, s')
    | (inr a, s') => k a s'
    end.
Proof. reflexivity. Qed.

Lemma apply_outcomes_cons (node_id : Z) (o : @ReplayOutcome W)
      (os : list ReplayOutcome) (m : gmap Z (gmap Z PortConfig.t)) :
  apply_outcomes node_id (o :: os) m
  = apply_outcomes node_id os
      (map_assign2 node_id (ro_port_id o) (ro_config o) m).
Proof. reflexivity. Qed.

Lemma replay_port_run (node_id unit : Z) (status : Status)
      (p : Z * PortConfig.t) (mgr : DpdkChassisManager) (w : World) :
  replay_port node_id unit status p (mkMgrSt mgr w)
  = let r := replay_one_port mgr node_id unit p.1 p.2
                             (mkHelperSt PortConfig_default w) in
    (inr (APPEND_STATUS_IF_ERROR status (status_of r.1)),
     mkMgrSt (set_node_id_to_port_id_to_port_config_
                (map_assign2 node_id p.1 (config r.2)
                             (node_id_to_port_id_to_port_config_ mgr)) mgr)
             (world r.2)).
Proof. reflexivity. Qed.

(** The port loop of [ReplayPortsConfig] never leaves early: it runs
    [replay_one_port] on every port, accumulates the statuses, and assigns
    every entry. *)
Lemma replay_loop (node_id unit : Z) (mgr0 : DpdkChassisManager)
      (ports : list (Z * PortConfig.t)) :
  ∀ (mgr : DpdkChassisManager) (status : Status) (w : World),
    initialized_ mgr = initialized_ mgr0 →
    node_id_to_port_id_to_sdk_port_id_ mgr
    = node_id_to_port_id_to_sdk_port_id_ mgr0 →
    foldM (replay_port node_id unit) status ports (mkMgrSt mgr w)
    = let os := replay_outcomes mgr0 node_id unit ports w in
      (inr (foldl APPEND_STATUS_IF_ERROR status (ro_status <$> os.1)),
       mkMgrSt (set_node_id_to_port_id_to_port_config_
                  (apply_outcomes node_id os.1
                     (node_id_to_port_id_to_port_config_ mgr)) mgr)
               os.2).
Proof.
  induction ports as [|[port_id old] ports IH]; intros mgr status w Hi Hs.
  - simpl. mrun. by destruct mgr.
  - cbn [foldM replay_outcomes]. rewrite bind_run, replay_port_run.
    cbn [fst snd].
    rewrite (replay_one_port_ext mgr mgr0)
      by (by apply GetSdkPortId_ext).
    destruct (replay_one_port mgr0 node_id unit port_id old _)
      as [res hs] eqn:Hone.
    cbn [fst snd]. rewrite IH by (by destruct mgr).
    cbn [fst snd fmap list_fmap foldl ro_status].
    rewrite apply_outcomes_cons. destruct mgr; reflexivity.
Qed.

Lemma replay_outcomes_ports (mgr : DpdkChassisManager) (node_id unit : Z)
      (ports : list (Z * PortConfig.t)) (w : World) :
  (λ o, (ro_port_id o, ro_old o))
    <$> (replay_outcomes mgr node_id unit ports w).1 = ports.
Proof.
  revert w. induction ports as [|[port_id old] ports IH]; intros w; [done|].
  cbn [replay_outcomes fst snd fmap list_fmap ro_port_id ro_old].
  f_equal. apply IH.
Qed.

Lemma replay_outcomes_each (mgr : DpdkChassisManager) (node_id unit : Z)
      (ports : list (Z * PortConfig.t)) (w : World) :
  Forall (λ o,
            let a := replay_one_port mgr node_id unit (ro_port_id o)
                       (ro_old o)
                       (mkHelperSt PortConfig_default (ro_before o)) in
            ro_status o = status_of a.1 ∧ ro_config o = config a.2)
         (replay_outcomes mgr node_id unit ports w).1.
Proof.
  revert w. induction ports as [|[port_id old] ports IH]; intros w;
    [constructor|].
  cbn [replay_outcomes fst snd]. constructor; [done|apply IH].
Qed.

Lemma apply_outcomes_lookup_other (node_id n p : Z)
      (os : list (@ReplayOutcome W)) (m : gmap Z (gmap Z PortConfig.t)) :
  n ≠ node_id ∨ p ∉ ro_port_id <$> os →
  lookup2 n p (apply_outcomes node_id os m) = lookup2 n p m.
Proof.
  revert m. induction os as [|o os IH]; intros m Hother; [done|].
  rewrite apply_outcomes_cons, IH.
  - rewrite lookup2_map_assign2. rewrite decide_False; [done|].
    intros [-> ->]. destruct Hother as [?|Hp]; [done|].
    apply Hp. simpl. left.
  - destruct Hother as [?|Hp]; [by left|right].
    intros Hin. apply Hp. simpl. by right.
Qed.

Lemma apply_outcomes_lookup (node_id : Z) (os : list (@ReplayOutcome W))
      (m : gmap Z (gmap Z PortConfig.t)) (o : ReplayOutcome) :
  NoDup (ro_port_id <$> os) → o ∈ os →
  lookup2 node_id (ro_port_id o) (apply_outcomes node_id os m)
  = Some (ro_config o).
Proof.
  revert m. induction os as [|o1 os IH]; intros m Hnd Hin;
    [by apply elem_of_nil in Hin|].
  simpl in Hnd. apply NoDup_cons in Hnd as [Hfresh Hnd].
  rewrite apply_outcomes_cons.
  apply elem_of_cons in Hin as [->|Hin].
  - rewrite apply_outcomes_lookup_other by (by right).
    rewrite lookup2_map_assign2. by rewrite decide_True.
  - by apply IH.
Qed.

(** [ReplayPortsConfig] on an initialized manager and a node it knows. *)
Lemma ReplayPortsConfig_run (mgr : DpdkChassisManager) (w : World)
      (node_id unit : Z) :
  initialized_ mgr = true →
  node_id_to_unit_ mgr !! node_id = Some unit →
  let cached :=
    default ∅ (node_id_to_port_id_to_port_config_ mgr !! node_id) in
  let os := replay_outcomes mgr node_id unit (sorted_items cached) w in
  let r := ReplayPortsConfig node_id (mkMgrSt mgr w) in
  status_of r.1 = aggregate (ro_status <$> os.1)
  ∧ mworld r.2 = os.2
  ∧ node_id_to_port_id_to_port_config_ (this r.2)
    = apply_outcomes node_id os.1
        (<[node_id := cached]> (node_id_to_port_id_to_port_config_ mgr))
  ∧ initialized_ (this r.2) = true
  ∧ node_id_to_unit_ (this r.2) = node_id_to_unit_ mgr
  ∧ node_id_to_port_id_to_sdk_port_id_ (this r.2)
    = node_id_to_port_id_to_sdk_port_id_ mgr
  ∧ node_id_to_port_id_to_singleton_port_key_ (this r.2)
    = node_id_to_port_id_to_singleton_port_key_ mgr.
Proof.
  intros Hinit Hunit cached os r. subst r os cached.
  destruct mgr as [init u2n n2u st tm cf ky sdk rev]; simpl in *. subst init.
  unfold ReplayPortsConfig, GetUnitFromNodeId. mrun_mgr.
  rewrite Hunit. mrun_mgr. rewrite !map_index_eq. cbn [fst snd].
  match goal with
  | |- context [foldM _ _ _ (mkMgrSt ?m _)] =>
      rewrite (replay_loop node_id unit
                 (mkManager true u2n n2u st tm cf ky sdk rev) _ m)
        by reflexivity
  end.
  cbn [fst snd this mworld]. unfold aggregate.
  destruct (foldl _ _ _); cbn; by repeat split.
Qed.



Lemma replay_outcomes_cached (mgr : DpdkChassisManager) (node_id unit : Z)
      (cached : gmap Z PortConfig.t) (w : World) (port_id : Z)
      (old : PortConfig.t) :
  cached !! port_id = Some old
  ↔ ∃ o, o ∈ (replay_outcomes mgr node_id unit (sorted_items cached) w).1
         ∧ ro_port_id o = port_id ∧ ro_old o = old.
Proof.
  rewrite <- elem_of_sorted_items.
  rewrite <- (replay_outcomes_ports mgr node_id unit (sorted_items cached) w)
    at 1.
  rewrite list_elem_of_fmap. split.
  - intros (o & Heq & Hin). exists o. by simplify_eq.
  - intros (o & Hin & <- & <-). by exists o.
Qed.

Lemma replay_outcomes_NoDup (mgr : DpdkChassisManager) (node_id unit : Z)
      (cached : gmap Z PortConfig.t) (w : World) :
  NoDup (ro_port_id
           <$> (replay_outcomes mgr node_id unit (sorted_items cached) w).1).
Proof.
  pose proof (NoDup_sorted_items cached) as Hnd.
  rewrite <- (replay_outcomes_ports mgr node_id unit (sorted_items cached) w)
    in Hnd.
  by rewrite <- list_fmap_compose in Hnd.
Qed.


(** *** PushChassisConfig, port by port *)

(** A port whose cached admin state is unknown is handled as broken by the
    third loop: asked whether valid, deleted if so (whatever the deletion
    returns), and added again on the fresh [PortConfig] of the new maps. *)
Lemma push_apply_port_broken (g : NewMaps) (singleton_port : SingletonPort.t)
      (mgr : DpdkChassisManager) (w : World) (unit sdk_port_id : Z)
      (config_old : PortConfig.t) :
  let node_id := SingletonPort.node singleton_port in
  let port_id := SingletonPort.id singleton_port in
  lookup2 node_id port_id (node_id_to_port_id_to_port_config_ mgr)
  = Some config_old →
  PortConfig.admin_state config_old = ADMIN_STATE_UNKNOWN →
  node_id_to_unit g !! node_id = Some unit →
  lookup2 node_id port_id (node_id_to_port_id_to_sdk_port_id g)
  = Some sdk_port_id →
  push_apply_port g singleton_port (mkMgrSt mgr w)
  = let valid := sde_IsValidPort unit sdk_port_id (sde w) in
    let w1 := mkWorld valid.2
                      (calls w ++ [CallIsValidPort unit sdk_port_id]) in
    let w2 :=
      if valid.1
      then mkWorld (sde_DeletePort unit sdk_port_id valid.2).2
                   (calls w1 ++ [CallDeletePort unit sdk_port_id])
      else w1 in
    on_new_config node_id port_id g
      (AddPortHelper node_id unit sdk_port_id singleton_port)
      (mkMgrSt mgr w2).
Proof.
  intros node_id port_id Hold Hadmin Hunit Hsdk. subst node_id port_id.
  unfold push_apply_port.
  rewrite (map_index_present 0 unit _ _ Hunit).
  destruct g as [g1 g2 g3 g4 g5 g6 g7 g8], w as [b0 l0].
  cbn [fst snd set_node_id_to_unit node_id_to_port_id_to_sdk_port_id
       node_id_to_unit unit_to_node_id node_id_to_port_id_to_port_state
       node_id_to_port_id_to_time_last_changed
       node_id_to_port_id_to_port_config
       node_id_to_port_id_to_singleton_port_key
       node_id_to_sdk_port_id_to_port_id] in *.
  rewrite (map_index2_present 0 sdk_port_id _ _ _ Hsdk).
  cbn [fst snd set_node_id_to_port_id_to_sdk_port_id
       node_id_to_port_id_to_sdk_port_id
       node_id_to_unit unit_to_node_id node_id_to_port_id_to_port_state
       node_id_to_port_id_to_time_last_changed
       node_id_to_port_id_to_port_config
       node_id_to_port_id_to_singleton_port_key
       node_id_to_sdk_port_id_to_port_id].
  rewrite bind_run. cbn [gets this]. rewrite Hold.
  rewrite decide_True by done.
  rewrite bind_run. unfold IsValidPort at 1, sde_call at 1.
  cbn [get_world set_world MgrSt_world mworld sde calls fst snd this].
  destruct (sde_IsValidPort unit sdk_port_id b0) as [[|] b1];
    cbn [fst snd]; rewrite bind_run.
  - rewrite bind_run. unfold DeletePort at 1, sde_call at 1.
    cbn [get_world set_world MgrSt_world mworld sde calls fst snd this].
    reflexivity.
  - reflexivity.
Qed.

(** A replay keeps the set of cached ports. *)
Lemma ReplayPortsConfig_ports (mgr : DpdkChassisManager) (w : World)
      (node_id unit : Z) :
  initialized_ mgr = true →
  node_id_to_unit_ mgr !! node_id = Some unit →
  let r := ReplayPortsConfig node_id (mkMgrSt mgr w) in
  ∀ n p,
    is_Some (lookup2 n p (node_id_to_port_id_to_port_config_ (this r.2)))
    ↔ is_Some (lookup2 n p (node_id_to_port_id_to_port_config_ mgr)).
Proof.
  intros Hinit Hunit r n p.
  pose proof (ReplayPortsConfig_run mgr w node_id unit Hinit Hunit)
    as (_ & _ & Hconfigs & _).
  fold r in Hconfigs. rewrite Hconfigs.
  set (cached := default ∅ (node_id_to_port_id_to_port_config_ mgr
                            !! node_id)).
  set (outcomes := (replay_outcomes mgr node_id unit
                      (sorted_items cached) w).1).
  assert (Hcached : ∀ q, lookup2 node_id q
                           (<[node_id := cached]>
                              (node_id_to_port_id_to_port_config_ mgr))
                         = lookup2 node_id q
                             (node_id_to_port_id_to_port_config_ mgr)).
  { intros q. unfold lookup2, cached. rewrite lookup_insert_eq.
    destruct (node_id_to_port_id_to_port_config_ mgr !! node_id); simpl;
      [done|apply lookup_empty]. }
  destruct (decide (n = node_id)) as [->|Hn].
  - destruct (decide (p ∈ ro_port_id <$> outcomes)) as [Hin|Hout].
    + apply list_elem_of_fmap in Hin as (o & -> & Hin).
      rewrite (apply_outcomes_lookup node_id outcomes _ o)
        by (done || apply replay_outcomes_NoDup).
      assert (Hold : cached !! ro_port_id o = Some (ro_old o))
        by (apply (replay_outcomes_cached mgr node_id unit cached w);
            by exists o).
      rewrite <- Hcached. unfold lookup2. rewrite lookup_insert_eq.
      rewrite Hold. split; by eexists.
    + rewrite apply_outcomes_lookup_other by (by right). by rewrite Hcached.
  - rewrite apply_outcomes_lookup_other by (by left).
    unfold lookup2. by rewrite lookup_insert_ne.
Qed.

(** C10, amended: [ReplayPortsConfig] overwrites the cached [PortConfig] of
    every port of the node with the one its replay left.  For a port whose
    replay was skipped (cached admin state unknown) or failed before the
    backend accepted its [AddPort] call, that is a default-constructed
    [PortConfig], admin state unknown, and the third loop of the next push
    deletes the port and adds it again.  For a port that was added, the
    admin state left is enabled when the replay succeeded on an enabled port
    and disabled otherwise, also when a later setter failed. *)
Theorem C10_replay_overwrites_cache (mgr : DpdkChassisManager) (w : World)
        (node_id unit : Z) :
  initialized_ mgr = true →
  node_id_to_unit_ mgr !! node_id = Some unit →
  let cached :=
    default ∅ (node_id_to_port_id_to_port_config_ mgr !! node_id) in
  let outcomes :=
    (replay_outcomes mgr node_id unit (sorted_items cached) w).1 in
  let r := ReplayPortsConfig node_id (mkMgrSt mgr w) in
  let configs := node_id_to_port_id_to_port_config_ (this r.2) in
  (∀ o, o ∈ outcomes →
        lookup2 node_id (ro_port_id o) configs = Some (ro_config o))
  ∧ (∀ port_id, is_Some (lookup2 node_id port_id configs)
                ↔ is_Some (cached !! port_id))
  ∧ Forall (λ o,
      if port_added mgr node_id unit (ro_port_id o) (ro_old o) (ro_before o)
      then PortConfig.admin_state (ro_config o)
           = (if ok (ro_status o)
                 && bool_decide (PortConfig.admin_state (ro_old o)
                                 = ADMIN_STATE_ENABLED)
              then ADMIN_STATE_ENABLED else ADMIN_STATE_DISABLED)
      else ro_config o = PortConfig_default) outcomes
  ∧ Forall (λ o,
      PortConfig.admin_state (ro_old o) = ADMIN_STATE_UNKNOWN →
      ro_config o = PortConfig_default) outcomes
  ∧ (∀ (g : NewMaps) (singleton_port : SingletonPort.t) (w' : World)
       (unit' sdk_port_id : Z) (o : ReplayOutcome),
       o ∈ outcomes →
       ro_config o = PortConfig_default →
       SingletonPort.node singleton_port = node_id →
       SingletonPort.id singleton_port = ro_port_id o →
       node_id_to_unit g !! node_id = Some unit' →
       lookup2 node_id (ro_port_id o) (node_id_to_port_id_to_sdk_port_id g)
       = Some sdk_port_id →
       push_apply_port g singleton_port (mkMgrSt (this r.2) w')
       = let valid := sde_IsValidPort unit' sdk_port_id (sde w') in
         let w1 := mkWorld valid.2
                           (calls w' ++ [CallIsValidPort unit' sdk_port_id]) in
         let w2 :=
           if valid.1
           then mkWorld (sde_DeletePort unit' sdk_port_id valid.2).2
                        (calls w1 ++ [CallDeletePort unit' sdk_port_id])
           else w1 in
         on_new_config node_id (ro_port_id o) g
           (AddPortHelper node_id unit' sdk_port_id singleton_port)
           (mkMgrSt (this r.2) w2)).
Proof.
  intros Hinit Hunit cached outcomes r configs.
  pose proof (ReplayPortsConfig_run mgr w node_id unit Hinit Hunit)
    as (_ & _ & Hconfigs & _).
  fold cached outcomes r configs in Hconfigs.
  pose proof (replay_outcomes_each mgr node_id unit (sorted_items cached) w)
    as Heach.
  pose proof (replay_outcomes_NoDup mgr node_id unit cached w) as Hnd.
  fold outcomes in Heach, Hnd.
  assert (Hover : ∀ o, o ∈ outcomes →
            lookup2 node_id (ro_port_id o) configs = Some (ro_config o)).
  { intros o Hin. rewrite Hconfigs. by apply apply_outcomes_lookup. }
  assert (Hadded : Forall (λ o,
      if port_added mgr node_id unit (ro_port_id o) (ro_old o) (ro_before o)
      then PortConfig.admin_state (ro_config o)
           = (if ok (ro_status o)
                 && bool_decide (PortConfig.admin_state (ro_old o)
                                 = ADMIN_STATE_ENABLED)
              then ADMIN_STATE_ENABLED else ADMIN_STATE_DISABLED)
      else ro_config o = PortConfig_default) outcomes).
  { eapply Forall_impl; [exact Heach|]. intros o [Hst Hcf]. simpl in Hst, Hcf.
    pose proof (replay_one_port_config mgr node_id unit (ro_port_id o)
                  (ro_old o) (ro_before o)) as Hone.
    simpl in Hone. rewrite <- Hst, <- Hcf in Hone.
    destruct (port_added _ _ _ _ _ _); tauto. }
  split; [exact Hover|]. split; [|split; [exact Hadded|split]].
  - intros port_id. subst configs r.
    rewrite (ReplayPortsConfig_ports mgr w node_id unit Hinit Hunit).
    unfold lookup2, cached.
    destruct (node_id_to_port_id_to_port_config_ mgr !! node_id); simpl;
      [done|by rewrite lookup_empty].
  - eapply Forall_impl; [exact Hadded|]. intros o Ho Ha.
    unfold port_added in Ho. by rewrite decide_True in Ho.
  - intros g singleton_port w' unit' sdk_port_id o Hin Hdef Hnode Hid Hu Hk.
    pose proof (push_apply_port_broken g singleton_port (this r.2) w' unit'
                  sdk_port_id PortConfig_default) as Hpush.
    simpl in Hpush. rewrite Hnode, Hid in Hpush. apply Hpush; try done.
    fold configs. by rewrite (Hover o Hin), Hdef.
Qed.

(** *** VerifyChassisConfig *)

Lemma bind_inr {S A B} (m : M S A) (k : A → M S B) (s s' : S) (b : B) :
  (m ≫= k) s = (inr b, s') →
  ∃ a s1, m s = (inr a, s1) ∧ k a s1 = (inr b, s').
Proof.
  rewrite bind_run. destruct (m s) as [[e|a] s1]; [done|]. by exists a, s1.
Qed.

Lemma frame_ret {A} (a : A) : frame_ok (W := W) (mret a).
Proof. by intros mgr mgr' w. Qed.

Lemma frame_fail {A} (code : ErrorCode) (msg : string) :
  frame_ok (W := W) (fail (A := A) code msg).
Proof. by intros mgr mgr' w. Qed.

Lemma frame_RET_CHECK (cond : bool) (msg : string) :
  frame_ok (W := W) (RET_CHECK cond msg).
Proof. destruct cond; [apply frame_ret|apply frame_fail]. Qed.

Lemma frame_bind {A B} (m : M (@MgrSt W) A) (k : A → M (@MgrSt W) B) :
  frame_ok m → (∀ a, frame_ok (k a)) → frame_ok (m ≫= k).
Proof.
  intros Hm Hk mgr mgr' w. rewrite !bind_run, (Hm mgr mgr' w).
  destruct (m (mkMgrSt mgr' w)) as [[e|a] [mgr'' w'']]; [done|].
  cbn [fst snd mworld]. apply Hk.
Qed.

Lemma frame_sde_call {A} (c : SdeCall) (f : W → A * W) :
  frame_ok (W := W) (sde_call c f).
Proof. by intros mgr mgr' w. Qed.

Lemma frame_foldM {A B} (body : B → A → M (@MgrSt W) B) (l : list A) :
  (∀ b x, frame_ok (body b x)) → ∀ b, frame_ok (foldM body b l).
Proof.
  intros Hbody. induction l as [|x l IH]; intros b; [apply frame_ret|].
  cbn [foldM]. by apply frame_bind.
Qed.

Ltac solve_frame :=
  repeat first
    [ apply frame_ret | apply frame_fail | apply frame_RET_CHECK
    | apply frame_sde_call
    | apply frame_bind; [|intros]
    | apply frame_foldM; intros
    | match goal with
      | |- frame_ok (match ?x with _ => _ end) => destruct x
      end ].

Lemma frame_verify_config_layout (config : ChassisConfig.t) :
  frame_ok (verify_config_layout config).
Proof.
  unfold verify_config_layout, verify_node, verify_singleton_port,
         verify_port_exists, RETURN_IF_ERROR, GetPortIdFromPortKey.
  solve_frame. all: by intros mgr mgr' w.
Qed.

(** The maps the checks build are the layout of the configuration. *)
Lemma foldM_verify_node_keys (nodes : list Node.t) :
  ∀ (acc m : gmap Z Z) (s s' : @MgrSt W),
    foldM verify_node acc nodes s = (inr m, s') →
    ∀ k, is_Some (m !! k) → is_Some (acc !! k) ∨ k ∈ Node.id <$> nodes.
Proof.
  induction nodes as [|node nodes IH]; intros acc m s s' Hrun k Hk.
  - cbn [foldM] in Hrun. mrun_in Hrun. simplify_eq. by left.
  - cbn [foldM] in Hrun. apply bind_inr in Hrun as (acc' & s1 & Hnode & Hrun).
    destruct (IH _ _ _ _ Hrun k Hk) as [Hacc|Hin].
    + unfold verify_node in Hnode.
      repeat (apply bind_inr in Hnode as (? & ? & _ & Hnode)).
      mrun_in Hnode. simplify_eq.
      destruct (decide (k = Node.id node)) as [->|Hne].
      * right. simpl. left.
      * rewrite lookup_insert_ne in Hacc by done. by left.
    + right. simpl. by right.
Qed.

Lemma assign_units_lookup (nodes : list Node.t) :
  ∀ (unit : Z) (a a' m m' : gmap Z Z) (k : Z),
    m !! k = m' !! k ∨ k ∈ Node.id <$> nodes →
    (assign_units nodes unit (a, m)).2 !! k
    = (assign_units nodes unit (a', m')).2 !! k.
Proof.
  induction nodes as [|node nodes IH]; intros unit a a' m m' k Hk.
  - simpl. destruct Hk as [?|Hin]; [done|]. by apply elem_of_nil in Hin.
  - cbn [assign_units fst snd]. apply IH.
    destruct (decide (k = Node.id node)) as [->|Hne].
    + left. by rewrite !lookup_insert_eq.
    + rewrite !lookup_insert_ne by done.
      destruct Hk as [?|Hin]; [by left|right].
      simpl in Hin. apply elem_of_cons in Hin as [?|?]; done.
Qed.

Lemma foldM_verify_port_exists (node_id_to_unit : gmap Z Z)
      (ports : list SingletonPort.t) :
  ∀ (acc keys : gmap Z (gmap Z PortKey)) (s s' : @MgrSt W),
    foldM (verify_port_exists node_id_to_unit) acc ports s = (inr keys, s') →
    keys = foldl (λ m singleton_port,
                    map_assign2 (SingletonPort.node singleton_port)
                      (SingletonPort.id singleton_port)
                      (mkPortKey (SingletonPort.slot singleton_port)
                                 (SingletonPort.port singleton_port)
                                 (SingletonPort.channel singleton_port)) m)
                 acc ports.
Proof.
  induction ports as [|sp ports IH]; intros acc keys s s' Hrun.
  - cbn [foldM] in Hrun. mrun_in Hrun. by simplify_eq.
  - cbn [foldM] in Hrun. apply bind_inr in Hrun as (acc' & s1 & Hport & Hrun).
    apply IH in Hrun as ->. cbn [foldl]. f_equal.
    unfold verify_port_exists in Hport.
    destruct (node_id_to_unit !! SingletonPort.node sp); [|done].
    repeat (apply bind_inr in Hport as (? & ? & _ & Hport)).
    mrun_in Hport. by simplify_eq.
Qed.

Lemma verify_config_layout_result (config : ChassisConfig.t)
      (s s' : @MgrSt W)
      (layout : gmap Z Z * gmap Z (gmap Z PortKey)) :
  verify_config_layout config s = (inr layout, s') →
  layout = (config_node_units config, config_port_keys config).
Proof.
  unfold verify_config_layout. intros Hrun.
  do 5 (apply bind_inr in Hrun as (? & ? & _ & Hrun)).
  apply bind_inr in Hrun as (m & s1 & Hnodes & Hrun).
  apply bind_inr in Hrun as (? & ? & _ & Hrun).
  apply bind_inr in Hrun as (keys & s2 & Hkeys & Hrun).
  mrun_in Hrun. simplify_eq.
  apply foldM_verify_port_exists in Hkeys as ->.
  unfold config_node_units, config_port_keys. f_equal.
  apply map_eq. intros k. apply assign_units_lookup.
  destruct (m !! k) eqn:Hk; [|by left].
  destruct (foldM_verify_node_keys _ _ _ _ _ Hnodes k) as [[? Hacc]|Hin];
    [by eexists|done|by right].
Qed.

(** C3, amended: on an initialized manager, [VerifyChassisConfig] answers
    with a reboot-required error every desired configuration that passes its
    other checks (those a manager that was never initialized applies, on the
    same backend) and whose port keys or node units differ from the live
    generation's. *)
Theorem C3_verify_reboot_required (config : ChassisConfig.t)
        (mgr : DpdkChassisManager) (w : World) (s0 : MgrSt) :
  initialized_ mgr = true →
  VerifyChassisConfig config (mkMgrSt new_manager w) = (inr (), s0) →
  config_port_keys config ≠ node_id_to_port_id_to_singleton_port_key_ mgr
  ∨ config_node_units config ≠ node_id_to_unit_ mgr →
  ∃ msg,
    VerifyChassisConfig config (mkMgrSt mgr w)
    = (inl (MAKE_ERROR ERR_REBOOT_REQUIRED msg), mkMgrSt mgr (mworld s0)).
Proof.
  intros Hinit Hfresh Hdiff.
  unfold VerifyChassisConfig in *. rewrite bind_run in *.
  rewrite (frame_verify_config_layout config mgr new_manager w).
  pose proof (frame_verify_config_layout config new_manager new_manager w)
    as Hframe.
  destruct (verify_config_layout config (mkMgrSt new_manager w))
    as [[e|layout] s1] eqn:Hlayout; [done|].
  cbn [fst snd] in *. destruct s1 as [m1 w1]. cbn [mworld] in *.
  injection Hframe as ->.
  apply verify_config_layout_result in Hlayout as ->.
  rewrite bind_run in Hfresh. cbn [gets this new_manager initialized_] in Hfresh.
  mrun_in Hfresh. simplify_eq. cbn [mworld].
  rewrite bind_run. cbn [gets this fst snd]. rewrite Hinit.
  destruct (decide (config_port_keys config ≠ _)) as [Hk|Hk];
    mrun; [by eexists|].
  destruct (decide (config_node_units config ≠ _)) as [Hu|Hu];
    mrun; [by eexists|].
  destruct Hdiff; contradiction.
Qed.

(** *** PushChassisConfig *)

Lemma PushChassisConfig_passes (config : ChassisConfig.t) :
  PushChassisConfig config
  = (g ← foldM push_resolve_port (push_new_maps config)
               (ChassisConfig.singleton_ports config);
     g ← foldM push_apply_port g (ChassisConfig.singleton_ports config);
     push_cleanup g ;;
     modify_this (λ _, install g)).
Proof. reflexivity. Qed.

Lemma map_index2_eq {V} (d : V) (n p : Z) (m : gmap Z (gmap Z V)) :
  map_index2 d n p m
  = (default d (lookup2 n p m),
     map_assign2 n p (default d (lookup2 n p m)) m).
Proof.
  unfold map_index2, map_assign2, lookup2. rewrite !map_index_eq.
  cbn [fst snd]. rewrite insert_insert_eq.
  destruct (m !! n) as [inner|]; simpl; [|done].
  destruct (inner !! p) eqn:Hp; simpl; [|done].
  by rewrite (insert_id inner p) by done.
Qed.

(** The loops over the ports leave the members alone, whether they succeed
    or fail. *)
Lemma foldM_this {A B} (body : B → A → M (@MgrSt W) B) (l : list A) :
  (∀ b x s, this (body b x s).2 = this s) →
  ∀ b s, this (foldM body b l s).2 = this s.
Proof.
  intros Hbody. induction l as [|x l IH]; intros b s; [done|].
  cbn [foldM]. rewrite bind_run. specialize (Hbody b x s).
  destruct (body b x s) as [[e|b'] s1]; cbn [snd] in *; [done|].
  by rewrite IH.
Qed.

Lemma push_resolve_port_this (g : NewMaps) (singleton_port : SingletonPort.t)
      (s : MgrSt) :
  this (push_resolve_port g singleton_port s).2 = this s.
Proof.
  destruct s as [mgr [b0 l0]]. unfold push_resolve_port.
  destruct (node_id_to_unit g !! _); [|done].
  mrun. by destruct (sde_GetPortIdFromPortKey _ _ _) as [[e|k] b1].
Qed.

Lemma on_new_config_this (node_id port_id : Z) (g : NewMaps)
      (helper : M (@HelperSt W) ()) (s : MgrSt) :
  this (on_new_config node_id port_id g helper s).2 = this s.
Proof.
  destruct s as [mgr w]. unfold on_new_config. mrun.
  by destruct (helper _) as [[e|[]] hs].
Qed.

Lemma push_apply_port_this (g : NewMaps) (singleton_port : SingletonPort.t)
      (s : MgrSt) :
  this (push_apply_port g singleton_port s).2 = this s.
Proof.
  destruct s as [mgr [b0 l0]]. cbn [this].
  mstart (push_apply_port g singleton_port
            (mkMgrSt mgr (mkWorld b0 l0))).
  unfold push_apply_port. mrun.
  repeat first
    [ match goal with
      | |- context [on_new_config ?a ?b ?c ?d ?e] =>
          let Ht := fresh "Ht" in
          pose proof (on_new_config_this a b c d e) as Ht;
          destruct (on_new_config a b c d e) as [res [m1 w1]];
          cbn [this snd] in Ht; subst m1; mrun
      end
    | mcase; mrun ].
  all: by intros <-.
Qed.

(** In a state where every cached port is resolved, the clean-up loop reads
    the members without inserting anything. *)
Lemma for_each_this {A} (body : A → M (@MgrSt W) ()) (l : list A)
      (mgr : DpdkChassisManager) :
  (∀ x w, x ∈ l → this (body x (mkMgrSt mgr w)).2 = mgr) →
  ∀ w, this (for_each l body (mkMgrSt mgr w)).2 = mgr.
Proof.
  induction l as [|x l IH]; intros Hbody w; [done|].
  cbn [for_each]. rewrite bind_run.
  pose proof (Hbody x w (list_elem_of_here _ _)) as Hx.
  destruct (body x (mkMgrSt mgr w)) as [[e|[]] [mgr1 w1]];
    cbn [snd this] in *; [done|]. subst mgr1.
  apply IH. intros y w' Hy. apply Hbody. by right.
Qed.

Lemma push_cleanup_port_this (g : NewMaps) (node_id port_id : Z)
      (mgr : DpdkChassisManager) (w : World) :
  ports_resolved mgr →
  is_Some (lookup2 node_id port_id (node_id_to_port_id_to_port_config_ mgr)) →
  this (push_cleanup_port g node_id port_id (mkMgrSt mgr w)).2 = mgr.
Proof.
  intros Hwf Hport. destruct (Hwf _ _ Hport) as [[unit Hunit] [k Hk]].
  unfold push_cleanup_port.
  destruct (match node_id_to_port_id_to_port_config g !! node_id with
            | Some ports => bool_decide (is_Some (ports !! port_id))
            | None => false
            end); [done|].
  destruct mgr as [init u2n n2u st tm cf ky sdk rev], w as [b0 l0].
  cbn [node_id_to_unit_ node_id_to_port_id_to_sdk_port_id_] in *.
  mrun_mgr.
  rewrite (map_index_present 0 unit node_id n2u Hunit).
  rewrite (map_index2_present 0 k node_id port_id sdk Hk).
  mrun_mgr. by destruct (sde_DeletePort _ _ _) as [[|e] b1].
Qed.

Lemma push_cleanup_this (g : NewMaps) (mgr : DpdkChassisManager) (w : World) :
  ports_resolved mgr →
  this (push_cleanup g (mkMgrSt mgr w)).2 = mgr.
Proof.
  intros Hwf. unfold push_cleanup. rewrite bind_run. cbn [gets this].
  apply for_each_this. intros [node_id ports] w1 Hnode.
  apply for_each_this. intros [port_id c] w2 Hport. cbn [fst snd] in *.
  apply push_cleanup_port_this; [done|].
  apply elem_of_sorted_items in Hnode, Hport.
  unfold lookup2. rewrite Hnode, Hport. by eexists.
Qed.

(** What a push leaves in the members: on an error, what was there; on
    success, the new maps. *)
Lemma PushChassisConfig_outcome (config : ChassisConfig.t)
      (mgr : DpdkChassisManager) (w : World) :
  ports_resolved mgr →
  let ports := ChassisConfig.singleton_ports config in
  let r := PushChassisConfig config (mkMgrSt mgr w) in
  match r.1 with
  | inl e => this r.2 = mgr
  | inr _ =>
      ∃ g1 s1 g s2,
        foldM push_resolve_port (push_new_maps config) ports (mkMgrSt mgr w)
        = (inr g1, s1)
        ∧ foldM push_apply_port g1 ports s1 = (inr g, s2)
        ∧ (push_cleanup g s2).1 = inr ()
        ∧ r.2 = mkMgrSt (install g) (mworld (push_cleanup g s2).2)
  end.
Proof.
  intros Hwf ports r. subst r. rewrite PushChassisConfig_passes.
  fold ports. rewrite bind_run.
  pose proof (foldM_this push_resolve_port ports push_resolve_port_this
                (push_new_maps config) (mkMgrSt mgr w)) as H1.
  destruct (foldM push_resolve_port _ _ _) as [[e|g1] [m1 w1]];
    cbn [this snd fst] in *; subst m1; [done|].
  rewrite bind_run.
  pose proof (foldM_this push_apply_port ports push_apply_port_this
                g1 (mkMgrSt mgr w1)) as H2.
  destruct (foldM push_apply_port _ _ _) as [[e|g] [m2 w2]] eqn:Happly;
    cbn [this snd fst] in *; subst m2; [done|].
  rewrite bind_run.
  pose proof (push_cleanup_this g mgr w2 Hwf) as H3.
  destruct (push_cleanup g _) as [[e|[]] [m3 w3]] eqn:Hclean;
    cbn [this snd fst] in *; subst m3; [done|].
  exists g1, (mkMgrSt mgr w1), g, (mkMgrSt mgr w2).
  by rewrite Hclean.
Qed.

(** The new maps stay resolved through the second and the third loop. *)
Lemma foldM_preserves {S A B} (P : B → Prop) (body : B → A → M S B)
      (l : list A) :
  (∀ b x s b' s', body b x s = (inr b', s') → P b → P b') →
  ∀ b s b' s', foldM body b l s = (inr b', s') → P b → P b'.
Proof.
  intros Hbody. induction l as [|x l IH]; intros b s b' s' Hrun Hb.
  - cbn [foldM] in Hrun. mrun_in Hrun. by simplify_eq.
  - cbn [foldM] in Hrun. apply bind_inr in Hrun as (b1 & s1 & Hx & Hrun).
    eapply IH; [exact Hrun|]. by eapply Hbody.
Qed.

Lemma push_resolve_port_resolved (g g' : NewMaps)
      (singleton_port : SingletonPort.t) (s s' : @MgrSt W) :
  push_resolve_port g singleton_port s = (inr g', s') →
  new_ports_resolved g → new_ports_resolved g'.
Proof.
  unfold push_resolve_port. intros Hrun Hg.
  destruct singleton_port as [id name slot port channel speed node params].
  cbn [SingletonPort.node SingletonPort.id SingletonPort.slot
       SingletonPort.port SingletonPort.channel] in Hrun.
  destruct (node_id_to_unit g !! node) as [unit|] eqn:Hunit; [|done].
  apply bind_inr in Hrun as (k & s1 & _ & Hrun). mrun_in Hrun.
  simplify_eq. intros n p. cbn.
  rewrite !lookup2_map_assign2.
  destruct (decide (n = node ∧ p = id)) as [[-> ->]|Hne].
  - intros _. split; by eexists.
  - apply Hg.
Qed.

Lemma on_new_config_inr (node_id port_id : Z) (g g' : NewMaps)
      (helper : M (@HelperSt W) ()) (s s' : MgrSt) :
  on_new_config node_id port_id g helper s = (inr g', s') →
  ∃ c, g' = set_node_id_to_port_id_to_port_config
              (map_assign2 node_id port_id c
                 (node_id_to_port_id_to_port_config g)) g.
Proof.
  unfold on_new_config. intros Hrun.
  apply bind_inr in Hrun as (r & s1 & _ & Hrun).
  apply bind_inr in Hrun as (? & ? & _ & Hrun). mrun_in Hrun. simplify_eq.
  exists r.2. f_equal. rewrite map_index2_eq. cbn [snd].
  apply map_eq. intros n. unfold map_assign2.
  destruct (decide (n = node_id)) as [->|Hn].
  - rewrite !lookup_insert_eq. cbn. by rewrite insert_insert_eq.
  - by rewrite !lookup_insert_ne.
Qed.

Lemma push_apply_port_inr (g g' : NewMaps)
      (singleton_port : SingletonPort.t) (s s' : @MgrSt W) :
  push_apply_port g singleton_port s = (inr g', s') →
  let node_id := SingletonPort.node singleton_port in
  let port_id := SingletonPort.id singleton_port in
  ∃ c,
    g' = set_node_id_to_port_id_to_port_config
           (map_assign2 node_id port_id c
              (node_id_to_port_id_to_port_config g))
           (set_node_id_to_port_id_to_sdk_port_id
              (map_index2 0 node_id port_id
                          (node_id_to_port_id_to_sdk_port_id g)).2
              (set_node_id_to_unit
                 (map_index 0 node_id (node_id_to_unit g)).2 g)).
Proof.
  intros Hrun. cbv zeta. unfold push_apply_port in Hrun.
  apply bind_inr in Hrun as (mgr & s1 & _ & Hrun).
  destruct (lookup2 _ _ _) as [config_old|].
  - destruct (decide _).
    + apply bind_inr in Hrun as (? & ? & _ & Hrun).
      apply bind_inr in Hrun as (? & ? & _ & Hrun).
      by apply on_new_config_inr in Hrun.
    + apply bind_inr in Hrun as (? & ? & _ & Hrun).
      by apply on_new_config_inr in Hrun.
  - by apply on_new_config_inr in Hrun.
Qed.

Lemma push_apply_port_resolved (g g' : NewMaps)
      (singleton_port : SingletonPort.t) (s s' : @MgrSt W) :
  push_apply_port g singleton_port s = (inr g', s') →
  new_ports_resolved g → new_ports_resolved g'.
Proof.
  intros Hrun Hg. apply push_apply_port_inr in Hrun as [c ->].
  rewrite map_index2_eq, map_index_eq. cbn [snd].
  destruct g as [g1 g2 g3 g4 g5 g6 g7 g8]. intros n p. cbn.
  unfold new_ports_resolved in Hg. cbn in Hg.
  rewrite !lookup2_map_assign2.
  destruct (decide (n = SingletonPort.node singleton_port
                    ∧ p = SingletonPort.id singleton_port)) as [[-> ->]|Hne].
  - intros _. rewrite lookup_insert_eq. split; by eexists.
  - intros Hp. destruct (Hg n p Hp) as [Hu Hk]. split; [|done].
    destruct (decide (n = SingletonPort.node singleton_port)) as [->|Hn].
    + rewrite lookup_insert_eq. by eexists.
    + by rewrite lookup_insert_ne.
Qed.

(** *** Every state of the manager has its cached ports resolved *)

Lemma VerifyChassisConfig_this (config : ChassisConfig.t) (s : MgrSt) :
  this (VerifyChassisConfig config s).2 = this s.
Proof.
  destruct s as [mgr w]. unfold VerifyChassisConfig. rewrite bind_run.
  pose proof (frame_verify_config_layout config mgr mgr w) as Hframe.
  destruct (verify_config_layout config _) as [[e|layout] [m1 w1]];
    cbn [fst snd mworld] in Hframe; simplify_eq; [done|].
  rewrite bind_run. cbn [gets this]. destruct (initialized_ mgr); [|done].
  rewrite bind_run. destruct (decide _); [done|]. mrun.
  by destruct (decide _).
Qed.

Lemma GetPortCounters_this (node_id port_id : Z) (s : @MgrSt W) :
  this (GetPortCounters node_id port_id s).2 = this s.
Proof.
  destruct s as [mgr [b0 l0]]. cbn [this].
  mstart (GetPortCounters node_id port_id (mkMgrSt mgr (mkWorld b0 l0))).
  unfold GetPortCounters. mrun. msteps. all: by intros <-.
Qed.

Lemma Shutdown_resolved (mgr : DpdkChassisManager) (w : World) :
  ports_resolved mgr →
  ports_resolved (@this W (Shutdown (mkMgrSt mgr w)).2).
Proof.
  intros Hwf. unfold Shutdown. rewrite bind_run. cbn [gets this].
  destruct (initialized_ mgr); cbn; [|done].
  intros n p [c Hc]. done.
Qed.

Lemma ReplayPortsConfig_resolved (node_id : Z) (mgr : DpdkChassisManager)
      (w : World) :
  ports_resolved mgr →
  ports_resolved (this (ReplayPortsConfig node_id (mkMgrSt mgr w)).2).
Proof.
  intros Hwf.
  destruct (initialized_ mgr) eqn:Hinit.
  - destruct (node_id_to_unit_ mgr !! node_id) as [unit|] eqn:Hunit.
    + pose proof (ReplayPortsConfig_run mgr w node_id unit Hinit Hunit)
        as (_ & _ & _ & _ & Hu & Hs & _).
      pose proof (ReplayPortsConfig_ports mgr w node_id unit Hinit Hunit)
        as Hports.
      cbv zeta in *. intros n p Hp. rewrite Hu, Hs.
      apply Hwf. by apply Hports.
    + unfold ReplayPortsConfig, GetUnitFromNodeId.
      rewrite bind_run. cbn [gets this]. rewrite Hinit. mrun.
      by rewrite Hunit.
  - unfold ReplayPortsConfig. rewrite bind_run. cbn [gets this].
    by rewrite Hinit.
Qed.

Lemma install_resolved (g : NewMaps) :
  new_ports_resolved g → ports_resolved (install g).
Proof. intros Hg n p. apply Hg. Qed.

Lemma push_new_maps_resolved (config : ChassisConfig.t) :
  new_ports_resolved (push_new_maps config).
Proof. intros n p [c Hc]. done. Qed.

Lemma reachable_ports_resolved (mgr : DpdkChassisManager) :
  reachable mgr → ports_resolved mgr.
Proof.
  induction 1 as [|config mgr w _ IH|config mgr w _ IH|node_id mgr w _ IH
                  |node_id port_id mgr w _ IH|mgr w _ IH].
  - intros n p [c Hc]. done.
  - pose proof (PushChassisConfig_outcome config mgr w IH) as Hpush.
    cbv zeta in Hpush.
    destruct (PushChassisConfig config _) as [[e|[]] s']; cbn [fst snd] in *.
    + by rewrite Hpush.
    + destruct Hpush as (g1 & s1 & g & s2 & Hresolve & Happly & _ & ->).
      cbn [this]. apply install_resolved.
      eapply (foldM_preserves new_ports_resolved push_apply_port);
        [intros; by eapply push_apply_port_resolved|exact Happly|].
      eapply (foldM_preserves new_ports_resolved push_resolve_port);
        [intros; by eapply push_resolve_port_resolved|exact Hresolve|].
      apply push_new_maps_resolved.
  - by rewrite VerifyChassisConfig_this.
  - by apply ReplayPortsConfig_resolved.
  - by rewrite GetPortCounters_this.
  - by apply Shutdown_resolved.
Qed.


(** *** Queries *)

(** C8, amended: [GetSdkPortId], [GetUnitFromNodeId],
    [GetPortTimeLastChanged] and [GetPortCounters] fail with
    [ERR_NOT_INITIALIZED] when [initialized_] is false, and with the error of
    [RET_CHECK] when it is true and the node or the port is absent from the
    map they read.  [GetPortConfig] has no test of [initialized_]: whatever
    the flag, it fails with the error of [RET_CHECK] exactly when the port is
    absent from the configuration map. *)
Theorem C8_guarded_lookups (mgr : DpdkChassisManager) (w : World)
        (node_id port_id : Z) :
  let s := mkMgrSt mgr w in
  let counters := GetPortCounters node_id port_id s in
  error_code_of (GetPortConfig mgr node_id port_id)
  = (if lookup2 node_id port_id (node_id_to_port_id_to_port_config_ mgr)
     is None then Some RET_CHECK_code else None)
  ∧ error_code_of (GetSdkPortId mgr node_id port_id)
    = (if initialized_ mgr
       then if lookup2 node_id port_id
                       (node_id_to_port_id_to_sdk_port_id_ mgr)
            is None then Some RET_CHECK_code else None
       else Some ERR_NOT_INITIALIZED)
  ∧ error_code_of (GetUnitFromNodeId mgr node_id)
    = (if initialized_ mgr
       then if node_id_to_unit_ mgr !! node_id
            is None then Some RET_CHECK_code else None
       else Some ERR_NOT_INITIALIZED)
  ∧ error_code_of (GetPortTimeLastChanged mgr node_id port_id)
    = (if initialized_ mgr
       then if lookup2 node_id port_id
                       (node_id_to_port_id_to_time_last_changed_ mgr)
            is None then Some RET_CHECK_code else None
       else Some ERR_NOT_INITIALIZED)
  ∧ (initialized_ mgr = false →
     error_code_of counters.1 = Some ERR_NOT_INITIALIZED ∧ counters.2 = s)
  ∧ (initialized_ mgr = true →
     node_id_to_unit_ mgr !! node_id = None
     ∨ lookup2 node_id port_id (node_id_to_port_id_to_sdk_port_id_ mgr)
       = None →
     error_code_of counters.1 = Some RET_CHECK_code ∧ counters.2 = s).
Proof.
  intros s counters. subst s counters.
  unfold GetPortConfig, GetSdkPortId, GetUnitFromNodeId,
         GetPortTimeLastChanged, lookup2, ret_check_error.
  destruct mgr as [init u2n n2u st tm cf ky sdk rev]; simpl.
  split; [|split; [|split; [|split; [|split]]]].
  - destruct (cf !! node_id) as [m|]; [|done]. by destruct (m !! port_id).
  - destruct init; [|done]; simpl.
    destruct (sdk !! node_id) as [m|]; [|done]. by destruct (m !! port_id).
  - destruct init; [|done]; simpl. by destruct (n2u !! node_id).
  - destruct init; [|done]; simpl.
    destruct (tm !! node_id) as [m|]; [|done]. by destruct (m !! port_id).
  - intros ->. done.
  - intros -> Habsent.
    unfold GetPortCounters, GetUnitFromNodeId, GetSdkPortId. mrun_mgr.
    destruct (n2u !! node_id); [|done]. mrun_mgr.
    destruct Habsent as [?|Hs]; [done|]. unfold lookup2 in Hs.
    destruct (sdk !! node_id) as [m|]; [|done]. by rewrite Hs.
Qed.

End Properties.


(** C9 on a run: an enabled port added on a backend that accepts it. *)
Lemma C9_witness :
  let s' := (test_AddPortHelper 1 0 1
               (test_port 1 10000000000
                          (test_params ADMIN_STATE_ENABLED 0 0 1))
               (mkHelperSt PortConfig_default (test_world good_sde))).2 in
  PortConfig.speed_bps (config s') = Some 10000000000
  ∧ PortConfig.fec_mode (config s') = Some 1
  ∧ is_Some (PortConfig.mtu (config s'))
  ∧ PortConfig.admin_state (config s') = ADMIN_STATE_ENABLED
  ∧ PortConfig.admin_state (config s') ≠ ADMIN_STATE_UNKNOWN.
Proof.
  intros s'.
  apply (@C9_AddPortHelper_success_config TestSde test_sde test_constants
           1 0 1
           (test_port 1 10000000000 (test_params ADMIN_STATE_ENABLED 0 0 1))
           (mkHelperSt PortConfig_default (test_world good_sde)) s').
  vm_compute. reflexivity.
Defined.


(** C4 on a run: the speed goes from 10G to 25G on a backend that refuses
    to add ports; one disable, one delete, and the error of the create. *)
Lemma C4_witness :
  let port_25g := test_port 1 25000000000
                            (test_params ADMIN_STATE_ENABLED 1500 0 1) in
  let s := fresh_helper
             (mkTestSde true true false false false false false) in
  let r := test_UpdatePortHelper 1 0 1 port_25g
                                 (cached_10g ADMIN_STATE_ENABLED) s in
  (∃ msg, r.1 = inl (MAKE_ERROR ERR_INVALID_PARAM msg))
  ∧ count_calls is_DisablePort (calls (world r.2)) = 1%nat
  ∧ count_calls is_DeletePort (calls (world r.2)) = 1%nat.
Proof.
  intros port_25g s r.
  pose proof (@C4_speed_change_recreates TestSde test_sde test_constants
                1 0 1 port_25g (cached_10g ADMIN_STATE_ENABLED) s
                (sde (world s)) (sde (world s)) (sde (world s))) as H.
  destruct H as (Hr & Hd & Hx & _);
    [by vm_compute | reflexivity | reflexivity | reflexivity |].
  split; [|split; [exact Hd|exact Hx]].
  eexists. vm_compute. reflexivity.
Defined.

(** C4 as stated fails when [DisablePort] is refused: the update stops
    there, with no [DeletePort] and no create. *)
Lemma C4_counterexample :
  let port_25g := test_port 1 25000000000
                            (test_params ADMIN_STATE_ENABLED 1500 0 1) in
  let s := fresh_helper
             (mkTestSde true false false true false false false) in
  let r := test_UpdatePortHelper 1 0 1 port_25g
                                 (cached_10g ADMIN_STATE_ENABLED) s in
  r.1 = inl sde_error
  ∧ calls (world r.2) = [CallIsValidPort 0 1; CallDisablePort 0 1]
  ∧ count_calls is_DeletePort (calls (world r.2)) ≠ 1%nat.
Proof. by vm_compute. Qed.



(** C6 on a run: FEC mode 2 requested, 1 cached. *)
Lemma C6_witness :
  let port := test_port 1 10000000000
                        (test_params ADMIN_STATE_ENABLED 1500 0 2) in
  ∃ msg,
    test_UpdatePortHelper 1 0 1 port (cached_10g ADMIN_STATE_ENABLED)
                          (fresh_helper good_sde)
    = (inl (MAKE_ERROR ERR_UNIMPLEMENTED msg),
       mkHelperSt (cached_10g ADMIN_STATE_ENABLED)
                  (mkWorld good_sde [CallIsValidPort 0 1])).
Proof.
  intros port.
  apply (@C6_fec_change_unimplemented TestSde test_sde test_constants
           1 0 1 port (cached_10g ADMIN_STATE_ENABLED)
           (fresh_helper good_sde) good_sde).
  - reflexivity.
  - reflexivity.
  - by vm_compute.
Defined.

(** C6 as stated fails twice.  The update does call the device interface,
    once, to ask whether the port is valid; and when the backend answers
    that it is not, the error is an internal one and the [PortConfig] left
    is not the cached one. *)
Lemma C6_counterexample :
  let port := test_port 1 10000000000
                        (test_params ADMIN_STATE_ENABLED 1500 0 2) in
  let valid := test_UpdatePortHelper 1 0 1 port
                 (cached_10g ADMIN_STATE_ENABLED) (fresh_helper good_sde) in
  let invalid := test_UpdatePortHelper 1 0 1 port
                   (cached_10g ADMIN_STATE_ENABLED)
                   (fresh_helper
                      (mkTestSde false false false false false false false)) in
  calls (world valid.2) = [CallIsValidPort 0 1]
  ∧ calls (world valid.2) ≠ []
  ∧ invalid.1 = inl (MAKE_ERROR ERR_INTERNAL "Port is not valid")
  ∧ config invalid.2 ≠ cached_10g ADMIN_STATE_ENABLED.
Proof. by vm_compute. Qed.


(** C8 as stated fails for [GetPortConfig]: on a manager that was never
    initialized its error is the one of a failed [RET_CHECK], not the
    not-initialized one that [GetSdkPortId] gives. *)
Lemma C8_counterexample :
  @GetPortConfig test_constants new_manager 1 1
  = inl (MAKE_ERROR ERR_INVALID_PARAM "Node is not configured or not known.")
  ∧ @GetPortConfig test_constants new_manager 1 1
    ≠ inl (MAKE_ERROR ERR_NOT_INITIALIZED "Not initialized!")
  ∧ @GetSdkPortId test_constants new_manager 1 1
    = inl (MAKE_ERROR ERR_NOT_INITIALIZED "Not initialized!").
Proof. by vm_compute. Qed.



(** C10 on a run.  Two ports are cached, and the backend refuses [AddPort]:
    the replay fails, it leaves an entry for the two ports and for no
    other, and the entry of port 1 is a default-constructed [PortConfig].
    In the next push of the two ports, the third loop finds port 1 with an
    unknown admin state: it asks whether the port is valid, deletes it, and
    adds it again. *)
Lemma C10_witness :
  let configs :=
    node_id_to_port_id_to_port_config_ (this replay_add_refused.2) in
  let again :=
    @push_apply_port TestSde test_sde test_constants
      resolved_two_ports (port_10g ADMIN_STATE_ENABLED)
      (mkMgrSt (this replay_add_refused.2) (test_world good_sde)) in
  initialized_ pushed_two_ports = true
  ∧ node_id_to_unit_ pushed_two_ports !! 1 = Some 0
  ∧ ok (status_of replay_add_refused.1) = false
  ∧ (∀ port_id,
       is_Some (lookup2 1 port_id configs)
       ↔ is_Some (default ∅ (node_id_to_port_id_to_port_config_
                               pushed_two_ports !! 1) !! port_id))
  ∧ lookup2 1 1 configs = Some PortConfig_default
  ∧ ok (status_of again.1) = true
  ∧ calls (mworld again.2)
    = [CallIsValidPort 0 1; CallDeletePort 0 1;
       CallAddPortParams 0 1 10000000000
         (PortConfigParams.mk 0 0 1 0 1500 "" "" "" "pipe" "MEMPOOL0" "") 1].
Proof.
  intros configs again.
  assert (Hinit : initialized_ pushed_two_ports = true) by reflexivity.
  assert (Hunit : node_id_to_unit_ pushed_two_ports !! 1 = Some 0)
    by (vm_compute; reflexivity).
  split; [exact Hinit|]. split; [exact Hunit|].
  split; [vm_compute; reflexivity|].
  pose proof (@C10_replay_overwrites_cache TestSde test_sde test_constants
                pushed_two_ports (test_world add_refused_sde) 1 0
                Hinit Hunit) as Hreplay.
  cbv zeta in Hreplay.
  destruct Hreplay as (Hentry & Hsame & Hadded & _ & Hnext).
  split; [exact Hsame|].
  (* the replay of port 1 *)
  assert (Hfirst : ∃ o rest,
            (@replay_outcomes TestSde test_sde test_constants
               pushed_two_ports 1 0
               (sorted_items
                  (default ∅ (node_id_to_port_id_to_port_config_
                                pushed_two_ports !! 1)))
               (test_world add_refused_sde)).1 = o :: rest
            ∧ ro_port_id o = 1
            ∧ @port_added TestSde test_sde test_constants
                pushed_two_ports 1 0 (ro_port_id o) (ro_old o)
                (ro_before o) = false).
  { vm_compute. eexists _, _. split; [reflexivity|]. split; reflexivity. }
  destruct Hfirst as (o & rest & Houtcomes & Hport & Hrefused).
  rewrite Houtcomes in Hentry, Hadded, Hnext.
  assert (Hin : o ∈ o :: rest) by apply list_elem_of_here.
  apply Forall_cons in Hadded as [Hdefault _]. rewrite Hrefused in Hdefault.
  specialize (Hentry o Hin). rewrite Hport, Hdefault in Hentry.
  split; [exact Hentry|].
  specialize (Hnext resolved_two_ports (port_10g ADMIN_STATE_ENABLED)
                    (test_world good_sde) 0 1 o Hin Hdefault eq_refl).
  rewrite Hport in Hnext.
  specialize (Hnext eq_refl).
  assert (Hu : node_id_to_unit resolved_two_ports !! 1 = Some 0)
    by (vm_compute; reflexivity).
  assert (Hs : lookup2 1 1 (node_id_to_port_id_to_sdk_port_id
                              resolved_two_ports) = Some 1)
    by (vm_compute; reflexivity).
  specialize (Hnext Hu Hs).
  subst again. unfold replay_add_refused, test_Replay. rewrite Hnext.
  split; vm_compute; reflexivity.
Defined.

(** C10 as stated fails for a replay that fails partway: port 1 is added,
    then its autoneg policy is refused.  The replay reports the error, and
    the entry it leaves in the cache is not a default-constructed
    [PortConfig]: its admin state is disabled, not unknown. *)
Lemma C10_counterexample :
  ok (status_of replayed_two_ports.1) = false
  ∧ lookup2 1 1 (node_id_to_port_id_to_port_config_
                   (this replayed_two_ports.2))
    = Some (PortConfig.mk ADMIN_STATE_DISABLED (Some 10000000000)
                          (Some 1500) None (Some 1) None 0 0 0 0
                          "" "" "" "" "" "")
  ∧ lookup2 1 1 (node_id_to_port_id_to_port_config_
                   (this replayed_two_ports.2))
    ≠ Some PortConfig_default.
Proof. by vm_compute. Qed.


(** C2 fails on the code: a configuration with one enabled port and no MTU
    is pushed twice on a backend that accepts every call.  [AddPortHelper]
    caches the default MTU; the second push compares the requested MTU, 0,
    with the cached one, takes the configuration as changed, and disables
    the port. *)
Lemma C2_identical_push_disables_port :
  let first := test_Push mtu_unset
                 (mkMgrSt new_manager (test_world good_sde)) in
  let second := test_Push mtu_unset
                  (mkMgrSt (this first.2) (test_world good_sde)) in
  first.1 = inr ()
  ∧ (PortConfig.mtu
       <$> lookup2 1 1 (node_id_to_port_id_to_port_config_ (this first.2)))
    = Some (Some 1500)
  ∧ second.1 = inr ()
  ∧ calls (mworld second.2)
    = [CallGetPortIdFromPortKey 0 (mkPortKey 1 1 0);
       CallIsValidPort 0 1;
       CallDisablePort 0 1]
  ∧ count_calls is_mutation (calls (mworld second.2)) = 1%nat
  ∧ (PortConfig.mtu
       <$> lookup2 1 1 (node_id_to_port_id_to_port_config_ (this second.2)))
    = Some (Some 0).
Proof. by vm_compute. Qed.

(** C3 on a run: port 2 is added to the configuration of an initialized
    manager; [VerifyChassisConfig] asks for a reboot. *)
Lemma C3_witness :
  let w := test_world good_sde in
  initialized_ pushed_one_port = true
  ∧ (test_Verify two_ports (mkMgrSt new_manager w)).1 = inr ()
  ∧ config_port_keys two_ports
    ≠ node_id_to_port_id_to_singleton_port_key_ pushed_one_port
  ∧ ∃ msg,
      (test_Verify two_ports (mkMgrSt pushed_one_port w)).1
      = inl (MAKE_ERROR ERR_REBOOT_REQUIRED msg).
Proof.
  intros w.
  assert (Hinit : initialized_ pushed_one_port = true) by reflexivity.
  assert (Hfresh : test_Verify two_ports (mkMgrSt new_manager w)
                   = (inr (), (test_Verify two_ports
                                 (mkMgrSt new_manager w)).2))
    by (by vm_compute).
  assert (Hdiff : config_port_keys two_ports
                  ≠ node_id_to_port_id_to_singleton_port_key_
                      pushed_one_port) by (by vm_compute).
  split; [exact Hinit|]. split; [by rewrite Hfresh|]. split; [exact Hdiff|].
  destruct (@C3_verify_reboot_required TestSde test_sde test_constants
              two_ports pushed_one_port w _ Hinit Hfresh (or_introl Hdiff))
    as [msg Hverify].
  exists msg. unfold test_Verify. by rewrite Hverify.
Defined.

(** C3 as stated fails for [PushChassisConfig], which has no such check: the
    same configuration pushed on the same initialized manager is applied,
    port 2 is added, and the status is OK. *)
Lemma C3_counterexample :
  let r := test_Push two_ports
             (mkMgrSt pushed_one_port (test_world good_sde)) in
  initialized_ pushed_one_port = true
  ∧ config_port_keys two_ports
    ≠ node_id_to_port_id_to_singleton_port_key_ pushed_one_port
  ∧ r.1 = inr ()
  ∧ node_id_to_port_id_to_singleton_port_key_ (this r.2)
    = config_port_keys two_ports
  ∧ count_calls (λ c, if c is CallAddPortParams _ 2 _ _ _ then true
                      else false)
                (calls (mworld r.2)) = 1%nat.
Proof. by vm_compute. Qed.

(** * Further properties of the code *)

Section Invariants.
Context {W : Type} `{!TdiSdeInterface W} `{!Constants}.

(** One iteration of the second loop that succeeds: the unit of the node
    was found, and the port is in every per-port map. *)
Lemma push_resolve_port_inr (g g' : NewMaps)
      (singleton_port : SingletonPort.t) (s s' : @MgrSt W) :
  push_resolve_port g singleton_port s = (inr g', s') →
  let node_id := SingletonPort.node singleton_port in
  let port_id := SingletonPort.id singleton_port in
  ∃ unit sdk_port,
    node_id_to_unit g !! node_id = Some unit
    ∧ g' = mkNewMaps
             (unit_to_node_id g) (node_id_to_unit g)
             (map_assign2 node_id port_id PORT_STATE_UNKNOWN
                          (node_id_to_port_id_to_port_state g))
             (map_assign2 node_id port_id UnixEpoch
                          (node_id_to_port_id_to_time_last_changed g))
             (map_assign2 node_id port_id PortConfig_default
                          (node_id_to_port_id_to_port_config g))
             (map_assign2 node_id port_id
                          (mkPortKey (SingletonPort.slot singleton_port)
                                     (SingletonPort.port singleton_port)
                                     (SingletonPort.channel singleton_port))
                          (node_id_to_port_id_to_singleton_port_key g))
             (map_assign2 node_id port_id sdk_port
                          (node_id_to_port_id_to_sdk_port_id g))
             (map_assign2 node_id sdk_port port_id
                          (node_id_to_sdk_port_id_to_port_id g)).
Proof.
  intros Hrun. cbv zeta. unfold push_resolve_port in Hrun.
  destruct singleton_port as [id name slot port channel speed node params].
  cbn [SingletonPort.node SingletonPort.id SingletonPort.slot
       SingletonPort.port SingletonPort.channel] in *.
  destruct (node_id_to_unit g !! node) as [unit|] eqn:Hunit; [|done].
  apply bind_inr in Hrun as (k & s1 & _ & Hrun). mrun_in Hrun.
  simplify_eq. by exists unit, k.
Qed.

(** A helper that succeeds on the entry of the new maps: the entry it
    started from, and what is assigned. *)
Lemma on_new_config_run (node_id port_id : Z) (g g' : NewMaps)
      (helper : M (@HelperSt W) ()) (s s' : MgrSt) :
  on_new_config node_id port_id g helper s = (inr g', s') →
  let c0 := default PortConfig_default
              (lookup2 node_id port_id (node_id_to_port_id_to_port_config g)) in
  ∃ hs',
    helper (mkHelperSt c0 (mworld s)) = (inr (), hs')
    ∧ s' = mkMgrSt (this s) (world hs')
    ∧ g' = set_node_id_to_port_id_to_port_config
             (map_assign2 node_id port_id (config hs')
                (node_id_to_port_id_to_port_config g)) g.
Proof.
  unfold on_new_config. rewrite map_index2_eq. cbn [fst snd]. intros Hrun.
  cbv zeta.
  set (c0 := default PortConfig_default _) in *.
  unfold run_helper in Hrun. rewrite bind_run in Hrun.
  destruct (helper (mkHelperSt c0 (mworld s))) as [[e|[]] hs'] eqn:Hh;
    mrun_in Hrun; [done|].
  simplify_eq. exists hs'. split; [done|]. split; [done|].
  f_equal. apply map_eq. intros n. unfold map_assign2.
  destruct (decide (n = node_id)) as [->|Hn].
  - rewrite !lookup_insert_eq. cbn. by rewrite insert_insert_eq.
  - by rewrite !lookup_insert_ne.
Qed.

(** One iteration of the third loop that succeeds: the entry of the port is
    what [AddPortHelper] left, for a new or a broken port, or what
    [UpdatePortHelper] left from the configuration cached in the members. *)
Lemma push_apply_port_run (g g' : NewMaps)
      (singleton_port : SingletonPort.t) (s s' : @MgrSt W) :
  push_apply_port g singleton_port s = (inr g', s') →
  let node_id := SingletonPort.node singleton_port in
  let port_id := SingletonPort.id singleton_port in
  let unit := (map_index 0 node_id (node_id_to_unit g)).1 in
  let sdk_port_id :=
    (map_index2 0 node_id port_id (node_id_to_port_id_to_sdk_port_id g)).1 in
  let config_old :=
    lookup2 node_id port_id (node_id_to_port_id_to_port_config_ (this s)) in
  ∃ hs hs',
    g' = set_node_id_to_port_id_to_port_config
           (map_assign2 node_id port_id (config hs')
              (node_id_to_port_id_to_port_config g))
           (set_node_id_to_port_id_to_sdk_port_id
              (map_index2 0 node_id port_id
                          (node_id_to_port_id_to_sdk_port_id g)).2
              (set_node_id_to_unit
                 (map_index 0 node_id (node_id_to_unit g)).2 g))
    ∧ match config_old with
      | Some old =>
          if decide (PortConfig.admin_state old = ADMIN_STATE_UNKNOWN)
          then AddPortHelper node_id unit sdk_port_id singleton_port hs
               = (inr (), hs')
          else PortConfig.speed_bps old ≠ None
               ∧ UpdatePortHelper node_id unit sdk_port_id singleton_port
                                  old hs = (inr (), hs')
      | None =>
          AddPortHelper node_id unit sdk_port_id singleton_port hs
          = (inr (), hs')
      end.
Proof.
  intros Hrun. cbv zeta. unfold push_apply_port in Hrun.
  apply bind_inr in Hrun as (mgr & s1 & Hget & Hrun).
  unfold gets in Hget. simplify_eq.
  destruct (lookup2 _ _ (node_id_to_port_id_to_port_config_ _))
    as [config_old|].
  - destruct (decide _).
    + apply bind_inr in Hrun as (? & ? & _ & Hrun).
      apply bind_inr in Hrun as (? & ? & _ & Hrun).
      apply on_new_config_run in Hrun as (hs' & Hh & _ & ->).
      by eexists _, hs'.
    + apply bind_inr in Hrun as (? & ? & Hsp & Hrun).
      apply on_new_config_run in Hrun as (hs' & Hh & _ & ->).
      eexists _, hs'. split; [done|]. split; [|exact Hh].
      destruct (decide (PortConfig.speed_bps config_old = None)); [done|done].
  - apply on_new_config_run in Hrun as (hs' & Hh & _ & ->).
    by eexists _, hs'.
Qed.

(** *** Induction over the states of the manager *)

Lemma ReplayPortsConfig_guard (node_id : Z) (mgr : DpdkChassisManager)
      (w : World) :
  initialized_ mgr = false ∨ node_id_to_unit_ mgr !! node_id = None →
  ReplayPortsConfig node_id (mkMgrSt mgr w)
  = (inl (MAKE_ERROR (if initialized_ mgr then RET_CHECK_code
                      else ERR_NOT_INITIALIZED)
                     (if initialized_ mgr
                      then "Node is not configured or not known."
                      else "Not initialized!")),
     mkMgrSt mgr w).
Proof.
  intros Hguard. unfold ReplayPortsConfig, GetUnitFromNodeId.
  rewrite bind_run. cbn [gets this].
  destruct (initialized_ mgr) eqn:Hinit; [|done].
  destruct Hguard as [?|Hunit]; [done|]. mrun. by rewrite Hunit.
Qed.

Lemma Shutdown_this (mgr : DpdkChassisManager) (w : World) :
  @this W (Shutdown (mkMgrSt mgr w)).2
  = if initialized_ mgr then new_manager else mgr.
Proof.
  unfold Shutdown. rewrite bind_run. cbn [gets this].
  by destruct (initialized_ mgr).
Qed.

(** A property of the members that the constructor establishes, and that a
    push that succeeds and a replay that runs keep, holds in every state of
    the manager. *)
Lemma reachable_invariant (P : DpdkChassisManager → Prop) :
  P new_manager →
  (∀ config mgr w g1 w1 g w2,
     reachable mgr → P mgr →
     let ports := ChassisConfig.singleton_ports config in
     foldM push_resolve_port (push_new_maps config) ports (mkMgrSt mgr w)
     = (inr g1, mkMgrSt mgr w1) →
     foldM push_apply_port g1 ports (mkMgrSt mgr w1)
     = (inr g, mkMgrSt mgr w2) →
     P (install g)) →
  (∀ node_id unit mgr w,
     reachable mgr → P mgr →
     initialized_ mgr = true →
     node_id_to_unit_ mgr !! node_id = Some unit →
     P (this (ReplayPortsConfig node_id (mkMgrSt mgr w)).2)) →
  ∀ mgr, reachable mgr → P mgr.
Proof.
  intros Hnew Hpush Hreplay.
  induction 1 as [|config mgr w Hr IH|config mgr w Hr IH|node_id mgr w Hr IH
                  |node_id port_id mgr w Hr IH|mgr w Hr IH].
  - exact Hnew.
  - pose proof (PushChassisConfig_outcome config mgr w
                  (reachable_ports_resolved mgr Hr)) as Hout.
    cbv zeta in Hout.
    destruct (PushChassisConfig config _) as [[e|[]] s']; cbn [fst snd] in *.
    + by rewrite Hout.
    + destruct Hout as (g1 & s1 & g & s2 & Hresolve & Happly & _ & ->).
      cbn [this].
      pose proof (foldM_this push_resolve_port
                    (ChassisConfig.singleton_ports config)
                    push_resolve_port_this (push_new_maps config)
                    (mkMgrSt mgr w)) as H1.
      rewrite Hresolve in H1. cbn [snd this] in H1.
      pose proof (foldM_this push_apply_port
                    (ChassisConfig.singleton_ports config)
                    push_apply_port_this g1 s1) as H2.
      rewrite Happly in H2. cbn [snd] in H2.
      destruct s1 as [m1 w1], s2 as [m2 w2]. cbn [this] in *. subst m1 m2.
      by eapply (Hpush config mgr w g1 w1 g w2).
  - by rewrite VerifyChassisConfig_this.
  - destruct (initialized_ mgr) eqn:Hinit.
    + destruct (node_id_to_unit_ mgr !! node_id) as [unit|] eqn:Hunit.
      * by eapply Hreplay.
      * rewrite ReplayPortsConfig_guard by (by right). done.
    + rewrite ReplayPortsConfig_guard by (by left). done.
  - by rewrite GetPortCounters_this.
  - rewrite Shutdown_this. by destruct (initialized_ mgr).
Qed.

Lemma reachable_initialized_or_new (mgr : DpdkChassisManager) :
  reachable mgr → initialized_ mgr = true ∨ mgr = new_manager.
Proof.
  revert mgr.
  apply (reachable_invariant
           (λ mgr, initialized_ mgr = true ∨ mgr = new_manager)).
  - by right.
  - intros. by left.
  - intros node_id unit mgr w _ _ Hinit Hunit. left.
    by pose proof (ReplayPortsConfig_run mgr w node_id unit Hinit Hunit)
      as (_ & _ & _ & Hi & _).
Qed.

(** X1: a manager that is not initialized holds nothing: it is in the state
    its constructor left.  No push that failed, and no shutdown, leaves
    entries behind. *)
Theorem uninitialized_is_new (mgr : DpdkChassisManager) :
  reachable mgr → initialized_ mgr = false → mgr = new_manager.
Proof.
  intros Hr Hinit.
  destruct (reachable_initialized_or_new mgr Hr) as [Hi|?]; [|done].
  by rewrite Hi in Hinit.
Qed.

(** What a replay that runs leaves in the members it does not replay. *)
Lemma ReplayPortsConfig_members (mgr : DpdkChassisManager) (w : World)
      (node_id unit : Z) :
  initialized_ mgr = true →
  node_id_to_unit_ mgr !! node_id = Some unit →
  let mgr' := this (ReplayPortsConfig node_id (mkMgrSt mgr w)).2 in
  unit_to_node_id_ mgr' = unit_to_node_id_ mgr
  ∧ node_id_to_sdk_port_id_to_port_id_ mgr'
    = node_id_to_sdk_port_id_to_port_id_ mgr
  ∧ (∀ n p,
       lookup2 n p (node_id_to_port_id_to_port_state_ mgr')
       = if decide (n = node_id)
         then (λ _, PORT_STATE_UNKNOWN)
                <$> lookup2 n p (node_id_to_port_id_to_port_state_ mgr)
         else lookup2 n p (node_id_to_port_id_to_port_state_ mgr))
  ∧ (∀ n p,
       lookup2 n p (node_id_to_port_id_to_time_last_changed_ mgr')
       = if decide (n = node_id)
         then (λ _, UnixEpoch)
                <$> lookup2 n p
                      (node_id_to_port_id_to_time_last_changed_ mgr)
         else lookup2 n p (node_id_to_port_id_to_time_last_changed_ mgr)).
Proof.
  intros Hinit Hunit mgr'. subst mgr'.
  destruct mgr as [init u2n n2u st tm cf ky sdk rev]; simpl in *. subst init.
  unfold ReplayPortsConfig, GetUnitFromNodeId. mrun_mgr.
  rewrite Hunit. mrun_mgr. rewrite !map_index_eq. cbn [fst snd].
  match goal with
  | |- context [foldM _ _ _ (mkMgrSt ?m _)] =>
      rewrite (replay_loop node_id unit
                 (mkManager true u2n n2u st tm cf ky sdk rev) _ m)
        by reflexivity
  end.
  cbn [fst snd this mworld].
  assert (Hfmap : ∀ {A} (f : A → A) (m : gmap Z (gmap Z A)) n p,
             lookup2 n p (<[node_id := f <$> default ∅ (m !! node_id)]>
                            (<[node_id := default ∅ (m !! node_id)]> m))
             = if decide (n = node_id) then f <$> lookup2 n p m
               else lookup2 n p m).
  { intros A f m n p. unfold lookup2.
    destruct (decide (n = node_id)) as [->|Hn].
    - rewrite lookup_insert_eq, lookup_fmap.
      destruct (m !! node_id); simpl; [done|by rewrite lookup_empty].
    - by rewrite !lookup_insert_ne. }
  destruct (foldl _ _ _); cbn; (split; [done|]; split; [done|]);
    split; intros n p; apply Hfmap.
Qed.

(** *** The passes of a push over the new maps *)

Lemma is_Some_lookup2_map_assign2 {V} (n p n' p' : Z) (v : V)
      (m : gmap Z (gmap Z V)) :
  is_Some (lookup2 n' p' (map_assign2 n p v m))
  ↔ (n' = n ∧ p' = p) ∨ is_Some (lookup2 n' p' m).
Proof.
  rewrite lookup2_map_assign2. destruct (decide (n' = n ∧ p' = p)).
  - split; [by left|by eexists].
  - split; [by right|by intros [?|?]].
Qed.

Lemma set_config_id (g : NewMaps) :
  set_node_id_to_port_id_to_sdk_port_id (node_id_to_port_id_to_sdk_port_id g)
    (set_node_id_to_unit (node_id_to_unit g) g) = g.
Proof. by destruct g. Qed.

(** The second loop leaves the units alone, and a port it has entered stays
    entered. *)
Lemma push_resolve_pass_keeps (ports : list SingletonPort.t) (n p : Z) :
  ∀ (g : NewMaps) (s : @MgrSt W) g1 s1,
    foldM push_resolve_port g ports s = (inr g1, s1) →
    unit_to_node_id g1 = unit_to_node_id g
    ∧ node_id_to_unit g1 = node_id_to_unit g
    ∧ (is_Some (lookup2 n p (node_id_to_port_id_to_sdk_port_id g)) →
       is_Some (lookup2 n p (node_id_to_port_id_to_sdk_port_id g1)))
    ∧ (is_Some (lookup2 n p (node_id_to_port_id_to_port_config g)) →
       is_Some (lookup2 n p (node_id_to_port_id_to_port_config g1))).
Proof.
  induction ports as [|x ports IH]; intros g s g1 s1 Hrun.
  - cbn [foldM] in Hrun. mrun_in Hrun. by simplify_eq.
  - cbn [foldM] in Hrun. apply bind_inr in Hrun as (g' & s' & Hx & Hrun).
    apply IH in Hrun as (-> & -> & Hsdk & Hcfg).
    apply push_resolve_port_inr in Hx as (unit & sdk_port & _ & ->).
    cbn. split; [done|]. split; [done|].
    split; intros Hin; [apply Hsdk|apply Hcfg]; cbn;
      apply is_Some_lookup2_map_assign2; by right.
Qed.

Lemma push_resolve_pass (ports : list SingletonPort.t) :
  ∀ (g : NewMaps) (s : @MgrSt W) g1 s1,
    foldM push_resolve_port g ports s = (inr g1, s1) →
    ports_present ports g1.
Proof.
  induction ports as [|x ports IH]; intros g s g1 s1 Hrun; [constructor|].
  cbn [foldM] in Hrun. apply bind_inr in Hrun as (g' & s' & Hx & Hrun).
  constructor; [|by eapply IH].
  pose proof (push_resolve_pass_keeps ports (SingletonPort.node x)
                (SingletonPort.id x) g' s' g1 s1 Hrun)
    as (_ & Hn2u & Hsdk & Hcfg).
  apply push_resolve_port_inr in Hx as (unit & sdk_port & Hunit & ->).
  cbn in *. rewrite Hn2u, Hunit. split; [by eexists|].
  split; [apply Hsdk|apply Hcfg]; apply is_Some_lookup2_map_assign2;
    by left.
Qed.

(** On a port that the second loop has entered, an iteration of the third
    loop assigns its configuration and nothing else. *)
Lemma push_apply_port_present (g g' : NewMaps)
      (singleton_port : SingletonPort.t) (s s' : @MgrSt W) :
  push_apply_port g singleton_port s = (inr g', s') →
  ports_present [singleton_port] g →
  ∃ c, g' = set_node_id_to_port_id_to_port_config
              (map_assign2 (SingletonPort.node singleton_port)
                           (SingletonPort.id singleton_port) c
                           (node_id_to_port_id_to_port_config g)) g.
Proof.
  intros Hrun Hin. apply Forall_inv in Hin as ([u Hu] & [k Hk] & _).
  apply push_apply_port_inr in Hrun as (c & ->). exists c.
  rewrite (map_index_present 0 u _ _ Hu), (map_index2_present 0 k _ _ _ Hk).
  cbn [snd]. by rewrite set_config_id.
Qed.

Lemma ports_present_set_config (ports : list SingletonPort.t) (g : NewMaps)
      (cfg : gmap Z (gmap Z PortConfig.t)) :
  same_ports cfg (node_id_to_port_id_to_port_config g) →
  ports_present ports g →
  ports_present ports (set_node_id_to_port_id_to_port_config cfg g).
Proof.
  intros Hsame Hin. eapply Forall_impl; [exact Hin|].
  intros x (Hu & Hk & Hc). cbn.
  split; [done|]. split; [done|]. by apply Hsame.
Qed.

Lemma same_ports_assign {V} (n p : Z) (v : V) (m : gmap Z (gmap Z V)) :
  is_Some (lookup2 n p m) → same_ports (map_assign2 n p v m) m.
Proof.
  intros Hin n' p'. rewrite is_Some_lookup2_map_assign2.
  split; [|by right]. by intros [[-> ->]|?].
Qed.

(** The third loop changes the configurations of the ports that the second
    loop entered, and nothing else. *)
Lemma push_apply_pass (ports : list SingletonPort.t) :
  ∀ (g : NewMaps) (s : @MgrSt W) g' s',
    foldM push_apply_port g ports s = (inr g', s') →
    ports_present ports g →
    ∃ cfg, g' = set_node_id_to_port_id_to_port_config cfg g
           ∧ same_ports cfg (node_id_to_port_id_to_port_config g).
Proof.
  induction ports as [|x ports IH]; intros g s g' s' Hrun Hin.
  - cbn [foldM] in Hrun. mrun_in Hrun. injection Hrun as <- <-.
    exists (node_id_to_port_id_to_port_config g). split; [by destruct g|done].
  - cbn [foldM] in Hrun. apply bind_inr in Hrun as (g1 & s1 & Hx & Hrun).
    apply Forall_cons in Hin as [Hx_in Hin].
    apply push_apply_port_present in Hx as (c & ->);
      [|by constructor].
    assert (Hsame : same_ports
                      (map_assign2 (SingletonPort.node x) (SingletonPort.id x)
                                   c (node_id_to_port_id_to_port_config g))
                      (node_id_to_port_id_to_port_config g))
      by (apply same_ports_assign, Hx_in).
    apply IH in Hrun as (cfg & -> & Hcfg);
      [|by apply ports_present_set_config].
    exists cfg. split; [by destruct g|].
    intros n p. cbn in Hcfg. etrans; [apply Hcfg|apply Hsame].
Qed.

(** *** The per-port maps hold the same ports *)

Lemma push_resolve_port_aligned (g g' : NewMaps)
      (singleton_port : SingletonPort.t) (s s' : @MgrSt W) :
  push_resolve_port g singleton_port s = (inr g', s') →
  ports_aligned (install g) → ports_aligned (install g').
Proof.
  intros Hrun (Hst & Htm & Hky & Hsdk & Hunit).
  apply push_resolve_port_inr in Hrun as (unit & sdk_port & Hu & ->).
  unfold ports_aligned, same_ports in *. cbn in *.
  split_and!; intros n p; rewrite ?is_Some_lookup2_map_assign2.
  - by rewrite Hst.
  - by rewrite Htm.
  - by rewrite Hky.
  - by rewrite Hsdk.
  - intros [[-> ->]|Hin]; [by eexists|by eapply Hunit].
Qed.

Lemma ports_aligned_empty (g : NewMaps) :
  node_id_to_port_id_to_port_state g = ∅ →
  node_id_to_port_id_to_time_last_changed g = ∅ →
  node_id_to_port_id_to_port_config g = ∅ →
  node_id_to_port_id_to_singleton_port_key g = ∅ →
  node_id_to_port_id_to_sdk_port_id g = ∅ →
  ports_aligned (install g).
Proof.
  intros Hst Htm Hcf Hky Hsdk. unfold ports_aligned, same_ports. cbn.
  rewrite Hst, Htm, Hcf, Hky, Hsdk.
  split_and!; intros n p; unfold lookup2; rewrite !lookup_empty;
    [done..|by intros [? ?]].
Qed.

Lemma push_ports_aligned (config : ChassisConfig.t) (s s1 s2 : @MgrSt W)
      (g1 g : NewMaps) :
  let ports := ChassisConfig.singleton_ports config in
  foldM push_resolve_port (push_new_maps config) ports s = (inr g1, s1) →
  foldM push_apply_port g1 ports s1 = (inr g, s2) →
  ports_aligned (install g).
Proof.
  intros ports Hresolve Happly.
  assert (Hg1 : ports_aligned (install g1)).
  { eapply (foldM_preserves (λ g, ports_aligned (install g))
              push_resolve_port);
      [intros; by eapply push_resolve_port_aligned|exact Hresolve|].
    by apply ports_aligned_empty. }
  apply push_apply_pass in Happly as (cfg & -> & Hcfg);
    [|by eapply push_resolve_pass].
  destruct Hg1 as (Hst & Htm & Hky & Hsdk & Hunit).
  unfold ports_aligned, same_ports in *. cbn in *.
  split_and!; intros n p; rewrite Hcfg;
    [apply Hst|apply Htm|apply Hky|apply Hsdk|apply Hunit].
Qed.

Lemma reachable_ports_aligned (mgr : DpdkChassisManager) :
  reachable mgr → ports_aligned mgr.
Proof.
  revert mgr. apply (reachable_invariant ports_aligned).
  - by apply (ports_aligned_empty (mkNewMaps ∅ ∅ ∅ ∅ ∅ ∅ ∅ ∅)).
  - intros config mgr w g1 w1 g w2 _ _ ports Hresolve Happly.
    by eapply push_ports_aligned.
  - intros node_id unit mgr w _ (Hst & Htm & Hky & Hsdk & Hu) Hinit Hunit.
    pose proof (ReplayPortsConfig_run mgr w node_id unit Hinit Hunit)
      as (_ & _ & _ & _ & Hn2u & Hsdk' & Hky').
    pose proof (ReplayPortsConfig_ports mgr w node_id unit Hinit Hunit)
      as Hports.
    pose proof (ReplayPortsConfig_members mgr w node_id unit Hinit Hunit)
      as (_ & _ & Hst' & Htm').
    cbv zeta in *. unfold ports_aligned, same_ports in *.
    rewrite Hn2u, Hsdk', Hky'.
    split_and!; intros n p; rewrite ?Hst', ?Htm', Hports.
    + destruct (decide (n = node_id)); rewrite ?fmap_is_Some; apply Hst.
    + destruct (decide (n = node_id)); rewrite ?fmap_is_Some; apply Htm.
    + apply Hky.
    + apply Hsdk.
    + apply Hu.
Qed.

(** X2: in every state of the manager, [GetSdkPortId] and
    [GetPortTimeLastChanged] succeed on exactly the ports on which
    [GetPortConfig] succeeds, and the node of such a port has a unit. *)
Theorem getters_agree_on_ports (mgr : DpdkChassisManager)
        (node_id port_id : Z) :
  reachable mgr →
  ok (status_of (GetSdkPortId mgr node_id port_id))
  = ok (status_of (GetPortConfig mgr node_id port_id))
  ∧ ok (status_of (GetPortTimeLastChanged mgr node_id port_id))
    = ok (status_of (GetPortConfig mgr node_id port_id))
  ∧ (ok (status_of (GetPortConfig mgr node_id port_id)) = true →
     ok (status_of (GetUnitFromNodeId mgr node_id)) = true).
Proof.
  intros Hr.
  destruct (reachable_initialized_or_new mgr Hr) as [Hinit| ->]; [|done].
  destruct (reachable_ports_aligned mgr Hr) as (_ & Htm & _ & Hsdk & Hu).
  specialize (Htm node_id port_id). specialize (Hsdk node_id port_id).
  specialize (Hu node_id port_id).
  unfold GetSdkPortId, GetPortTimeLastChanged, GetPortConfig,
         GetUnitFromNodeId, lookup2, ret_check_error in *.
  rewrite Hinit. cbn [negb].
  destruct (node_id_to_port_id_to_port_config_ mgr !! node_id) as [cf|];
    [destruct (cf !! port_id) as [c|]|];
    (destruct (node_id_to_port_id_to_sdk_port_id_ mgr !! node_id) as [sd|];
     [destruct (sd !! port_id) as [k|]|]);
    (destruct (node_id_to_port_id_to_time_last_changed_ mgr !! node_id)
       as [tm|]; [destruct (tm !! port_id) as [t|]|]);
    cbn in *;
    try (exfalso; first [ by apply is_Some_None, Hsdk
                        | by apply is_Some_None, Htm
                        | by eapply is_Some_None, Hsdk
                        | by eapply is_Some_None, Htm ]).
  all: split; [done|]; split; [done|]; try done.
  all: intros _; destruct Hu as [u ->]; [by eexists|done].
Qed.

(** *** Port states, times and units *)

Lemma push_states_unknown (config : ChassisConfig.t) (s s1 s2 : @MgrSt W)
      (g1 g : NewMaps) :
  let ports := ChassisConfig.singleton_ports config in
  foldM push_resolve_port (push_new_maps config) ports s = (inr g1, s1) →
  foldM push_apply_port g1 ports s1 = (inr g, s2) →
  states_unknown (install g).
Proof.
  intros ports Hresolve Happly.
  assert (Hg1 : states_unknown (install g1)).
  { eapply (foldM_preserves (λ g, states_unknown (install g))
              push_resolve_port); [|exact Hresolve|].
    - intros b x t b' t' Hx [Hst Htm].
      apply push_resolve_port_inr in Hx as (unit & sdk_port & _ & ->).
      unfold states_unknown in *. cbn in *.
      split; intros n p v; rewrite lookup2_map_assign2;
        (destruct (decide _); [by intros [= <-]|]); [apply Hst|apply Htm].
    - split; by intros n p v. }
  apply push_apply_pass in Happly as (cfg & -> & _);
    [done|by eapply push_resolve_pass].
Qed.

Lemma reachable_states_unknown (mgr : DpdkChassisManager) :
  reachable mgr → states_unknown mgr.
Proof.
  revert mgr. apply (reachable_invariant states_unknown).
  - split; by intros n p v.
  - intros config mgr w g1 w1 g w2 _ _ ports Hresolve Happly.
    by eapply push_states_unknown.
  - intros node_id unit mgr w _ [Hst Htm] Hinit Hunit.
    pose proof (ReplayPortsConfig_members mgr w node_id unit Hinit Hunit)
      as (_ & _ & Hst' & Htm').
    cbv zeta in *.
    split; intros n p v; rewrite ?Hst', ?Htm';
      (destruct (decide (n = node_id)); [|by eauto]);
      rewrite fmap_Some; by intros (? & _ & ->).
Qed.

Lemma assign_units_map_back (nodes : list Node.t) :
  ∀ (unit : Z) (maps : gmap Z Z * gmap Z Z),
    (∀ n v, maps.2 !! n = Some v → v < unit ∧ maps.1 !! v = Some n) →
    ∀ n v, (assign_units nodes unit maps).2 !! n = Some v →
           (assign_units nodes unit maps).1 !! v = Some n.
Proof.
  induction nodes as [|node nodes IH]; intros unit maps Hinv n v;
    [cbn; by intros [_ ?]%Hinv|].
  cbn [assign_units]. apply IH. clear n v. intros n v. cbn [fst snd].
  destruct (decide (n = Node.id node)) as [->|Hn].
  - rewrite lookup_insert_eq. intros [= <-].
    rewrite lookup_insert_eq. split; [lia|done].
  - rewrite lookup_insert_ne by done. intros [Hlt Hv]%Hinv.
    rewrite lookup_insert_ne by lia. split; [lia|done].
Qed.

Lemma reachable_units_map_back (mgr : DpdkChassisManager) :
  reachable mgr → units_map_back mgr.
Proof.
  revert mgr. apply (reachable_invariant units_map_back).
  - by intros n u.
  - intros config mgr w g1 w1 g w2 _ _ ports Hresolve Happly.
    pose proof (push_resolve_pass_keeps ports 0 0 _ _ _ _ Hresolve)
      as (Hu2n & Hn2u & _).
    apply push_apply_pass in Happly as (cfg & -> & _);
      [|by eapply push_resolve_pass].
    unfold units_map_back. cbn. rewrite Hu2n, Hn2u. cbn.
    by apply assign_units_map_back.
  - intros node_id unit mgr w _ Hinv Hinit Hunit.
    pose proof (ReplayPortsConfig_run mgr w node_id unit Hinit Hunit)
      as (_ & _ & _ & _ & Hn2u & _).
    pose proof (ReplayPortsConfig_members mgr w node_id unit Hinit Hunit)
      as (Hu2n & _).
    cbv zeta in *. unfold units_map_back. by rewrite Hn2u, Hu2n.
Qed.

(** X5: the unit that [GetUnitFromNodeId] returns for a node is mapped back
    to that node by [unit_to_node_id_], in every state of the manager. *)
Theorem unit_of_node_maps_back (mgr : DpdkChassisManager)
        (node_id unit : Z) :
  reachable mgr →
  GetUnitFromNodeId mgr node_id = inr unit →
  unit_to_node_id_ mgr !! unit = Some node_id.
Proof.
  intros Hr Hget. apply (reachable_units_map_back mgr Hr).
  unfold GetUnitFromNodeId, ret_check_error in Hget.
  destruct (negb (initialized_ mgr)); [done|].
  destruct (node_id_to_unit_ mgr !! node_id); by simplify_eq.
Qed.

(** X4: no time of change is ever recorded: for every port it knows,
    [GetPortTimeLastChanged] returns [absl::UnixEpoch()]. *)
Theorem time_last_changed_is_epoch (mgr : DpdkChassisManager)
        (node_id port_id : Z) (time : Z) :
  reachable mgr →
  GetPortTimeLastChanged mgr node_id port_id = inr time →
  time = UnixEpoch.
Proof.
  intros Hr Hget.
  destruct (reachable_states_unknown mgr Hr) as [_ Htm].
  apply (Htm node_id port_id).
  unfold GetPortTimeLastChanged, ret_check_error, lookup2 in *.
  destruct (negb (initialized_ mgr)); [done|].
  destruct (node_id_to_port_id_to_time_last_changed_ mgr !! node_id)
    as [tm|]; [|done].
  destruct (tm !! port_id); by simplify_eq.
Qed.

End Invariants.

Section Helpers.
Context {W : Type} `{!TdiSdeInterface W} `{!Constants}.

(** What [AddPortHelper] leaves when it succeeds: the desired values, with
    the default MTU in place of an unset one.  The admin state asked for is
    then neither unknown nor the diagnostic one; the port is recorded as
    enabled when enabled is asked for, and as disabled for any other
    value. *)
Lemma AddPortHelper_success (node_id unit sdk_port_id : Z)
      (singleton_port : SingletonPort.t) (s s' : @HelperSt W) :
  AddPortHelper node_id unit sdk_port_id singleton_port s = (inr (), s') →
  let config_params := SingletonPort.config_params singleton_port in
  PortConfig.speed_bps (config s')
    = Some (SingletonPort.speed_bps singleton_port)
  ∧ PortConfig.fec_mode (config s')
    = Some (ConfigParams.fec_mode config_params)
  ∧ PortConfig.mtu (config s')
    = Some (if decide (ConfigParams.mtu config_params ≠ 0)
            then ConfigParams.mtu config_params else kDefaultMtu)
  ∧ PortConfig.autoneg (config s')
    = Some (ConfigParams.autoneg config_params)
  ∧ PortConfig.loopback_mode (config s')
    = Some (ConfigParams.loopback_mode config_params)
  ∧ PortConfig.admin_state (config s')
    = (if decide (ConfigParams.admin_state config_params
                  = ADMIN_STATE_ENABLED)
       then ADMIN_STATE_ENABLED else ADMIN_STATE_DISABLED)
  ∧ ConfigParams.admin_state config_params ≠ ADMIN_STATE_UNKNOWN
  ∧ ConfigParams.admin_state config_params ≠ ADMIN_STATE_DIAG.
Proof.
  destruct s as [[] [b0 l0]],
           singleton_port as [id name slot port channel speed node
                                 [req cmtu cautoneg cfec cloop cpt cpn]].
  unfold AddPortHelper. mrun. msteps.
  all: intros; simplify_eq; simpl.
  all: split_and!; eauto.
  all: by destruct (decide _).
Qed.

(** What [UpdatePortHelper] leaves when it succeeds on a port that was
    enabled or disabled: the desired values.  After a change of speed the
    port was added again: the MTU and the admin state are the ones
    [AddPortHelper] records.  Otherwise the MTU is the desired one as it is,
    also when it is unset, and an admin state that is neither enabled nor
    disabled leaves the cached one. *)
Lemma UpdatePortHelper_success (node_id unit sdk_port_id : Z)
      (singleton_port : SingletonPort.t) (config_old : PortConfig.t)
      (s s' : @HelperSt W) :
  UpdatePortHelper node_id unit sdk_port_id singleton_port config_old s
  = (inr (), s') →
  PortConfig.admin_state config_old = ADMIN_STATE_ENABLED
  ∨ PortConfig.admin_state config_old = ADMIN_STATE_DISABLED →
  let config_params := SingletonPort.config_params singleton_port in
  PortConfig.speed_bps (config s')
    = Some (SingletonPort.speed_bps singleton_port)
  ∧ PortConfig.fec_mode (config s')
    = Some (ConfigParams.fec_mode config_params)
  ∧ PortConfig.mtu (config s')
    = Some (if decide (Some (SingletonPort.speed_bps singleton_port)
                       ≠ PortConfig.speed_bps config_old)
            then if decide (ConfigParams.mtu config_params ≠ 0)
                 then ConfigParams.mtu config_params else kDefaultMtu
            else ConfigParams.mtu config_params)
  ∧ PortConfig.autoneg (config s')
    = Some (ConfigParams.autoneg config_params)
  ∧ PortConfig.loopback_mode (config s')
    = Some (ConfigParams.loopback_mode config_params)
  ∧ PortConfig.admin_state (config s')
    = (if decide (ConfigParams.admin_state config_params
                  = ADMIN_STATE_ENABLED)
       then ADMIN_STATE_ENABLED
       else if decide (Some (SingletonPort.speed_bps singleton_port)
                       ≠ PortConfig.speed_bps config_old)
            then ADMIN_STATE_DISABLED
            else if decide (ConfigParams.admin_state config_params
                            = ADMIN_STATE_DISABLED)
                 then ADMIN_STATE_DISABLED
                 else PortConfig.admin_state config_old)
  ∧ ConfigParams.admin_state config_params ≠ ADMIN_STATE_UNKNOWN
  ∧ ConfigParams.admin_state config_params ≠ ADMIN_STATE_DIAG.
Proof.
  intros Hrun Hwas. cbv zeta. revert Hrun.
  destruct s as [c [b0 l0]], config_old as [was osp om oa ofe ol ? ? ? ? ? ? ? ? ? ?],
           singleton_port as [id name slot port channel speed node
                                 [req cmtu cautoneg cfec cloop cpt cpn]].
  cbn [PortConfig.admin_state] in Hwas.
  unfold UpdatePortHelper. mrun.
  destruct (sde_IsValidPort unit sdk_port_id b0) as [[] b1]; mrun; [|done].
  destruct (decide (Some speed ≠ osp)) as [Hsp|Hsp]; mrun.
  - msteps. all: try done.
    match goal with
    | Hadd : AddPortHelper _ _ _ _ _ = (inr ?u, _) |- _ =>
        destruct u; apply AddPortHelper_success in Hadd;
        intros [= <-]; exact Hadd
    end.
  - msteps.
    all: intros; simplify_eq; simpl in *.
    all: apply dec_stable in Hsp.
    all: repeat match goal with
           | Hn : ¬ (Some _ ≠ _) |- _ => apply dec_stable in Hn
           end.
    all: simplify_eq.
    all: destruct Hwas; simplify_eq.
    all: try match goal with
           | n : ?r ≠ ADMIN_STATE_ENABLED |- _ => destruct r; try done
           end.
    all: split_and!; eauto.
    all: symmetry; by apply dec_stable.
Qed.

(** The configuration that a replay leaves is sane when the one it replays
    is. *)
Lemma replay_one_port_sane (mgr : DpdkChassisManager)
      (node_id unit port_id : Z) (old : PortConfig.t) (w : @World W) :
  config_sane old →
  config_sane (config (replay_one_port mgr node_id unit port_id old
                         (mkHelperSt PortConfig_default w)).2).
Proof.
  intros (_ & Hknown & _).
  destruct old as [was osp om oa ofe ol ? ? ? ? ? ? ? ? ? ?], w as [b0 l0].
  cbn [PortConfig.admin_state PortConfig.speed_bps PortConfig.fec_mode
       PortConfig.mtu] in *.
  match goal with
  | |- context [replay_one_port ?a ?b ?c ?d ?e ?f] =>
      mstart (replay_one_port a b c d e f)
  end.
  unfold replay_one_port. mrun.
  destruct (decide (was = ADMIN_STATE_UNKNOWN)) as [->|Hwas]; mrun.
  { intros <-. split_and!; [by left|done|done]. }
  destruct (Hknown Hwas) as ([sp ->] & [fe ->] & [m ->]). mrun.
  msteps.
  all: intros <-; split_and!; cbn; try done.
  all: try (intros _; split_and!; by eexists).
  all: auto.
Qed.

End Helpers.

Section Sanity.
Context {W : Type} `{!TdiSdeInterface W} `{!Constants}.

(** *** The cached configurations are sane *)

Lemma foldM_preserves_this {A B} (P : B → Prop)
      (body : B → A → M (@MgrSt W) B) (mgr : DpdkChassisManager)
      (l : list A) :
  (∀ b x s, this (body b x s).2 = this s) →
  (∀ b x s b' s',
     this s = mgr → body b x s = (inr b', s') → P b → P b') →
  ∀ b s b' s',
    this s = mgr → foldM body b l s = (inr b', s') → P b → P b'.
Proof.
  intros Hthis Hbody. induction l as [|x l IH]; intros b s b' s' Hs Hrun Hb.
  - cbn [foldM] in Hrun. mrun_in Hrun. by simplify_eq.
  - cbn [foldM] in Hrun. apply bind_inr in Hrun as (b1 & s1 & Hx & Hrun).
    eapply (IH b1 s1); [|exact Hrun|by eapply Hbody].
    specialize (Hthis b x s). rewrite Hx in Hthis. cbn in Hthis. congruence.
Qed.

Lemma config_sane_default : config_sane PortConfig_default.
Proof. split_and!; [by left|done|done]. Qed.

Lemma config_sane_known (c : PortConfig.t) :
  PortConfig.admin_state c = ADMIN_STATE_ENABLED
  ∨ PortConfig.admin_state c = ADMIN_STATE_DISABLED →
  is_Some (PortConfig.speed_bps c) →
  is_Some (PortConfig.fec_mode c) →
  is_Some (PortConfig.mtu c) →
  config_sane c.
Proof.
  intros Hadm ? ? ?. split_and!; [tauto|done|].
  destruct Hadm as [Hadm|Hadm]; by rewrite Hadm.
Qed.

Lemma configs_sane_assign (g : NewMaps) (node_id port_id : Z)
      (c : PortConfig.t) :
  config_sane c →
  configs_sane (install g) →
  configs_sane
    (install (set_node_id_to_port_id_to_port_config
                (map_assign2 node_id port_id c
                             (node_id_to_port_id_to_port_config g)) g)).
Proof.
  intros Hc Hg n p c'. cbn. rewrite lookup2_map_assign2.
  destruct (decide _); [by intros [= <-]|apply Hg].
Qed.

Lemma push_apply_port_sane (mgr : DpdkChassisManager) (g g' : NewMaps)
      (singleton_port : SingletonPort.t) (s s' : @MgrSt W) :
  configs_sane mgr →
  this s = mgr →
  push_apply_port g singleton_port s = (inr g', s') →
  configs_sane (install g) → configs_sane (install g').
Proof.
  intros Hmgr Hs Hrun Hg.
  apply push_apply_port_run in Hrun as (hs & hs' & -> & Hhelper).
  cbv zeta in Hhelper. rewrite Hs in Hhelper.
  assert (Hc : config_sane (config hs')).
  { destruct (lookup2 _ _ (node_id_to_port_id_to_port_config_ mgr))
      as [old|] eqn:Hold.
    - destruct (decide (PortConfig.admin_state old = ADMIN_STATE_UNKNOWN))
        as [|Hknown].
      + apply AddPortHelper_success in Hhelper
          as (Hsp & Hfe & Hm & _ & _ & Hadm & _).
        apply config_sane_known; rewrite ?Hadm, ?Hsp, ?Hfe, ?Hm;
          [|by eauto..].
        repeat case_decide; auto.
      + destruct Hhelper as [_ Hhelper].
        destruct (Hmgr _ _ _ Hold) as (Hnamed & _).
        assert (Hwas : PortConfig.admin_state old = ADMIN_STATE_ENABLED
                       ∨ PortConfig.admin_state old = ADMIN_STATE_DISABLED)
          by tauto.
        apply UpdatePortHelper_success in Hhelper
          as (Hsp & Hfe & Hm & _ & _ & Hadm & _); [|exact Hwas].
        apply config_sane_known; rewrite ?Hadm, ?Hsp, ?Hfe, ?Hm;
          [|by eauto..].
        repeat case_decide; auto.
    - apply AddPortHelper_success in Hhelper
        as (Hsp & Hfe & Hm & _ & _ & Hadm & _).
      apply config_sane_known; rewrite ?Hadm, ?Hsp, ?Hfe, ?Hm;
        [|by eauto..].
      repeat case_decide; auto. }
  intros n p c'. cbn. rewrite lookup2_map_assign2.
  destruct (decide _); [by intros [= <-]|apply Hg].
Qed.

Lemma reachable_configs_sane (mgr : DpdkChassisManager) :
  reachable mgr → configs_sane mgr.
Proof.
  revert mgr. apply (reachable_invariant configs_sane).
  - by intros n p c.
  - intros config mgr w g1 w1 g w2 _ Hmgr ports Hresolve Happly.
    eapply (foldM_preserves_this (λ g, configs_sane (install g))
              push_apply_port mgr);
      [apply push_apply_port_this
      |intros; by eapply (push_apply_port_sane mgr)
      | |exact Happly|]; [done|].
    eapply (foldM_preserves (λ g, configs_sane (install g))
              push_resolve_port); [|exact Hresolve|by intros n p c].
    intros b x t b' t' Hx Hb.
    apply push_resolve_port_inr in Hx as (unit & sdk_port & _ & ->).
    intros n p c. cbn. rewrite lookup2_map_assign2.
    destruct (decide _); [intros [= <-]; apply config_sane_default|apply Hb].
  - intros node_id unit mgr w _ Hmgr Hinit Hunit.
    pose proof (ReplayPortsConfig_run mgr w node_id unit Hinit Hunit)
      as (_ & _ & Hcfg & _).
    cbv zeta in Hcfg. intros n p c. rewrite Hcfg.
    set (cached := default ∅ (node_id_to_port_id_to_port_config_ mgr
                              !! node_id)).
    set (outcomes := (replay_outcomes mgr node_id unit
                        (sorted_items cached) w).1).
    assert (Hcached : ∀ q, lookup2 node_id q
                             (<[node_id := cached]>
                                (node_id_to_port_id_to_port_config_ mgr))
                           = lookup2 node_id q
                               (node_id_to_port_id_to_port_config_ mgr)).
    { intros q. unfold lookup2, cached. rewrite lookup_insert_eq.
      destruct (node_id_to_port_id_to_port_config_ mgr !! node_id); simpl;
        [done|apply lookup_empty]. }
    destruct (decide (n = node_id ∧ p ∈ ro_port_id <$> outcomes))
      as [[-> Hin]|Hout].
    + apply list_elem_of_fmap in Hin as (o & -> & Hin).
      rewrite (apply_outcomes_lookup node_id outcomes _ o)
        by (done || apply replay_outcomes_NoDup).
      intros [= <-].
      pose proof (replay_outcomes_each mgr node_id unit
                    (sorted_items cached) w) as Heach.
      rewrite Forall_forall in Heach. destruct (Heach o Hin) as [_ ->].
      apply replay_one_port_sane, (Hmgr node_id (ro_port_id o)).
      rewrite <- Hcached. unfold lookup2. rewrite lookup_insert_eq.
      apply (replay_outcomes_cached mgr node_id unit cached w). by exists o.
    + rewrite apply_outcomes_lookup_other
        by (destruct (decide (n = node_id)); [right|left]; tauto).
      destruct (decide (n = node_id)) as [->|Hn].
      * rewrite Hcached. apply Hmgr.
      * unfold lookup2. rewrite lookup_insert_ne by done. apply Hmgr.
Qed.

(** X3: the sanity check of [PushChassisConfig] never fails.  In every
    state of the manager, a cached configuration whose admin state is known
    holds a speed, a FEC mode and an MTU, one whose admin state is unknown
    is a default-constructed [PortConfig], and no cached admin state is the
    diagnostic one: a cached admin state is unknown, enabled or disabled,
    whatever the admin states of the configurations that were pushed. *)
Theorem cached_config_is_sane (mgr : DpdkChassisManager)
        (node_id port_id : Z) (c : PortConfig.t) :
  reachable mgr →
  GetPortConfig mgr node_id port_id = inr c →
  PortConfig.admin_state c ≠ ADMIN_STATE_DIAG
  ∧ (PortConfig.admin_state c ≠ ADMIN_STATE_UNKNOWN →
     is_Some (PortConfig.speed_bps c)
     ∧ is_Some (PortConfig.fec_mode c)
     ∧ is_Some (PortConfig.mtu c))
  ∧ (PortConfig.admin_state c = ADMIN_STATE_UNKNOWN →
     c = PortConfig_default)
  ∧ (PortConfig.admin_state c = ADMIN_STATE_UNKNOWN
     ∨ PortConfig.admin_state c = ADMIN_STATE_ENABLED
     ∨ PortConfig.admin_state c = ADMIN_STATE_DISABLED).
Proof.
  intros Hr Hget.
  assert (Hsane : config_sane c).
  { apply (reachable_configs_sane mgr Hr node_id port_id).
    unfold GetPortConfig, ret_check_error, lookup2 in *.
    destruct (node_id_to_port_id_to_port_config_ mgr !! node_id) as [cf|];
      [|done].
    destruct (cf !! port_id); by simplify_eq. }
  destruct Hsane as (Hnamed & Hknown & Hdefault).
  split_and!; [|done..].
  intros Hdiag. rewrite Hdiag in Hnamed.
  by destruct Hnamed as [|[|]].
Qed.

End Sanity.

Section ReadBack.
Context {W : Type} `{!TdiSdeInterface W} `{!Constants}.

(** *** What a push caches is what was asked for *)

(** The third loop assigns the entries of its ports and no other. *)
Lemma push_apply_pass_other (ports : list SingletonPort.t) (n p : Z) :
  (n, p) ∉ port_ids ports →
  ∀ (g : NewMaps) (s : @MgrSt W) g' s',
    foldM push_apply_port g ports s = (inr g', s') →
    lookup2 n p (node_id_to_port_id_to_port_config g')
    = lookup2 n p (node_id_to_port_id_to_port_config g).
Proof.
  induction ports as [|x ports IH]; intros Hout g s g' s' Hrun.
  - cbn [foldM] in Hrun. mrun_in Hrun. by simplify_eq.
  - cbn [foldM] in Hrun. apply bind_inr in Hrun as (g1 & s1 & Hx & Hrun).
    apply not_elem_of_cons in Hout as [Hne Hout].
    rewrite (IH Hout _ _ _ _ Hrun).
    apply push_apply_port_inr in Hx as (c & ->). cbn.
    rewrite lookup2_map_assign2, decide_False; [done|].
    intros [-> ->]. done.
Qed.

Lemma push_apply_port_matches (mgr : DpdkChassisManager) (g g' : NewMaps)
      (singleton_port : SingletonPort.t) (s s' : @MgrSt W) :
  configs_sane mgr →
  this s = mgr →
  push_apply_port g singleton_port s = (inr g', s') →
  ∃ c, lookup2 (SingletonPort.node singleton_port)
               (SingletonPort.id singleton_port)
               (node_id_to_port_id_to_port_config g') = Some c
       ∧ config_matches
           (lookup2 (SingletonPort.node singleton_port)
                    (SingletonPort.id singleton_port)
                    (node_id_to_port_id_to_port_config_ mgr))
           singleton_port c.
Proof.
  intros Hmgr Hs Hrun.
  apply push_apply_port_run in Hrun as (hs & hs' & -> & Hhelper).
  cbv zeta in Hhelper. rewrite Hs in Hhelper.
  exists (config hs'). cbn. rewrite lookup2_map_assign2, decide_True by done.
  split; [done|].
  unfold config_matches, admin_state_after_push, updated_in_place.
  destruct (lookup2 _ _ (node_id_to_port_id_to_port_config_ mgr))
    as [old|] eqn:Hold.
  - destruct (decide (PortConfig.admin_state old = ADMIN_STATE_UNKNOWN))
      as [Hunknown|Hknown].
    + apply AddPortHelper_success in Hhelper
        as (Hsp & Hfe & Hm & Ha & Hl & Hadm & Hreq & Hdiag).
      destruct (decide (PortConfig.admin_state old ≠ ADMIN_STATE_UNKNOWN ∧ _))
        as [[Hk _]|_]; [done|].
      split_and!; try done.
      rewrite Hadm. case_decide; auto.
    + destruct Hhelper as [_ Hhelper].
      destruct (Hmgr _ _ _ Hold) as (Hnamed & _).
      assert (Hwas : PortConfig.admin_state old = ADMIN_STATE_ENABLED
                     ∨ PortConfig.admin_state old = ADMIN_STATE_DISABLED)
        by tauto.
      apply UpdatePortHelper_success in Hhelper
        as (Hsp & Hfe & Hm & Ha & Hl & Hadm & Hreq & Hdiag);
        [|exact Hwas].
      destruct (decide (Some (SingletonPort.speed_bps singleton_port)
                        ≠ PortConfig.speed_bps old)) as [Hspeed|Hspeed].
      * destruct (decide (PortConfig.admin_state old ≠ ADMIN_STATE_UNKNOWN
                          ∧ _)) as [[_ Heq]|_];
          [by rewrite Heq in Hspeed|].
        split_and!; try done.
        rewrite Hadm. case_decide; auto.
      * apply dec_stable in Hspeed.
        destruct (decide (PortConfig.admin_state old ≠ ADMIN_STATE_UNKNOWN
                          ∧ _)) as [_|Hn]; [|by destruct Hn].
        split_and!; try done.
        rewrite Hadm. repeat case_decide; auto.
  - apply AddPortHelper_success in Hhelper
      as (Hsp & Hfe & Hm & Ha & Hl & Hadm & Hreq & Hdiag).
    split_and!; try done.
    rewrite Hadm. case_decide; auto.
Qed.

Lemma admin_state_after_push_enabled (config_old : option PortConfig.t)
      (singleton_port : SingletonPort.t) :
  ConfigParams.admin_state (SingletonPort.config_params singleton_port)
  = ADMIN_STATE_ENABLED →
  admin_state_after_push config_old singleton_port = ADMIN_STATE_ENABLED.
Proof. intros Hreq. unfold admin_state_after_push. by rewrite decide_True. Qed.

Lemma admin_state_after_push_disabled (config_old : option PortConfig.t)
      (singleton_port : SingletonPort.t) :
  ConfigParams.admin_state (SingletonPort.config_params singleton_port)
  = ADMIN_STATE_DISABLED →
  admin_state_after_push config_old singleton_port = ADMIN_STATE_DISABLED.
Proof.
  intros Hreq. unfold admin_state_after_push. rewrite Hreq.
  rewrite decide_False by done.
  destruct (updated_in_place _ _); [|done]. by rewrite decide_True.
Qed.

(** What a push cached for a port that sets its MTU is up to date. *)
Lemma config_matches_up_to_date (config_old : option PortConfig.t)
      (singleton_port : SingletonPort.t) (c : PortConfig.t) :
  config_matches config_old singleton_port c →
  ConfigParams.mtu (SingletonPort.config_params singleton_port) ≠ 0 →
  config_up_to_date singleton_port c.
Proof.
  intros (_ & _ & Hadm & Hnamed & Hsp & Hfe & Ha & Hl & Hm) Hmtu.
  unfold config_up_to_date. split_and!; try done.
  - intros Hreq. rewrite Hadm. by apply admin_state_after_push_enabled.
  - intros Hreq. rewrite Hadm. by apply admin_state_after_push_disabled.
  - rewrite Hm. destruct (updated_in_place _ _); [done|].
    by rewrite decide_True.
Qed.

Lemma push_apply_pass_matches (mgr : DpdkChassisManager)
      (ports : list SingletonPort.t) :
  configs_sane mgr →
  NoDup (port_ids ports) →
  ∀ (g : NewMaps) (s : @MgrSt W) g' s',
    this s = mgr →
    foldM push_apply_port g ports s = (inr g', s') →
    Forall (λ singleton_port,
              ∃ c, lookup2 (SingletonPort.node singleton_port)
                           (SingletonPort.id singleton_port)
                           (node_id_to_port_id_to_port_config g') = Some c
                   ∧ config_matches
                       (lookup2 (SingletonPort.node singleton_port)
                                (SingletonPort.id singleton_port)
                                (node_id_to_port_id_to_port_config_ mgr))
                       singleton_port c) ports.
Proof.
  intros Hmgr. induction ports as [|x ports IH];
    intros Hnd g s g' s' Hs Hrun; [constructor|].
  cbn [foldM] in Hrun. apply bind_inr in Hrun as (g1 & s1 & Hx & Hrun).
  cbn in Hnd. apply NoDup_cons in Hnd as [Hfresh Hnd].
  assert (Hs1 : this s1 = mgr).
  { pose proof (push_apply_port_this g x s) as Ht. rewrite Hx in Ht.
    cbn in Ht. congruence. }
  constructor; [|by eapply (IH Hnd g1 s1)].
  rewrite (push_apply_pass_other ports _ _ Hfresh _ _ _ _ Hrun).
  exact (push_apply_port_matches mgr g g1 x s s1 Hmgr Hs Hx).
Qed.

Lemma push_caches_lookup (config : ChassisConfig.t)
      (mgr : DpdkChassisManager) (w : World)
      (singleton_port : SingletonPort.t) :
  reachable mgr →
  NoDup (port_ids (ChassisConfig.singleton_ports config)) →
  singleton_port ∈ ChassisConfig.singleton_ports config →
  let r := PushChassisConfig config (mkMgrSt mgr w) in
  r.1 = inr () →
  initialized_ (this r.2) = true
  ∧ ∃ c, lookup2 (SingletonPort.node singleton_port)
                 (SingletonPort.id singleton_port)
                 (node_id_to_port_id_to_port_config_ (this r.2)) = Some c
         ∧ config_matches
             (lookup2 (SingletonPort.node singleton_port)
                      (SingletonPort.id singleton_port)
                      (node_id_to_port_id_to_port_config_ mgr))
             singleton_port c.
Proof.
  intros Hr Hnd Hin r Hok.
  pose proof (PushChassisConfig_outcome config mgr w
                (reachable_ports_resolved mgr Hr)) as Hout.
  cbv zeta in Hout. fold r in Hout. rewrite Hok in Hout.
  destruct Hout as (g1 & s1 & g & s2 & Hresolve & Happly & _ & Hr2).
  rewrite Hr2. cbn [this snd]. split; [reflexivity|].
  assert (Hs1 : this s1 = mgr).
  { pose proof (foldM_this push_resolve_port
                  (ChassisConfig.singleton_ports config)
                  push_resolve_port_this (push_new_maps config)
                  (mkMgrSt mgr w)) as Ht.
    by rewrite Hresolve in Ht. }
  pose proof (push_apply_pass_matches mgr _ (reachable_configs_sane mgr Hr)
                Hnd g1 s1 g s2 Hs1 Happly) as Hall.
  rewrite Forall_forall in Hall. exact (Hall _ Hin).
Qed.

(** X6: a push that succeeds, of a configuration in which no two ports of a
    node share an id, leaves for every port of the configuration a cached
    [PortConfig] that matches what the configuration asks for
    ([config_matches]): the speed, the FEC mode, the autoneg and the
    loopback values asked for; the admin state enabled or disabled as asked
    for, and for any other number that the push accepts, disabled for a
    port that was added and the state it had for a port that was updated in
    place; the MTU asked for, and for an unset MTU the default one for a
    port that was added and 0 for a port that was updated in place. *)
Theorem push_caches_desired_config (config : ChassisConfig.t)
        (mgr : DpdkChassisManager) (w : World)
        (singleton_port : SingletonPort.t) :
  reachable mgr →
  NoDup (port_ids (ChassisConfig.singleton_ports config)) →
  singleton_port ∈ ChassisConfig.singleton_ports config →
  let node_id := SingletonPort.node singleton_port in
  let port_id := SingletonPort.id singleton_port in
  let config_old :=
    lookup2 node_id port_id (node_id_to_port_id_to_port_config_ mgr) in
  let r := PushChassisConfig config (mkMgrSt mgr w) in
  r.1 = inr () →
  ∃ c, GetPortConfig (this r.2) node_id port_id = inr c
       ∧ config_matches config_old singleton_port c.
Proof.
  intros Hr Hnd Hin node_id port_id config_old r Hok.
  destruct (push_caches_lookup config mgr w singleton_port Hr Hnd Hin Hok)
    as (_ & c & Hc & Hm).
  exists c. split; [|done].
  subst r node_id port_id. clear Hm.
  unfold GetPortConfig. unfold lookup2 in Hc.
  destruct (node_id_to_port_id_to_port_config_ _ !! _); [|done].
  by rewrite Hc.
Qed.

End ReadBack.

Section CallLog.
Context {W : Type} `{!TdiSdeInterface W} `{!Constants}.

(** *** The calls a member function can make *)

Section Generic.
Context {S : Type} `{!HasWorld (W := W) S} (Q : SdeCall → Prop).

Lemma appends_pure {A} (m : M S A) :
  (∀ s, get_world (m s).2 = get_world s) → appends Q m.
Proof.
  intros Hm s. exists []. rewrite Hm, app_nil_r. by split.
Qed.

Lemma appends_ret {A} (a : A) : appends Q (mret a : M S A).
Proof. by apply appends_pure. Qed.

Lemma appends_fail {A} (code : ErrorCode) (msg : string) :
  appends Q (fail code msg : M S A).
Proof. by apply appends_pure. Qed.

Lemma appends_error {A} (e : Error) :
  appends Q ((λ s, (inl e, s)) : M S A).
Proof. by apply appends_pure. Qed.

Lemma appends_gets {A} (f : S → A) : appends Q (gets f).
Proof. by apply appends_pure. Qed.

Lemma appends_from_bind {A B} (m : M S A) (k : A → M S B) (s : S) :
  appends_from Q m s →
  (∀ a s1, m s = (inr a, s1) → appends_from Q (k a) s1) →
  appends_from Q (m ≫= k) s.
Proof.
  intros (l1 & Hl1 & HQ1) Hk. unfold appends_from. rewrite bind_run.
  destruct (m s) as [[e|a] s1]; cbn [snd] in *; [by exists l1|].
  destruct (Hk a s1 eq_refl) as (l2 & Hl2 & HQ2).
  exists (l1 ++ l2). rewrite Hl2, Hl1, app_assoc. split; [done|].
  by apply Forall_app.
Qed.

Lemma appends_from_foldM {A B} (I : S → Prop) (body : B → A → M S B)
      (l : list A) :
  (∀ b x s, x ∈ l → I s →
     appends_from Q (body b x) s
     ∧ ∀ b' s', body b x s = (inr b', s') → I s') →
  ∀ b s, I s → appends_from Q (foldM body b l) s.
Proof.
  induction l as [|x l IH]; intros Hbody b s Hs.
  - exists []. cbn. by rewrite app_nil_r.
  - cbn [foldM]. destruct (Hbody b x s) as [Hx Hnext]; [by left|done|].
    apply appends_from_bind; [done|]. intros b' s' Hrun.
    apply IH; [|by eapply Hnext].
    intros b0 y s0 Hy. apply Hbody. by right.
Qed.

Lemma appends_from_for_each {A} (I : S → Prop) (body : A → M S ())
      (l : list A) :
  (∀ x s, x ∈ l → I s →
     appends_from Q (body x) s
     ∧ ∀ u s', body x s = (inr u, s') → I s') →
  ∀ s, I s → appends_from Q (for_each l body) s.
Proof.
  induction l as [|x l IH]; intros Hbody s Hs.
  - exists []. cbn. by rewrite app_nil_r.
  - cbn [for_each]. destruct (Hbody x s) as [Hx Hnext]; [by left|done|].
    apply appends_from_bind; [done|]. intros u s' Hrun.
    apply IH; [|by eapply Hnext].
    intros y s0 Hy. apply Hbody. by right.
Qed.

Lemma appends_bind {A B} (m : M S A) (k : A → M S B) :
  appends Q m → (∀ a, appends Q (k a)) → appends Q (m ≫= k).
Proof.
  intros Hm Hk s. apply appends_from_bind; [apply Hm|]. intros a s1 _.
  apply Hk.
Qed.

Lemma appends_RET_CHECK (cond : bool) (msg : string) :
  appends Q (RET_CHECK cond msg : M S ()).
Proof. destruct cond; [apply appends_ret|apply appends_fail]. Qed.

Lemma appends_RETURN_IF_ERROR (m : M S Status) :
  appends Q m → appends Q (RETURN_IF_ERROR m).
Proof.
  intros Hm. apply appends_bind; [done|].
  intros []; [apply appends_ret|apply appends_error].
Qed.

Lemma appends_ASSIGN_OR_RETURN {A} (m : M S (StatusOr A)) :
  appends Q m → appends Q (ASSIGN_OR_RETURN m).
Proof.
  intros Hm. apply appends_bind; [done|].
  intros []; [apply appends_error|apply appends_ret].
Qed.

Lemma appends_status_value (m : M S ()) :
  appends Q m → appends Q (status_value m).
Proof.
  intros Hm s. destruct (Hm s) as (l & Hl & HQ). exists l.
  unfold status_value. by destruct (m s) as [[e|[]] s1].
Qed.

Lemma appends_foldM {A B} (body : B → A → M S B) (l : list A) :
  (∀ b x, appends Q (body b x)) → ∀ b, appends Q (foldM body b l).
Proof.
  intros Hbody. induction l as [|x l IH]; intros b; [apply appends_ret|].
  cbn [foldM]. by apply appends_bind.
Qed.

Lemma appends_for_each {A} (body : A → M S ()) (l : list A) :
  (∀ x, appends Q (body x)) → appends Q (for_each l body).
Proof.
  intros Hbody. induction l as [|x l IH]; [apply appends_ret|].
  cbn [for_each]. by apply appends_bind.
Qed.

End Generic.

Lemma appends_sde_call {S} `{!HasWorld (W := W) S} (Q : SdeCall → Prop)
      {A} (c : SdeCall) (f : W → A * W) :
  (∀ s w, get_world (set_world w s) = w) →
  Q c → appends Q (sde_call (S := S) c f).
Proof.
  intros Hsw Hc s. exists [c]. unfold sde_call. cbn [snd].
  rewrite Hsw. cbn. split; [done|]. by constructor.
Qed.

Lemma appends_set_config (Q : SdeCall → Prop)
      (f : PortConfig.t → PortConfig.t) :
  appends (W := W) Q (set_config f).
Proof. by apply appends_pure. Qed.

Lemma appends_modify_this (Q : SdeCall → Prop)
      (f : DpdkChassisManager → DpdkChassisManager) :
  appends (W := W) Q (modify_this f).
Proof. by apply appends_pure. Qed.

Lemma appends_run_helper (Q : SdeCall → Prop) (m : M (@HelperSt W) ())
      (c : PortConfig.t) :
  appends Q m → appends Q (run_helper m c).
Proof.
  intros Hm s. destruct (Hm (mkHelperSt c (mworld s))) as (l & Hl & HQ).
  exists l. by split.
Qed.

End CallLog.

(** Settles [appends] along the structure of a computation. *)
Ltac appends_step :=
  lazymatch goal with
  | |- appends _ (mret _) => apply appends_ret
  | |- appends _ (fail _ _) => apply appends_fail
  | |- appends _ (gets _) => apply appends_gets
  | |- appends _ (RET_CHECK _ _) => apply appends_RET_CHECK
  | |- appends _ (set_config _) => apply appends_set_config
  | |- appends _ (modify_this _) => apply appends_modify_this
  | |- appends _ (RETURN_IF_ERROR _) => apply appends_RETURN_IF_ERROR
  | |- appends _ (ASSIGN_OR_RETURN _) => apply appends_ASSIGN_OR_RETURN
  | |- appends _ (status_value _) => apply appends_status_value
  | |- appends _ (run_helper _ _) => apply appends_run_helper
  | |- appends _ (sde_call _ _) => apply appends_sde_call; [by intros [] ?|]
  | |- appends _ (mbind _ _) => apply appends_bind; [|intros]
  | |- appends _ (foldM _ _ _) => apply appends_foldM; intros
  | |- appends _ (for_each _ _) => apply appends_for_each; intros
  | |- appends _ (match ?x with _ => _ end) => destruct x
  | |- appends _ (λ s, (inl _, s)) => apply appends_error
  end.

Ltac solve_appends := repeat appends_step.

Section CallsOf.
Context {W : Type} `{!TdiSdeInterface W} `{!Constants}.

Lemma AddPortHelper_appends (node_id unit sdk_port_id : Z)
      (singleton_port : SingletonPort.t) :
  appends (W := W) never_issued
          (AddPortHelper node_id unit sdk_port_id singleton_port).
Proof.
  unfold AddPortHelper, AddPort_params, SetPortAutonegPolicy,
         SetPortLoopbackMode.
  solve_appends. all: done.
Qed.

Lemma UpdatePortHelper_appends (node_id unit sdk_port_id : Z)
      (singleton_port : SingletonPort.t) (config_old : PortConfig.t) :
  appends (W := W) never_issued
          (UpdatePortHelper node_id unit sdk_port_id singleton_port
                            config_old).
Proof.
  unfold UpdatePortHelper, IsValidPort, DisablePort, DeletePort,
         SetPortAutonegPolicy, SetPortLoopbackMode.
  solve_appends. all: try done. all: apply AddPortHelper_appends.
Qed.

Lemma replay_one_port_appends (mgr : DpdkChassisManager)
      (node_id unit port_id : Z) (old : PortConfig.t) :
  appends (W := W) never_issued
          (replay_one_port mgr node_id unit port_id old).
Proof.
  unfold replay_one_port, AddPort, SetPortAutonegPolicy,
         SetPortLoopbackMode.
  solve_appends. all: done.
Qed.

Lemma push_resolve_port_appends (g : NewMaps)
      (singleton_port : SingletonPort.t) :
  appends (W := W) never_issued (push_resolve_port g singleton_port).
Proof.
  unfold push_resolve_port, GetPortIdFromPortKey.
  solve_appends. all: done.
Qed.

Lemma on_new_config_appends (node_id port_id : Z) (g : NewMaps)
      (helper : M (@HelperSt W) ()) :
  appends never_issued helper →
  appends never_issued (on_new_config node_id port_id g helper).
Proof. intros Hh. unfold on_new_config. solve_appends. done. Qed.

Lemma push_apply_port_appends (g : NewMaps)
      (singleton_port : SingletonPort.t) :
  appends (W := W) never_issued (push_apply_port g singleton_port).
Proof.
  unfold push_apply_port, IsValidPort, DeletePort.
  solve_appends. all: try done.
  all: apply on_new_config_appends;
    first [apply AddPortHelper_appends|apply UpdatePortHelper_appends].
Qed.

Lemma push_cleanup_port_appends (g : NewMaps) (node_id port_id : Z) :
  appends (W := W) never_issued (push_cleanup_port g node_id port_id).
Proof.
  unfold push_cleanup_port, DeletePort. solve_appends. all: done.
Qed.

Lemma PushChassisConfig_appends (config : ChassisConfig.t) :
  appends (W := W) never_issued (PushChassisConfig config).
Proof.
  unfold PushChassisConfig.
  apply appends_bind;
    [apply appends_foldM; intros; apply push_resolve_port_appends|intros].
  apply appends_bind;
    [apply appends_foldM; intros; apply push_apply_port_appends|intros].
  apply appends_bind; [apply appends_gets|intros].
  apply appends_bind; [|intros; apply appends_modify_this].
  apply appends_for_each; intros. apply appends_for_each; intros.
  apply push_cleanup_port_appends.
Qed.

Lemma replay_port_appends (node_id unit : Z) (status : Status)
      (p : Z * PortConfig.t) :
  appends (W := W) never_issued (replay_port node_id unit status p).
Proof.
  unfold replay_port. solve_appends. apply replay_one_port_appends.
Qed.

Lemma ReplayPortsConfig_appends (node_id : Z) :
  appends (W := W) never_issued (ReplayPortsConfig node_id).
Proof.
  unfold ReplayPortsConfig.
  solve_appends. apply replay_port_appends.
Qed.

Lemma appends_count {S} `{!HasWorld (W := W) S} {A} (Q : SdeCall → Prop)
      (f : SdeCall → bool) (m : M S A) (s : S) :
  (∀ c, Q c → f c = false) →
  appends Q m →
  count_calls f (calls (get_world (m s).2))
  = count_calls f (calls (get_world s)).
Proof.
  intros HQ Hm. destruct (Hm s) as (l & -> & Hl).
  apply count_calls_app_none. unfold count_calls.
  induction Hl as [|c l Hc _ IH]; [done|].
  rewrite filter_cons, decide_False; [done|]. by rewrite (HQ c Hc).
Qed.

(** X7: [PushChassisConfig] and [ReplayPortsConfig] never call
    [EnablePort] or [SetPortMtu], whatever the configuration and the
    backend: a port they record as enabled was not enabled by them, and an
    MTU they record was not set by them. *)
Theorem push_and_replay_never_enable (config : ChassisConfig.t)
        (node_id : Z) (s : @MgrSt W) :
  let pushed := calls (mworld (PushChassisConfig config s).2) in
  let replayed := calls (mworld (ReplayPortsConfig node_id s).2) in
  count_calls is_EnablePort pushed
  = count_calls is_EnablePort (calls (mworld s))
  ∧ count_calls is_SetPortMtu pushed
    = count_calls is_SetPortMtu (calls (mworld s))
  ∧ count_calls is_EnablePort replayed
    = count_calls is_EnablePort (calls (mworld s))
  ∧ count_calls is_SetPortMtu replayed
    = count_calls is_SetPortMtu (calls (mworld s)).
Proof.
  cbv zeta.
  pose proof (λ f, appends_count (S := MgrSt) never_issued f
                     (PushChassisConfig config) s) as Hpush.
  pose proof (λ f, appends_count (S := MgrSt) never_issued f
                     (ReplayPortsConfig node_id) s) as Hreplay.
  cbn [get_world MgrSt_world] in Hpush, Hreplay.
  split_and!; first [apply Hpush|apply Hreplay];
    first [ by intros c [? ?]
          | apply PushChassisConfig_appends
          | apply ReplayPortsConfig_appends ].
Qed.

Lemma verify_config_layout_appends (config : ChassisConfig.t) :
  appends (W := W) (λ c, is_GetPortIdFromPortKey c = true)
          (verify_config_layout config).
Proof.
  unfold verify_config_layout.
  solve_appends.
  - unfold verify_node. solve_appends.
  - unfold verify_singleton_port. solve_appends.
  - unfold verify_port_exists, GetPortIdFromPortKey. solve_appends. done.
Qed.

(** X8: [VerifyChassisConfig] changes no member of the manager, and the
    only calls it makes to the backend are [GetPortIdFromPortKey] queries:
    none of them changes the backend. *)
Theorem verify_only_queries (config : ChassisConfig.t) (s : @MgrSt W) :
  let r := VerifyChassisConfig config s in
  this r.2 = this s
  ∧ ∃ l, calls (mworld r.2) = calls (mworld s) ++ l
         ∧ Forall (λ c, is_GetPortIdFromPortKey c = true) l
         ∧ count_calls is_mutation l = 0%nat.
Proof.
  cbv zeta. split; [apply VerifyChassisConfig_this|].
  assert (Hv : appends (W := W) (λ c, is_GetPortIdFromPortKey c = true)
                       (VerifyChassisConfig config)).
  { unfold VerifyChassisConfig.
    apply appends_bind; [apply verify_config_layout_appends|intros].
    solve_appends. }
  destruct (Hv s) as (l & Hl & HQ). exists l. split; [done|].
  split; [done|]. unfold count_calls. clear Hl.
  induction HQ as [|c l Hc _ IH]; [done|].
  rewrite filter_cons, decide_False; [done|]. by destruct c.
Qed.

End CallsOf.

Section Verify.
Context {W : Type} `{!TdiSdeInterface W} `{!Constants}.

(** *** What VerifyChassisConfig accepts *)

Lemma RET_CHECK_inr (cond : bool) (msg : string) (s s' : @MgrSt W) (u : ()) :
  RET_CHECK cond msg s = (inr u, s') → cond = true ∧ s' = s.
Proof. destruct cond; [|done]. by intros [= _ <-]. Qed.

Lemma foldM_verify_node_ok (nodes : list Node.t) :
  ∀ (acc m : gmap Z Z) (s s' : @MgrSt W),
    foldM verify_node acc nodes s = (inr m, s') →
    Forall (λ node, 0 < Node.slot node ∧ 0 < Node.id node) nodes
    ∧ NoDup (Node.id <$> nodes)
    ∧ ∀ k, k ∈ Node.id <$> nodes → acc !! k = None.
Proof.
  induction nodes as [|node nodes IH]; intros acc m s s' Hrun.
  - split; [constructor|]. split; [constructor|].
    by intros k ?%elem_of_nil.
  - cbn [foldM] in Hrun. apply bind_inr in Hrun as (acc' & s1 & Hnode & Hrun).
    apply IH in Hrun as (Hall & Hnd & Hfresh).
    unfold verify_node in Hnode.
    apply bind_inr in Hnode as (? & ? & [Hslot ->]%RET_CHECK_inr & Hnode).
    apply bind_inr in Hnode as (? & ? & [Hid ->]%RET_CHECK_inr & Hnode).
    apply bind_inr in Hnode as (? & ? & [Hnew ->]%RET_CHECK_inr & Hnode).
    mrun_in Hnode. simplify_eq.
    apply bool_decide_eq_true in Hslot, Hid, Hnew.
    split; [by constructor|]. split.
    + cbn. constructor; [|done]. intros Hin. apply Hfresh in Hin.
      by rewrite lookup_insert_eq in Hin.
    + intros k [->|Hin]%elem_of_cons; [done|].
      apply Hfresh in Hin.
      destruct (decide (k = Node.id node)) as [->|Hne];
        [by rewrite lookup_insert_eq in Hin|].
      by rewrite lookup_insert_ne in Hin.
Qed.

Lemma assign_units_keys (nodes : list Node.t) :
  ∀ (unit : Z) (a m : gmap Z Z) (k : Z),
    is_Some ((assign_units nodes unit (a, m)).2 !! k) →
    is_Some (m !! k) ∨ k ∈ Node.id <$> nodes.
Proof.
  induction nodes as [|node nodes IH]; intros unit a m k Hk; [by left|].
  cbn [assign_units fst snd] in Hk. apply IH in Hk as [Hk|Hk].
  - destruct (decide (k = Node.id node)) as [->|Hne].
    + right. cbn. left.
    + rewrite lookup_insert_ne in Hk by done. by left.
  - right. cbn. by right.
Qed.

(** The port key of a singleton port. *)
Lemma foldM_verify_singleton_port_ok (node_id_to_unit : gmap Z Z)
      (ports : list SingletonPort.t) :
  ∀ (acc acc' : gmap Z (gset Z) * gset PortKey) (s s' : @MgrSt W),
    foldM (verify_singleton_port node_id_to_unit) acc ports s
    = (inr acc', s') →
    Forall (λ p, SingletonPort.id p ≠ kCpuPortId
                 ∧ 0 < SingletonPort.slot p
                 ∧ 0 < SingletonPort.port p
                 ∧ 0 < SingletonPort.speed_bps p
                 ∧ 0 < SingletonPort.node p
                 ∧ is_Some (node_id_to_unit !! SingletonPort.node p)) ports
    ∧ NoDup (port_key_of <$> ports)
    ∧ NoDup (port_ids ports)
    ∧ (∀ k, k ∈ port_key_of <$> ports → k ∉ acc.2)
    ∧ (∀ n p, (n, p) ∈ port_ids ports → p ∉ default ∅ (acc.1 !! n)).
Proof.
  induction ports as [|x ports IH]; intros acc acc' s s' Hrun.
  - split_and!; try constructor;
      [by intros k ?%elem_of_nil|by intros n p ?%elem_of_nil].
  - cbn [foldM] in Hrun. apply bind_inr in Hrun as (acc1 & s1 & Hx & Hrun).
    apply IH in Hrun as (Hall & Hkeys & Hids & Hfk & Hfi).
    unfold verify_singleton_port in Hx.
    apply bind_inr in Hx as (? & ? & [Hcpu ->]%RET_CHECK_inr & Hx).
    apply bind_inr in Hx as (? & ? & [Hslot ->]%RET_CHECK_inr & Hx).
    apply bind_inr in Hx as (? & ? & [Hport ->]%RET_CHECK_inr & Hx).
    apply bind_inr in Hx as (? & ? & [Hspeed ->]%RET_CHECK_inr & Hx).
    apply bind_inr in Hx as (? & ? & [Hkey ->]%RET_CHECK_inr & Hx).
    apply bind_inr in Hx as (? & ? & [Hnode ->]%RET_CHECK_inr & Hx).
    apply bind_inr in Hx as (? & ? & [Hknown ->]%RET_CHECK_inr & Hx).
    apply bind_inr in Hx as (? & ? & [Hid ->]%RET_CHECK_inr & Hx).
    mrun_in Hx. simplify_eq.
    apply bool_decide_eq_true in Hcpu, Hslot, Hport, Hspeed, Hkey, Hnode,
          Hknown, Hid.
    cbn [fst snd] in *.
    split_and!.
    + by constructor.
    + cbn. constructor; [|done]. intros Hin. apply Hfk in Hin.
      apply Hin, elem_of_union_l. by apply elem_of_singleton.
    + cbn. constructor; [|done]. intros Hin. apply Hfi in Hin.
      rewrite lookup_insert_eq in Hin. cbn in Hin.
      apply Hin, elem_of_union_l. by apply elem_of_singleton.
    + intros k [->|Hin]%elem_of_cons; [done|].
      apply Hfk in Hin. intros Hk. by apply Hin, elem_of_union_r.
    + intros n p [[= -> ->]|Hin]%elem_of_cons; [done|].
      apply Hfi in Hin.
      destruct (decide (n = SingletonPort.node x)) as [->|Hne].
      * rewrite lookup_insert_eq in Hin. cbn in Hin.
        intros Hp. by apply Hin, elem_of_union_r.
      * by rewrite lookup_insert_ne in Hin.
Qed.

(** X9: a configuration that [VerifyChassisConfig] accepts is well formed:
    no trunk ports and no port groups, a supported platform, at least one
    node, nodes with positive slots and distinct positive ids, and singleton
    ports with positive slot, port and speed, an id other than the CPU
    port's, the id of a node of the configuration, and no two of them with
    the same (slot, port, channel) or with the same id on the same node. *)
Theorem verify_ok_wellformed (config : ChassisConfig.t) (s : @MgrSt W) :
  (VerifyChassisConfig config s).1 = inr () →
  let nodes := ChassisConfig.nodes config in
  let ports := ChassisConfig.singleton_ports config in
  ChassisConfig.trunk_ports_size config = 0
  ∧ ChassisConfig.port_groups_size config = 0
  ∧ (∃ chassis,
       ChassisConfig.chassis config = Some chassis
       ∧ Chassis.platform chassis
         ∈ [PLT_GENERIC_BAREFOOT_TOFINO; PLT_GENERIC_BAREFOOT_TOFINO2;
            PLT_P4_SOFT_SWITCH])
  ∧ nodes ≠ []
  ∧ Forall (λ node, 0 < Node.slot node ∧ 0 < Node.id node) nodes
  ∧ NoDup (Node.id <$> nodes)
  ∧ Forall (λ p, SingletonPort.id p ≠ kCpuPortId
                 ∧ 0 < SingletonPort.slot p
                 ∧ 0 < SingletonPort.port p
                 ∧ 0 < SingletonPort.speed_bps p
                 ∧ SingletonPort.node p ∈ Node.id <$> nodes) ports
  ∧ NoDup (port_key_of <$> ports)
  ∧ NoDup (port_ids ports).
Proof.
  intros Hok nodes ports.
  destruct (VerifyChassisConfig config s) as [res s'] eqn:Hrun.
  cbn in Hok. subst res. unfold VerifyChassisConfig in Hrun.
  apply bind_inr in Hrun as (layout & s1 & Hlayout & _).
  unfold verify_config_layout in Hlayout.
  apply bind_inr in Hlayout as (? & ? & [Htrunk ->]%RET_CHECK_inr & Hlayout).
  apply bind_inr in Hlayout as (? & ? & [Hgroups ->]%RET_CHECK_inr & Hlayout).
  apply bind_inr in Hlayout as (? & ? & [Hnodes ->]%RET_CHECK_inr & Hlayout).
  apply bind_inr in Hlayout as (? & ? & [Hplt ->]%RET_CHECK_inr & Hlayout).
  apply bind_inr in Hlayout as (? & ? & Hsupported & Hlayout).
  apply bind_inr in Hlayout as (m & s2 & Hverify_nodes & Hlayout).
  apply bind_inr in Hlayout as (? & s3 & Hverify_ports & _).
  apply bool_decide_eq_true in Htrunk, Hgroups, Hnodes.
  pose proof (foldM_verify_node_ok _ _ _ _ _ Hverify_nodes)
    as (Hnode_ok & Hnode_nd & _).
  apply foldM_verify_singleton_port_ok in Hverify_ports
    as (Hport_ok & Hkeys & Hids & _ & _).
  split_and!; try done.
  - destruct (ChassisConfig.chassis config) as [[platform]|]; [|done].
    exists (Chassis.mk platform). split; [done|]. cbn in *.
    destruct platform; try done; set_solver.
  - eapply Forall_impl; [exact Hport_ok|].
    intros p (? & ? & ? & ? & ? & Hknown). split_and!; try done.
    apply assign_units_keys in Hknown as [Hm|?]; [|done].
    by destruct (foldM_verify_node_keys _ _ _ _ _ Hverify_nodes _ Hm)
      as [[? ?]|?].
Qed.

End Verify.

(** [mrun], with the state of [GetPortData]. *)
Ltac drun :=
  mrun; cbn [dmgr port_state_queries this mworld sde calls fst snd]; mrun.

Section PortDataProperties.
Context {W : Type} `{!TdiSdeInterface W} `{!TdiSdeStateQuery W}
        `{!Constants} `{!DataConstants}.

(** *** GetPortState and GetPortData *)

Lemma GetPortState_this (node_id port_id : Z) (s : @DataSt W) :
  this (dmgr (GetPortState node_id port_id s).2) = this (dmgr s).
Proof.
  destruct s as [[mgr [b0 l0]] qs]. cbn [dmgr this].
  mstart (GetPortState node_id port_id
            (mkDataSt (mkMgrSt mgr (mkWorld b0 l0)) qs)).
  unfold GetPortState, GetUnitFromNodeId, GetSdkPortId, ret_check_error,
         sde_interface_GetPortState.
  drun. msteps; drun. all: try by intros <-.
Qed.

Lemma bind_this {A B} (m : M (@DataSt W) A) (k : A → M DataSt B)
      (s : DataSt) :
  this (dmgr (m s).2) = this (dmgr s) →
  (∀ a s1, this (dmgr (k a s1).2) = this (dmgr s1)) →
  this (dmgr ((m ≫= k) s).2) = this (dmgr s).
Proof.
  intros Hm Hk. rewrite bind_run.
  destruct (m s) as [[e|a] s1]; cbn [snd] in *; [done|].
  by rewrite Hk.
Qed.

Lemma GetPortData_this (request : Request) (s : @DataSt W) :
  this (dmgr (GetPortData request s).2) = this (dmgr s).
Proof.
  unfold GetPortData.
  repeat lazymatch goal with
    | |- this (dmgr (mbind _ _ _).2) = _ =>
        apply bind_this; [|intros ? ?]
    | |- this (dmgr (GetPortState _ _ _).2) = _ => apply GetPortState_this
    | |- this (dmgr (call_member _ ?s).2) = _ =>
        destruct s; apply GetPortCounters_this
    | |- this (dmgr (ASSIGN_OR_RETURN (mret ?x) _).2) = _ => by destruct x
    | |- this (dmgr (match ?x with _ => _ end _).2) = _ => destruct x
    | |- this (dmgr (mret _ _).2) = _ => reflexivity
    | |- this (dmgr (fail _ _ _).2) = _ => reflexivity
    | |- this (dmgr (gets _ _).2) = _ => reflexivity
    end.
Qed.

Lemma bind_same {A B} (m : M (@DataSt W) A) (k : A → M DataSt B)
      (s : DataSt) :
  (m s).2 = s → (∀ a, (k a s).2 = s) → ((m ≫= k) s).2 = s.
Proof.
  intros Hm Hk. rewrite bind_run.
  destruct (m s) as [[e|a] s1]; cbn [snd] in *; subst s1; [done|].
  apply Hk.
Qed.

(** X10: [GetPortData] changes no member of the manager.  On a manager that
    is not initialized it fails, whatever the request, with the
    not-initialized error and without a call to the backend.  A request
    other than the operational status, the negotiated speed and the
    counters is answered from the members alone: the backend is not
    called.  *)
Theorem GetPortData_reads_members (request : Request) (s : @DataSt W) :
  let r := GetPortData request s in
  this (dmgr r.2) = this (dmgr s)
  ∧ (initialized_ (this (dmgr s)) = false →
     r = (inl (MAKE_ERROR ERR_NOT_INITIALIZED "Not initialized!"), s))
  ∧ (cached_request request = true → r.2 = s).
Proof.
  cbv zeta. split; [apply GetPortData_this|]. split.
  - intros Hinit. unfold GetPortData. rewrite bind_run. cbn [gets].
    by rewrite Hinit.
  - intros Hcached. unfold GetPortData.
    destruct request; try discriminate Hcached.
    all: repeat lazymatch goal with
           | |- (mbind _ _ _).2 = _ => apply bind_same; [|intros ?]
           | |- (ASSIGN_OR_RETURN (mret ?x) _).2 = _ => by destruct x
           | |- (match ?x with _ => _ end _).2 = _ => destruct x
           | |- (mret _ _).2 = _ => reflexivity
           | |- (fail _ _ _).2 = _ => reflexivity
           | |- (gets _ _).2 = _ => reflexivity
           end.
Qed.

(** X11: after a push that succeeds, of a configuration in which no two
    ports of a node share an id, [GetPortData] answers the requests for the
    speed, the FEC mode, the autoneg state and the loopback state of a port
    of the configuration with what the configuration asks for, and the
    request for its admin state with the state that the push recorded
    ([admin_state_after_push]): enabled or disabled as asked for, and, for
    any other number that the push accepts, disabled for a port that was
    added and the state it had for a port that was updated in place.  No
    call is made to the backend. *)
Theorem GetPortData_after_push (config : ChassisConfig.t)
        (mgr : DpdkChassisManager) (w : World)
        (singleton_port : SingletonPort.t) (queries : list (Z * Z)) :
  reachable mgr →
  NoDup (port_ids (ChassisConfig.singleton_ports config)) →
  singleton_port ∈ ChassisConfig.singleton_ports config →
  let r := PushChassisConfig config (mkMgrSt mgr w) in
  r.1 = inr () →
  let s := mkDataSt r.2 queries in
  let node_id := SingletonPort.node singleton_port in
  let port_id := SingletonPort.id singleton_port in
  let config_params := SingletonPort.config_params singleton_port in
  let config_old :=
    lookup2 node_id port_id (node_id_to_port_id_to_port_config_ mgr) in
  let state := admin_state_after_push config_old singleton_port in
  GetPortData (ReqAdminStatus node_id port_id) s
  = (inr (RespAdminStatus state), s)
  ∧ (state = ADMIN_STATE_ENABLED ∨ state = ADMIN_STATE_DISABLED)
  ∧ (ConfigParams.admin_state config_params = ADMIN_STATE_ENABLED →
     state = ADMIN_STATE_ENABLED)
  ∧ (ConfigParams.admin_state config_params = ADMIN_STATE_DISABLED →
     state = ADMIN_STATE_DISABLED)
  ∧ GetPortData (ReqPortSpeed node_id port_id) s
    = (inr (RespPortSpeed (SingletonPort.speed_bps singleton_port)), s)
  ∧ GetPortData (ReqFecStatus node_id port_id) s
    = (inr (RespFecStatus (ConfigParams.fec_mode config_params)), s)
  ∧ GetPortData (ReqAutonegStatus node_id port_id) s
    = (inr (RespAutonegStatus (ConfigParams.autoneg config_params)), s)
  ∧ GetPortData (ReqLoopbackStatus node_id port_id) s
    = (inr (RespLoopbackStatus (ConfigParams.loopback_mode config_params)),
       s).
Proof.
  intros Hr Hnd Hin r Hok s node_id port_id config_params config_old state.
  destruct (push_caches_lookup config mgr w singleton_port Hr Hnd Hin Hok)
    as (Hinit & c & Hc & _ & _ & Hadm & Hnamed & Hsp & Hfe & Ha & Hl & _).
  fold node_id port_id config_old state in Hadm.
  assert (Hen : ConfigParams.admin_state config_params = ADMIN_STATE_ENABLED
                → state = ADMIN_STATE_ENABLED)
    by apply admin_state_after_push_enabled.
  assert (Hdis : ConfigParams.admin_state config_params
                 = ADMIN_STATE_DISABLED → state = ADMIN_STATE_DISABLED)
    by apply admin_state_after_push_disabled.
  rewrite Hadm in Hnamed. clearbody state. clear config_old.
  subst r node_id port_id config_params.
  match type of Hinit with
  | initialized_ (this ?x) = _ => set (r2 := x) in *
  end.
  clearbody r2. clear Hok. destruct r2 as [m2 [b2 l2]]. cbn [this] in *.
  assert (Hget : GetPortConfig m2 (SingletonPort.node singleton_port)
                               (SingletonPort.id singleton_port) = inr c).
  { unfold GetPortConfig, lookup2 in *.
    destruct (node_id_to_port_id_to_port_config_ m2 !! _); [|done].
    by rewrite Hc. }
  unfold GetPortData. subst s. clear Hin Hc.
  split_and!; [|exact Hnamed|exact Hen|exact Hdis|..]; clear Hen Hdis Hnamed.
  all: destruct singleton_port as [id name slot port channel speed node
                                      [req cmtu cautoneg cfec cloop cpt cpn]],
                c as [adm osp om oa ofe ol ? ? ? ? ? ? ? ? ? ?].
  all: cbn in Hadm, Hsp, Hfe, Ha, Hl, Hget; subst.
  all: drun; rewrite Hinit; drun; rewrite Hget; by drun.
Qed.

(** X12: no port state is ever cached.  In every state of the manager, for
    a port whose configuration is cached, [GetPortState] asks the backend,
    with the unit of the node and the SDK port id of the port, and returns
    its answer; [GetPortData] answers a request for the operational status
    with that state, and with [absl::UnixEpoch()] as the time of the last
    change. *)
Theorem oper_status_is_queried (mgr : DpdkChassisManager) (w : World)
        (queries : list (Z * Z)) (node_id port_id : Z) (c : PortConfig.t) :
  reachable mgr →
  GetPortConfig mgr node_id port_id = inr c →
  ∃ unit sdk_port_id,
    GetUnitFromNodeId mgr node_id = inr unit
    ∧ GetSdkPortId mgr node_id port_id = inr sdk_port_id
    ∧ let s := mkDataSt (mkMgrSt mgr w) queries in
      let q := sde_GetPortState unit sdk_port_id (sde w) in
      let s' := mkDataSt (mkMgrSt mgr (mkWorld q.2 (calls w)))
                         (queries ++ [(unit, sdk_port_id)]) in
      GetPortState node_id port_id s = (q.1, s')
      ∧ GetPortData (ReqOperStatus node_id port_id) s
        = (match q.1 with
           | inl e => inl e
           | inr state => inr (RespOperStatus state UnixEpoch)
           end, s').
Proof.
  intros Hr Hget.
  assert (Hc : lookup2 node_id port_id
                       (node_id_to_port_id_to_port_config_ mgr) = Some c).
  { unfold GetPortConfig, ret_check_error, lookup2 in *.
    destruct (node_id_to_port_id_to_port_config_ mgr !! node_id) as [cf|];
      [|done].
    destruct (cf !! port_id); by simplify_eq. }
  destruct (reachable_initialized_or_new mgr Hr) as [Hinit| ->]; [|done].
  destruct (reachable_ports_aligned mgr Hr) as (Hst & Htm & _ & Hsdk & Hu).
  destruct (reachable_states_unknown mgr Hr) as [Hunk Hepoch].
  destruct (Hu node_id port_id) as [unit Hunit]; [by eexists|].
  destruct (proj1 (Hsdk node_id port_id)) as [sdk Hk]; [by eexists|].
  destruct (proj1 (Hst node_id port_id)) as [st Hstate]; [by eexists|].
  destruct (proj1 (Htm node_id port_id)) as [tm Htime]; [by eexists|].
  pose proof (Hunk _ _ _ Hstate) as ->.
  pose proof (Hepoch _ _ _ Htime) as ->.
  exists unit, sdk.
  assert (Hgu : GetUnitFromNodeId mgr node_id = inr unit)
    by (unfold GetUnitFromNodeId; by rewrite Hinit, Hunit).
  assert (Hgs : GetSdkPortId mgr node_id port_id = inr sdk).
  { unfold GetSdkPortId, lookup2 in *. rewrite Hinit. cbn [negb].
    destruct (node_id_to_port_id_to_sdk_port_id_ mgr !! node_id); [|done].
    by rewrite Hk. }
  assert (Hgt : GetPortTimeLastChanged mgr node_id port_id = inr UnixEpoch).
  { unfold GetPortTimeLastChanged, lookup2 in *. rewrite Hinit. cbn [negb].
    destruct (node_id_to_port_id_to_time_last_changed_ mgr !! node_id);
      [|done].
    by rewrite Htime. }
  split; [done|]. split; [done|]. cbv zeta.
  assert (Hstate_run :
    GetPortState node_id port_id (mkDataSt (mkMgrSt mgr w) queries)
    = ((sde_GetPortState unit sdk (sde w)).1,
       mkDataSt (mkMgrSt mgr
                   (mkWorld (sde_GetPortState unit sdk (sde w)).2 (calls w)))
                (queries ++ [(unit, sdk)]))).
  { unfold GetPortState, sde_interface_GetPortState. destruct w as [b0 l0].
    drun. rewrite Hinit. drun. rewrite Hgu. drun.
    unfold lookup2 in Hstate.
    destruct (node_id_to_port_id_to_port_state_ mgr !! node_id) as [states|];
      [|done].
    rewrite Hstate. rewrite decide_False by (by intros ?).
    rewrite Hgs. drun.
    by destruct (sde_GetPortState unit sdk b0) as [[e|state] b1]. }
  split; [exact Hstate_run|].
  unfold GetPortData. rewrite bind_run. cbn [gets dmgr this].
  rewrite Hinit. cbn [negb]. rewrite !bind_run. cbn [mret M_ret].
  rewrite bind_run, Hstate_run.
  destruct (sde_GetPortState unit sdk (sde w)) as [[e|state] b1];
    cbn [fst snd]; [done|].
  rewrite Hgt. by drun.
Qed.

End PortDataProperties.

Section ReplayRoundTrip.
Context {W : Type} `{!TdiSdeInterface W} `{!Constants}.

(** *** A replay that the backend accepts *)

Lemma replay_one_port_accepted (mgr : DpdkChassisManager)
      (node_id unit port_id sdk_port_id : Z) (old : PortConfig.t)
      (w : @World W) :
  (∀ u p s f b, (sde_AddPort u p s f b).1 = OkStatus) →
  (∀ u p a b, (sde_SetPortAutonegPolicy u p a b).1 = OkStatus) →
  (∀ u p l b, (sde_SetPortLoopbackMode u p l b).1 = OkStatus) →
  config_sane old →
  GetSdkPortId mgr node_id port_id = inr sdk_port_id →
  let r := replay_one_port mgr node_id unit port_id old
                           (mkHelperSt PortConfig_default w) in
  r.1 = inr ()
  ∧ PortConfig.admin_state (config r.2) = PortConfig.admin_state old
  ∧ PortConfig.speed_bps (config r.2) = PortConfig.speed_bps old
  ∧ PortConfig.fec_mode (config r.2) = PortConfig.fec_mode old
  ∧ PortConfig.mtu (config r.2) = PortConfig.mtu old
  ∧ PortConfig.autoneg (config r.2) = PortConfig.autoneg old
  ∧ PortConfig.loopback_mode (config r.2) = PortConfig.loopback_mode old.
Proof.
  intros Hadd Hauto Hloop (Hnamed & Hknown & Hunknown) Hsdk. cbv zeta.
  destruct (decide (PortConfig.admin_state old = ADMIN_STATE_UNKNOWN))
    as [Hunk|Hwas].
  { rewrite (Hunknown Hunk). unfold replay_one_port. by cbn. }
  destruct (Hknown Hwas) as ([sp Hsp] & [fe Hfe] & [m Hm]).
  destruct old as [was osp om oa ofe ol ? ? ? ? ? ? ? ? ? ?], w as [b0 l0].
  cbn in Hsp, Hfe, Hm, Hwas, Hnamed. subst osp ofe om.
  match goal with
  | |- context [replay_one_port ?a ?b ?c ?d ?e ?f] =>
      mstart (replay_one_port a b c d e f)
  end.
  unfold replay_one_port. mrun.
  rewrite decide_False by done. rewrite Hsdk. mrun.
  pose proof (Hadd unit sdk_port_id sp fe b0) as Ha.
  destruct (sde_AddPort unit sdk_port_id sp fe b0) as [st1 b1].
  cbn in Ha. subst st1. mrun.
  destruct oa as [a|]; mrun.
  - pose proof (Hauto unit sdk_port_id a b1) as Hb.
    destruct (sde_SetPortAutonegPolicy unit sdk_port_id a b1) as [st2 b2].
    cbn in Hb. subst st2. mrun.
    destruct ol as [l|]; mrun.
    + pose proof (Hloop unit sdk_port_id l b2) as Hc.
      destruct (sde_SetPortLoopbackMode unit sdk_port_id l b2) as [st3 b3].
      cbn in Hc. subst st3. mrun.
      destruct Hnamed as [?|[-> | ->]]; try done; mrun; by intros <-.
    + destruct Hnamed as [?|[-> | ->]]; try done; mrun; by intros <-.
  - destruct ol as [l|]; mrun.
    + pose proof (Hloop unit sdk_port_id l b1) as Hc.
      destruct (sde_SetPortLoopbackMode unit sdk_port_id l b1) as [st3 b3].
      cbn in Hc. subst st3. mrun.
      destruct Hnamed as [?|[-> | ->]]; try done; mrun; by intros <-.
    + destruct Hnamed as [?|[-> | ->]]; try done; mrun; by intros <-.
Qed.

(** X13: a port is cached for a node, and the backend accepts the calls
    [AddPort], [SetPortAutonegPolicy] and [SetPortLoopbackMode].  Then the
    replay of that node succeeds, and the port keeps the admin state, the
    speed, the FEC mode, the MTU, the autoneg state and the loopback state
    that were cached.  (Without a cached port the replay can fail: on a
    manager that is not initialized, and for a node without a unit.) *)
Theorem replay_keeps_cached_fields (mgr : DpdkChassisManager) (w : World)
        (node_id port_id : Z) (c : PortConfig.t) :
  reachable mgr →
  (∀ u p s f b, (sde_AddPort u p s f b).1 = OkStatus) →
  (∀ u p a b, (sde_SetPortAutonegPolicy u p a b).1 = OkStatus) →
  (∀ u p l b, (sde_SetPortLoopbackMode u p l b).1 = OkStatus) →
  GetPortConfig mgr node_id port_id = inr c →
  let r := ReplayPortsConfig node_id (mkMgrSt mgr w) in
  r.1 = inr ()
  ∧ ∃ c', GetPortConfig (this r.2) node_id port_id = inr c'
          ∧ PortConfig.admin_state c' = PortConfig.admin_state c
          ∧ PortConfig.speed_bps c' = PortConfig.speed_bps c
          ∧ PortConfig.fec_mode c' = PortConfig.fec_mode c
          ∧ PortConfig.mtu c' = PortConfig.mtu c
          ∧ PortConfig.autoneg c' = PortConfig.autoneg c
          ∧ PortConfig.loopback_mode c' = PortConfig.loopback_mode c.
Proof.
  intros Hr Hadd Hauto Hloop Hget r.
  assert (Hc : lookup2 node_id port_id
                       (node_id_to_port_id_to_port_config_ mgr) = Some c).
  { unfold GetPortConfig, ret_check_error, lookup2 in *.
    destruct (node_id_to_port_id_to_port_config_ mgr !! node_id) as [cf|];
      [|done].
    destruct (cf !! port_id); by simplify_eq. }
  destruct (reachable_initialized_or_new mgr Hr) as [Hinit| ->]; [|done].
  destruct (reachable_ports_aligned mgr Hr) as (_ & _ & _ & Hsdk & Hu).
  pose proof (reachable_configs_sane mgr Hr) as Hsane.
  destruct (Hu node_id port_id) as [unit Hunit]; [by eexists|].
  pose proof (ReplayPortsConfig_run mgr w node_id unit Hinit Hunit)
    as (Hstatus & _ & Hcfg & _).
  cbv zeta in Hstatus, Hcfg. fold r in Hstatus, Hcfg.
  set (cached := default ∅ (node_id_to_port_id_to_port_config_ mgr
                            !! node_id)) in *.
  set (outcomes := (replay_outcomes mgr node_id unit
                      (sorted_items cached) w).1) in *.
  assert (Hcached : ∀ q, cached !! q
                         = lookup2 node_id q
                             (node_id_to_port_id_to_port_config_ mgr)).
  { intros q. unfold lookup2, cached.
    destruct (node_id_to_port_id_to_port_config_ mgr !! node_id); simpl;
      [done|apply lookup_empty]. }
  pose proof (replay_outcomes_each mgr node_id unit (sorted_items cached) w)
    as Heach.
  fold outcomes in Heach. rewrite Forall_forall in Heach.
  assert (Hone : ∀ o, o ∈ outcomes →
            ro_status o = OkStatus
            ∧ PortConfig.admin_state (ro_config o)
              = PortConfig.admin_state (ro_old o)
            ∧ PortConfig.speed_bps (ro_config o)
              = PortConfig.speed_bps (ro_old o)
            ∧ PortConfig.fec_mode (ro_config o)
              = PortConfig.fec_mode (ro_old o)
            ∧ PortConfig.mtu (ro_config o) = PortConfig.mtu (ro_old o)
            ∧ PortConfig.autoneg (ro_config o)
              = PortConfig.autoneg (ro_old o)
            ∧ PortConfig.loopback_mode (ro_config o)
              = PortConfig.loopback_mode (ro_old o)).
  { intros o Hin. destruct (Heach o Hin) as [-> ->].
    assert (Hold : cached !! ro_port_id o = Some (ro_old o))
      by (apply (replay_outcomes_cached mgr node_id unit cached w);
          by exists o).
    rewrite Hcached in Hold.
    destruct (proj1 (Hsdk node_id (ro_port_id o))) as [k Hk];
      [by eexists|].
    assert (Hgs : GetSdkPortId mgr node_id (ro_port_id o) = inr k).
    { unfold GetSdkPortId, lookup2 in *. rewrite Hinit. cbn [negb].
      destruct (node_id_to_port_id_to_sdk_port_id_ mgr !! node_id); [|done].
      by rewrite Hk. }
    destruct (replay_one_port_accepted mgr node_id unit (ro_port_id o) k
                (ro_old o) (ro_before o) Hadd Hauto Hloop
                (Hsane _ _ _ Hold) Hgs) as (Hok & Hrest).
    split; [by rewrite Hok|exact Hrest]. }
  split.
  - assert (Hagg : aggregate (ro_status <$> outcomes) = OkStatus).
    { apply aggregate_ok, Forall_fmap, Forall_forall.
      intros o Hin. apply (Hone o Hin). }
    rewrite Hagg in Hstatus. by destruct r.1 as [e|[]].
  - assert (Hold : cached !! port_id = Some c) by (by rewrite Hcached).
    apply (replay_outcomes_cached mgr node_id unit cached w) in Hold
      as (o & Hin & <- & <-).
    exists (ro_config o). split; [|apply (Hone o Hin)].
    pose proof (apply_outcomes_lookup node_id outcomes
                  (<[node_id := cached]>
                     (node_id_to_port_id_to_port_config_ mgr)) o
                  (replay_outcomes_NoDup mgr node_id unit cached w) Hin)
      as Hnew.
    rewrite <- Hcfg in Hnew.
    unfold GetPortConfig, lookup2 in *.
    destruct (node_id_to_port_id_to_port_config_ (this r.2) !! node_id);
      [|done].
    by rewrite Hnew.
Qed.

End ReplayRoundTrip.

Section Repush.
Context {W : Type} `{!TdiSdeInterface W} `{!Constants}.

(** *** Pushing a configuration again *)


(** [UpdatePortHelper] on a port whose cached configuration holds what is
    asked for, MTU included: the validity of the port is queried, nothing
    else is called, and the configuration stays as it is. *)
Lemma UpdatePortHelper_unchanged (node_id unit sdk_port_id : Z)
      (singleton_port : SingletonPort.t) (c : PortConfig.t)
      (hs : @HelperSt W) :
  config_up_to_date singleton_port c →
  let r := UpdatePortHelper node_id unit sdk_port_id singleton_port c hs in
  calls (world r.2)
  = calls (world hs) ++ [CallIsValidPort unit sdk_port_id]
  ∧ (r.1 = inr () → config r.2 = c).
Proof.
  intros (Hnamed & Hen & Hdis & Hsp & Hfe & Ha & Hl & Hm). cbv zeta.
  destruct hs as [c0 [b0 l0]], c as [was osp om oa ofe ol ? ? ? ? ? ? ? ? ? ?],
           singleton_port as [id name slot port channel speed node
                                 [req cmtu cautoneg cfec cloop cpt cpn]].
  cbn in Hnamed, Hen, Hdis, Hsp, Hfe, Ha, Hl, Hm. subst.
  match goal with
  | |- context [UpdatePortHelper ?a ?b ?c ?d ?e ?f] =>
      mstart (UpdatePortHelper a b c d e f)
  end.
  unfold UpdatePortHelper. mrun.
  destruct (sde_IsValidPort unit sdk_port_id b0) as [[] b1]; mrun;
    [|by intros <-].
  rewrite !(decide_False (P := Some _ ≠ Some _)) by (by intros ?). mrun.
  destruct (decide (req = ADMIN_STATE_UNKNOWN)); mrun; [by intros <-|].
  destruct (decide (req = ADMIN_STATE_DIAG)); mrun; [by intros <-|].
  destruct (decide (req = ADMIN_STATE_DISABLED)) as [Hreq|Hreq]; mrun.
  { rewrite (Hdis Hreq). mrun. by intros <-. }
  destruct (decide (req = ADMIN_STATE_ENABLED)) as [Hreq'|Hreq']; mrun.
  { rewrite (Hen Hreq'). mrun. by intros <-. }
  by intros <-.
Qed.

Lemma on_new_config_world (node_id port_id : Z) (g : NewMaps)
      (helper : M (@HelperSt W) ()) (s : MgrSt) :
  mworld (on_new_config node_id port_id g helper s).2
  = world (helper
             (mkHelperSt
                (default PortConfig_default
                   (lookup2 node_id port_id
                            (node_id_to_port_id_to_port_config g)))
                (mworld s))).2.
Proof.
  unfold on_new_config. rewrite map_index2_eq. cbn [fst snd].
  unfold run_helper. rewrite bind_run.
  by destruct (helper _) as [[e|[]] hs'].
Qed.

Lemma push_apply_port_unchanged (mgr : DpdkChassisManager) (g : NewMaps)
      (singleton_port : SingletonPort.t) (c : PortConfig.t)
      (s : @MgrSt W) :
  this s = mgr →
  lookup2 (SingletonPort.node singleton_port)
          (SingletonPort.id singleton_port)
          (node_id_to_port_id_to_port_config_ mgr) = Some c →
  config_up_to_date singleton_port c →
  appends_from (λ call, is_mutation call = false)
               (push_apply_port g singleton_port) s.
Proof.
  intros Hs Hc Hmatch.
  pose proof Hmatch as (Hnamed & _ & _ & Hsp & _).
  unfold push_apply_port, appends_from. rewrite bind_run. cbn [gets].
  rewrite Hs, Hc.
  rewrite decide_False
    by (by destruct Hnamed as [-> | ->]).
  rewrite bind_run, decide_False by (by rewrite Hsp). cbn [mret M_ret].
  cbn [get_world MgrSt_world]. rewrite on_new_config_world.
  match goal with
  | |- context [UpdatePortHelper ?a ?b ?c ?d ?e ?f] =>
      destruct (UpdatePortHelper_unchanged a b c d e f Hmatch)
        as [Hcalls _]
  end.
  cbv zeta in Hcalls. rewrite Hcalls. cbn [world calls].
  eexists. split; [done|]. by constructor.
Qed.

Lemma push_resolve_port_queries (g : NewMaps)
      (singleton_port : SingletonPort.t) :
  appends (W := W) (λ call, is_mutation call = false)
          (push_resolve_port g singleton_port).
Proof.
  unfold push_resolve_port, GetPortIdFromPortKey.
  solve_appends. all: done.
Qed.

(** The ports that the new maps hold after the two loops over the
    configuration. *)
Lemma push_resolve_pass_ports (ports : list SingletonPort.t) (n p : Z) :
  ∀ (g : NewMaps) (s : @MgrSt W) g1 s1,
    foldM push_resolve_port g ports s = (inr g1, s1) →
    is_Some (lookup2 n p (node_id_to_port_id_to_port_config g1))
    ↔ is_Some (lookup2 n p (node_id_to_port_id_to_port_config g))
      ∨ (n, p) ∈ port_ids ports.
Proof.
  induction ports as [|x ports IH]; intros g s g1 s1 Hrun.
  - cbn [foldM] in Hrun. mrun_in Hrun. simplify_eq.
    split; [by left|]. intros [?|Hin]; [done|]. by apply elem_of_nil in Hin.
  - cbn [foldM] in Hrun. apply bind_inr in Hrun as (g' & s' & Hx & Hrun).
    rewrite (IH _ _ _ _ Hrun).
    apply push_resolve_port_inr in Hx as (unit & sdk_port & _ & ->).
    cbn. rewrite is_Some_lookup2_map_assign2, elem_of_cons.
    split.
    + intros [[[-> ->]|?]|?]; [right; by left|by left|right; by right].
    + intros [?|[[= -> ->]|?]];
        [left; by right|left; by left|by right].
Qed.

Lemma push_passes_ports (config : ChassisConfig.t) (s s1 s2 : @MgrSt W)
      (g1 g : NewMaps) (n p : Z) :
  let ports := ChassisConfig.singleton_ports config in
  foldM push_resolve_port (push_new_maps config) ports s = (inr g1, s1) →
  foldM push_apply_port g1 ports s1 = (inr g, s2) →
  is_Some (lookup2 n p (node_id_to_port_id_to_port_config g))
  ↔ (n, p) ∈ port_ids ports.
Proof.
  intros ports Hresolve Happly.
  pose proof (push_resolve_pass_ports ports n p _ _ _ _ Hresolve) as Hdom.
  apply push_apply_pass in Happly as (cfg & -> & Hcfg);
    [|by eapply push_resolve_pass].
  cbn. etrans; [apply Hcfg|]. etrans; [apply Hdom|].
  cbn. unfold lookup2. rewrite lookup_empty.
  split; [by intros [[? ?]|?]|by right].
Qed.

Lemma push_cleanup_port_skip (g : NewMaps) (node_id port_id : Z)
      (s : @MgrSt W) :
  is_Some (lookup2 node_id port_id (node_id_to_port_id_to_port_config g)) →
  push_cleanup_port g node_id port_id s = (inr (), s).
Proof.
  unfold push_cleanup_port, lookup2. intros Hin.
  destruct (node_id_to_port_id_to_port_config g !! node_id) as [ports|];
    [|by destruct Hin].
  by rewrite bool_decide_eq_true_2.
Qed.

(** X14: a configuration in which no two ports of a node share an id, and
    every port sets its MTU, was pushed with success; it is pushed again.
    The second push makes no call that changes the backend, whatever the
    backend answers: it only queries it. *)
Theorem repush_issues_no_mutation (config : ChassisConfig.t)
        (mgr : DpdkChassisManager) (w w2 : World) :
  reachable mgr →
  NoDup (port_ids (ChassisConfig.singleton_ports config)) →
  Forall (λ singleton_port,
            ConfigParams.mtu (SingletonPort.config_params singleton_port)
            ≠ 0)
         (ChassisConfig.singleton_ports config) →
  let first := PushChassisConfig config (mkMgrSt mgr w) in
  first.1 = inr () →
  let second := PushChassisConfig config (mkMgrSt (this first.2) w2) in
  ∃ l, calls (mworld second.2) = calls w2 ++ l
       ∧ Forall (λ call, is_mutation call = false) l.
Proof.
  intros Hr Hnd Hmtu first Hok second.
  set (ports := ChassisConfig.singleton_ports config) in *.
  set (mgr1 := this first.2) in *.
  (* what the first push cached *)
  assert (Hcached : ∀ x, x ∈ ports →
            ∃ c, lookup2 (SingletonPort.node x) (SingletonPort.id x)
                         (node_id_to_port_id_to_port_config_ mgr1) = Some c
                 ∧ config_up_to_date x c).
  { intros x Hx.
    destruct (push_caches_lookup config mgr w x Hr Hnd Hx Hok)
      as (_ & c & Hc & Hmatch).
    exists c. split; [exact Hc|].
    apply (config_matches_up_to_date _ _ _ Hmatch).
    rewrite Forall_forall in Hmtu. exact (Hmtu x Hx). }
  assert (Hdom : ∀ n p,
            is_Some (lookup2 n p (node_id_to_port_id_to_port_config_ mgr1)) →
            (n, p) ∈ port_ids ports).
  { intros n p.
    pose proof (PushChassisConfig_outcome config mgr w
                  (reachable_ports_resolved mgr Hr)) as Hout.
    cbv zeta in Hout. fold first in Hout. rewrite Hok in Hout.
    destruct Hout as (g1 & s1 & g & s2 & Hresolve & Happly & _ & Hr2).
    subst mgr1. rewrite Hr2. cbn [this snd install
                                  node_id_to_port_id_to_port_config_].
    by apply (push_passes_ports config _ _ _ _ _ n p Hresolve Happly). }
  clearbody mgr1. clear first Hok.
  subst second. rewrite PushChassisConfig_passes. fold ports.
  change (appends_from (λ call, is_mutation call = false)
            (g ← foldM push_resolve_port (push_new_maps config) ports;
             g ← foldM push_apply_port g ports;
             push_cleanup g ;; modify_this (λ _, install g))
            (mkMgrSt mgr1 w2)).
  apply appends_from_bind.
  { apply appends_foldM. intros. apply push_resolve_port_queries. }
  intros g1 s1 Hresolve.
  assert (Hs1 : this s1 = mgr1).
  { pose proof (foldM_this push_resolve_port ports push_resolve_port_this
                  (push_new_maps config) (mkMgrSt mgr1 w2)) as Ht.
    by rewrite Hresolve in Ht. }
  apply appends_from_bind.
  { apply (appends_from_foldM _ (λ s, this s = mgr1)); [|done].
    intros b x s Hx Hs. split.
    - destruct (Hcached x Hx) as (c & Hc & Hmatch).
      by eapply push_apply_port_unchanged.
    - intros b' s' Hrun.
      pose proof (push_apply_port_this b x s) as Ht.
      rewrite Hrun in Ht. cbn in Ht. congruence. }
  intros g2 s2 Happly.
  assert (Hs2 : this s2 = mgr1).
  { pose proof (foldM_this push_apply_port ports push_apply_port_this
                  g1 s1) as Ht.
    rewrite Happly in Ht. cbn in Ht. congruence. }
  apply appends_from_bind; [|intros; by apply appends_modify_this].
  unfold push_cleanup.
  apply appends_from_bind; [by apply appends_gets|].
  intros m s3 [= <- <-]. rewrite Hs2.
  apply (appends_from_for_each _ (λ _, True)); [|done].
  intros [n inner] s4 Hn _. split; [|done]. cbn [fst snd].
  apply (appends_from_for_each _ (λ _, True)); [|done].
  intros [p c] s5 Hp _. split; [|done]. cbn [fst snd].
  apply elem_of_sorted_items in Hn, Hp.
  unfold appends_from. rewrite push_cleanup_port_skip.
  - exists []. cbn. by rewrite app_nil_r.
  - apply (push_passes_ports config _ _ _ _ _ n p Hresolve Happly).
    apply Hdom. unfold lookup2. rewrite Hn, Hp. by eexists.
Qed.

End Repush.

Section Interfaces.
Import Stdlib.Strings.Ascii Bmv2.

Lemma foldl_parse_interface (args : list string) (ifaces : list (Z * string)) :
  foldl parse_interface ifaces args
  = ifaces ++ foldl parse_interface [] args.
Proof.
  revert ifaces. induction args as [|arg args IH]; intros ifaces; simpl.
  { by rewrite app_nil_r. }
  rewrite IH, (IH (parse_interface [] arg)), app_assoc. f_equal.
  unfold parse_interface. destruct (strchr _ arg); simpl; [done|].
  by rewrite app_nil_r.
Qed.

Lemma ParseInterfaces_app (prog : string) (before after : list string) :
  ParseInterfaces (prog :: before ++ after)
  = ParseInterfaces (prog :: before) ++ ParseInterfaces (prog :: after).
Proof.
  unfold ParseInterfaces. simpl. rewrite foldl_app.
  apply foldl_parse_interface.
Qed.

Lemma parse_sign_other (a : ascii) (rest : string) :
  a ≠ "-"%char → a ≠ "+"%char →
  parse_sign (String a rest) = (false, 0%nat, String a rest).
Proof.
  intros Hminus Hplus. unfold parse_sign.
  destruct a as [[] [] [] [] [] [] [] []]; try reflexivity; done.
Qed.

Lemma digit_of_digit_char (d : Z) :
  0 ≤ d ≤ 9 → digit_of (digit_char d) = Some d.
Proof.
  intros Hd.
  assert (Hcases : d = 0 ∨ d = 1 ∨ d = 2 ∨ d = 3 ∨ d = 4 ∨ d = 5 ∨ d = 6
                   ∨ d = 7 ∨ d = 8 ∨ d = 9) by lia.
  destruct Hcases as [->|[->|[->|[->|[->|[->|[->|[->|[->| ->]]]]]]]]];
    reflexivity.
Qed.

Lemma digit_char_plain (d : Z) :
  0 ≤ d ≤ 9 →
  isspace (digit_char d) = false
  ∧ digit_char d ≠ "-"%char ∧ digit_char d ≠ "+"%char
  ∧ Ascii.eqb (digit_char d) "@" = false.
Proof.
  intros Hd.
  assert (Hcases : d = 0 ∨ d = 1 ∨ d = 2 ∨ d = 3 ∨ d = 4 ∨ d = 5 ∨ d = 6
                   ∨ d = 7 ∨ d = 8 ∨ d = 9) by lia.
  destruct Hcases as [->|[->|[->|[->|[->|[->|[->|[->|[->| ->]]]]]]]]];
    split_and!; done.
Qed.

Lemma digits_decimal (ds : list Z) (acc : Z) (rest : string) :
  Forall (λ d, 0 ≤ d ≤ 9) ds →
  (∀ a tl, rest = String a tl → digit_of a = None) →
  digits acc (decimal ds +:+ rest)
  = (foldl (λ acc d, 10 * acc + d) acc ds, length ds).
Proof.
  intros Hds Hrest. revert acc.
  induction Hds as [|d ds Hd _ IH]; intros acc; simpl.
  - destruct rest as [|a tl]; simpl; [done|].
    by rewrite (Hrest a tl eq_refl).
  - fold (digit_char d). rewrite (digit_of_digit_char d Hd).
    fold (decimal ds). by rewrite IH.
Qed.

Lemma string_drop_app (s rest : string) :
  string_drop (String.length s) (s +:+ rest) = rest.
Proof. induction s as [|a s IH]; simpl; [by destruct rest|exact IH]. Qed.

Lemma decimal_length (ds : list Z) :
  String.length (decimal ds) = length ds.
Proof. induction ds as [|d ds IH]; simpl; [done|]. by f_equal. Qed.

Lemma decimal_value_bounds (ds : list Z) (acc : Z) :
  Forall (λ d, 0 ≤ d ≤ 9) ds → 0 ≤ acc →
  0 ≤ foldl (λ acc d, 10 * acc + d) acc ds.
Proof.
  intros Hds. revert acc.
  induction Hds as [|d ds Hd _ IH]; intros acc Hacc; simpl; [done|].
  apply IH. lia.
Qed.

Lemma parse_interface_numbered (ds : list Z) (name : string) :
  ds ≠ [] → Forall (λ d, 0 ≤ d ≤ 9) ds → decimal_value ds < 2 ^ 31 →
  parse_interface [] (decimal ds +:+ String "@" name)
  = [(decimal_value ds, name)].
Proof.
  intros Hne Hds Hlt.
  pose proof (decimal_value_bounds ds 0 Hds ltac:(done)) as Hpos.
  fold (decimal_value ds) in Hpos.
  destruct ds as [|d ds]; [done|].
  pose proof Hds as Hds'. apply Forall_cons in Hds' as [Hd Htl].
  destruct (digit_char_plain d Hd) as (Hspace & Hminus & Hplus & Hat).
  assert (Hdigits : digits 0 (decimal (d :: ds) +:+ String "@" name)
                    = (decimal_value (d :: ds), length (d :: ds))).
  { apply digits_decimal; [done|]. by intros a tl [= <- _]. }
  unfold parse_interface.
  assert (Hchr : is_Some (strchr "@" (decimal (d :: ds) +:+ String "@" name))).
  { clear. generalize (d :: ds). intros l.
    induction l as [|x l IH]; simpl; [by eexists|].
    destruct (Ascii.eqb _ _); [by eexists|].
    destruct IH as [k ->]. by eexists. }
  destruct Hchr as [k ->].
  unfold strtol.
  assert (Hskip : skip_spaces (decimal (d :: ds) +:+ String "@" name)
                  = (0%nat, decimal (d :: ds) +:+ String "@" name)).
  { simpl. fold (digit_char d). by rewrite Hspace. }
  rewrite Hskip. cbn [fst snd].
  assert (Hsign : parse_sign (decimal (d :: ds) +:+ String "@" name)
                  = (false, 0%nat, decimal (d :: ds) +:+ String "@" name)).
  { simpl. fold (digit_char d). by apply parse_sign_other. }
  rewrite Hsign.
  rewrite Hdigits. cbn [fst snd length Nat.eqb app].
  f_equal. f_equal.
  - unfold to_int, LONG_MIN, LONG_MAX.
    change (2 ^ 31) with 2147483648 in *.
    change (2 ^ 32) with 4294967296.
    change (2 ^ 63) with 9223372036854775808.
    rewrite Z.min_l by lia. rewrite Z.max_r by lia.
    rewrite Z.mod_small by lia. lia.
  - replace (0 + 0 + S (length ds) + 1)%nat
      with (S (String.length (decimal (d :: ds)))).
    2:{ rewrite decimal_length. simpl. lia. }
    change (String "@" name) with ("@" +:+ name)%string.
    generalize (decimal (d :: ds)). intros s.
    induction s as [|a s IH]; simpl; [done|exact IH].
Qed.

(** X15: [ParseInterfaces].  An argument made of decimal digits that
    denote a number below 2^31, an at sign and a name adds the interface
    with that number and that name, between the interfaces of the
    arguments before it and those of the arguments after it. *)
Theorem ParseInterfaces_numbered (prog : string) (before after : list string)
        (ds : list Z) (name : string) :
  ds ≠ [] → Forall (λ d, 0 ≤ d ≤ 9) ds → decimal_value ds < 2 ^ 31 →
  ParseInterfaces
    (prog :: before ++ [decimal ds +:+ String "@" name] ++ after)
  = ParseInterfaces (prog :: before)
    ++ [(decimal_value ds, name)]
    ++ ParseInterfaces (prog :: after).
Proof.
  intros Hne Hds Hlt.
  rewrite ParseInterfaces_app, ParseInterfaces_app. do 2 f_equal.
  unfold ParseInterfaces. simpl.
  by apply parse_interface_numbered.
Qed.

Lemma skip_spaces_at (s : string) (k : nat) :
  strchr "@" s = Some k →
  ((skip_spaces s).1 ≤ k)%nat
  ∧ strchr "@" (skip_spaces s).2 = Some (k - (skip_spaces s).1)%nat.
Proof.
  revert k. induction s as [|a s IH]; intros k; simpl; [done|].
  destruct (isspace a) eqn:Hspace; simpl.
  - destruct (Ascii.eqb a "@") eqn:Hat.
    { apply Ascii.eqb_eq in Hat as ->. done. }
    destruct (strchr "@" s) as [k'|]; [|done].
    intros [= <-]. destruct (IH k' eq_refl) as [Hle Hchr].
    split; [lia|]. by rewrite Hchr.
  - intros Hk. split; [lia|]. by rewrite Nat.sub_0_r.
Qed.

Lemma digits_at (s : string) (k : nat) (acc : Z) :
  strchr "@" s = Some k → ((digits acc s).2 ≤ k)%nat.
Proof.
  revert k acc. induction s as [|a s IH]; intros k acc; simpl; [done|].
  destruct (Ascii.eqb a "@") eqn:Hat.
  { apply Ascii.eqb_eq in Hat as ->. simpl. lia. }
  destruct (strchr "@" s) as [k'|]; [|done]. intros [= <-].
  destruct (digit_of a); simpl; [|lia].
  specialize (IH k' (10 * acc + z) eq_refl). lia.
Qed.

Lemma strchr_lt (c : ascii) (s : string) (k : nat) :
  strchr c s = Some k → (k < String.length s)%nat.
Proof.
  revert k. induction s as [|a s IH]; intros k; simpl; [done|].
  destruct (Ascii.eqb a c); [intros [= <-]; lia|].
  destruct (strchr c s) as [k'|]; [|done]. intros [= <-].
  specialize (IH k' eq_refl). lia.
Qed.

Lemma strtol_at (s : string) (k : nat) :
  strchr "@" s = Some k → ((strtol s).2 ≤ k)%nat.
Proof.
  intros Hk. unfold strtol.
  destruct (skip_spaces_at s k Hk) as [Hle Hrest].
  destruct (skip_spaces s) as [spaces rest]. cbn [fst snd] in *.
  assert (Hsign : ∃ negative sign rest',
             parse_sign rest = (negative, sign, rest')
             ∧ (sign ≤ k - spaces)%nat
             ∧ strchr "@" rest' = Some (k - spaces - sign)%nat).
  { destruct rest as [|a rest]; [done|].
    destruct (decide (a = "-"%char)) as [->|Hminus].
    { exists true, 1%nat, rest. simpl in Hrest.
      destruct (strchr "@" rest) as [k'|]; [|done].
      injection Hrest as Hrest. split; [done|]. split; [lia|].
      f_equal. lia. }
    destruct (decide (a = "+"%char)) as [->|Hplus].
    { exists false, 1%nat, rest. simpl in Hrest.
      destruct (strchr "@" rest) as [k'|]; [|done].
      injection Hrest as Hrest. split; [done|]. split; [lia|].
      f_equal. lia. }
    exists false, 0%nat, (String a rest).
    split; [by apply parse_sign_other|].
    split; [lia|]. by rewrite Nat.sub_0_r. }
  destruct Hsign as (negative & sign & rest' & -> & Hsign & Hrest').
  pose proof (digits_at rest' _ 0 Hrest') as Hdigits.
  destruct (digits 0 rest') as [value count]. cbn [fst snd] in *.
  destruct (count =? 0)%nat; cbn [snd]; lia.
Qed.

Lemma to_int_range (v : Z) : - 2 ^ 31 ≤ to_int v < 2 ^ 31.
Proof.
  unfold to_int.
  change (2 ^ 31) with 2147483648. change (2 ^ 32) with 4294967296.
  pose proof (Z.mod_pos_bound (v + 2147483648) 4294967296 ltac:(lia)).
  lia.
Qed.

(** X16: [ParseInterfaces].  An argument without an at sign adds no
    interface.  An argument with one adds exactly one interface: its
    number fits an [int], and its name starts inside the argument, at most
    one character after the first at sign, so that the pointer moved by
    one never passes the end of the argument. *)
Theorem ParseInterfaces_name_in_bounds (prog arg : string) :
  match strchr "@" arg with
  | None => ParseInterfaces [prog; arg] = []
  | Some k =>
      ∃ num e,
        ParseInterfaces [prog; arg] = [(num, string_drop (e + 1) arg)]
        ∧ (e ≤ k)%nat ∧ (e + 1 ≤ String.length arg)%nat
        ∧ - 2 ^ 31 ≤ num < 2 ^ 31
  end.
Proof.
  unfold ParseInterfaces. cbn [tail foldl]. unfold parse_interface.
  destruct (strchr "@" arg) as [k|] eqn:Hk; [|done].
  exists (to_int (strtol arg).1), (strtol arg).2.
  pose proof (strtol_at arg k Hk). pose proof (strchr_lt _ arg k Hk).
  split; [done|]. split; [done|]. split; [lia|]. apply to_int_range.
Qed.

(** X17: [ParseInterfaces].  When an argument with an at sign does not
    start with a number (its first character is no white space, no sign
    and no digit), the interface added has the number 0 and its name is
    the argument without its first character, whatever stands before the
    at sign. *)
Theorem ParseInterfaces_without_number (prog : string) (a : ascii)
        (rest : string) :
  is_Some (strchr "@" (String a rest)) →
  isspace a = false → a ≠ "-"%char → a ≠ "+"%char → digit_of a = None →
  ParseInterfaces [prog; String a rest] = [(0, rest)].
Proof.
  intros [k Hk] Hspace Hminus Hplus Hdigit.
  unfold ParseInterfaces. cbn [tail foldl]. unfold parse_interface.
  rewrite Hk.
  assert (Hstrtol : strtol (String a rest) = (0, 0%nat)).
  { unfold strtol. simpl skip_spaces. rewrite Hspace. cbn [fst snd].
    rewrite parse_sign_other by done. simpl digits. by rewrite Hdigit. }
  by rewrite Hstrtol.
Qed.
(** X15 on a run: the interface 12@veth0 between two others. *)
Lemma ParseInterfaces_numbered_witness :
  ParseInterfaces ["stratum_bmv2"; "1@veth1"; "12@veth0"; "3@veth3"]%string
  = ParseInterfaces ["stratum_bmv2"; "1@veth1"]%string
    ++ [(12, "veth0"%string)]
    ++ ParseInterfaces ["stratum_bmv2"; "3@veth3"]%string.
Proof.
  apply (ParseInterfaces_numbered "stratum_bmv2" ["1@veth1"%string]
           ["3@veth3"%string] [1; 2] "veth0").
  - discriminate.
  - repeat constructor; lia.
  - reflexivity.
Defined.

(** X17 on a run: an interface given by its name first. *)
Lemma ParseInterfaces_without_number_witness :
  ParseInterfaces ["stratum_bmv2"; "veth0@1"]%string
  = [(0, "eth0@1"%string)].
Proof.
  apply (ParseInterfaces_without_number "stratum_bmv2" "v" "eth0@1").
  - eexists. reflexivity.
  - reflexivity.
  - discriminate.
  - discriminate.
  - reflexivity.
Defined.

End Interfaces.

#[local] Existing Instance test_sde.
#[local] Existing Instance test_constants.
#[local] Existing Instance test_state_query.
#[local] Existing Instance test_data_constants.
#[local] Existing Instance accepting_sde.

Lemma reachable_pushed_two_ports :
  @reachable TestSde test_sde test_constants pushed_two_ports.
Proof.
  exact (reachable_Push two_ports new_manager (test_world good_sde)
           reachable_new).
Qed.

(** X1 on a run: two ports were pushed, then the manager was shut down. *)
Lemma uninitialized_is_new_witness :
  let mgr := this (run_on (Shutdown (W := TestSde))
                          (mkMgrSt pushed_two_ports (test_world good_sde))) in
  initialized_ mgr = false ∧ mgr = new_manager.
Proof.
  intros mgr.
  assert (Hinit : initialized_ mgr = false) by (vm_compute; reflexivity).
  split; [exact Hinit|].
  apply (@uninitialized_is_new TestSde test_sde test_constants mgr);
    [|exact Hinit].
  exact (reachable_Shutdown pushed_two_ports (test_world good_sde)
           reachable_pushed_two_ports).
Defined.

(** X2 on a run: port 2 of node 1 after two ports were pushed. *)
Lemma getters_agree_on_ports_witness :
  ok (status_of (GetSdkPortId pushed_two_ports 1 2))
  = ok (status_of (GetPortConfig pushed_two_ports 1 2))
  ∧ ok (status_of (GetPortTimeLastChanged pushed_two_ports 1 2))
    = ok (status_of (GetPortConfig pushed_two_ports 1 2))
  ∧ (ok (status_of (GetPortConfig pushed_two_ports 1 2)) = true →
     ok (status_of (GetUnitFromNodeId pushed_two_ports 1)) = true).
Proof.
  exact (@getters_agree_on_ports TestSde test_sde test_constants
           pushed_two_ports 1 2 reachable_pushed_two_ports).
Defined.

(** X3 on a run: the configuration cached for port 1 after two ports were
    pushed. *)
Lemma cached_config_is_sane_witness :
  let c := cached_10g ADMIN_STATE_ENABLED in
  GetPortConfig pushed_two_ports 1 1 = inr c
  ∧ PortConfig.admin_state c ≠ ADMIN_STATE_DIAG
  ∧ (PortConfig.admin_state c ≠ ADMIN_STATE_UNKNOWN →
     is_Some (PortConfig.speed_bps c)
     ∧ is_Some (PortConfig.fec_mode c)
     ∧ is_Some (PortConfig.mtu c))
  ∧ (PortConfig.admin_state c = ADMIN_STATE_UNKNOWN →
     c = PortConfig_default)
  ∧ (PortConfig.admin_state c = ADMIN_STATE_UNKNOWN
     ∨ PortConfig.admin_state c = ADMIN_STATE_ENABLED
     ∨ PortConfig.admin_state c = ADMIN_STATE_DISABLED).
Proof.
  intros c.
  assert (Hget : GetPortConfig pushed_two_ports 1 1 = inr c)
    by (vm_compute; reflexivity).
  split; [exact Hget|].
  exact (@cached_config_is_sane TestSde test_sde test_constants
           pushed_two_ports 1 1 c reachable_pushed_two_ports Hget).
Defined.

(** X4 on a run: the time of the last change of port 1 after two ports were
    pushed. *)
Lemma time_last_changed_is_epoch_witness :
  GetPortTimeLastChanged pushed_two_ports 1 1 = inr 0 ∧ 0 = UnixEpoch.
Proof.
  assert (Hget : GetPortTimeLastChanged pushed_two_ports 1 1 = inr 0)
    by (vm_compute; reflexivity).
  split; [exact Hget|].
  exact (@time_last_changed_is_epoch TestSde test_sde test_constants
           pushed_two_ports 1 1 0 reachable_pushed_two_ports Hget).
Defined.

(** X5 on a run: node 1 has unit 0 after two ports were pushed. *)
Lemma unit_of_node_maps_back_witness :
  GetUnitFromNodeId pushed_two_ports 1 = inr 0
  ∧ unit_to_node_id_ pushed_two_ports !! 0 = Some 1.
Proof.
  assert (Hget : GetUnitFromNodeId pushed_two_ports 1 = inr 0)
    by (vm_compute; reflexivity).
  split; [exact Hget|].
  exact (@unit_of_node_maps_back TestSde test_sde test_constants
           pushed_two_ports 1 0 reachable_pushed_two_ports Hget).
Defined.

Lemma NoDup_two_ports :
  NoDup (port_ids (ChassisConfig.singleton_ports two_ports)).
Proof.
  apply NoDup_cons. split; [|apply NoDup_singleton].
  intros Hin. apply list_elem_of_singleton in Hin. discriminate Hin.
Qed.

Lemma pushed_two_ports_ok :
  (test_Push two_ports (mkMgrSt new_manager (test_world good_sde))).1
  = inr ().
Proof. vm_compute. reflexivity. Qed.

Lemma NoDup_other_admin :
  NoDup (port_ids (ChassisConfig.singleton_ports other_admin)).
Proof. apply NoDup_singleton. Qed.

Lemma pushed_other_admin_ok :
  (test_Push other_admin (mkMgrSt new_manager (test_world good_sde))).1
  = inr ().
Proof. vm_compute. reflexivity. Qed.

(** X6 on a run: a port whose admin state is a number without a name and
    whose MTU is unset is pushed on a new manager.  The push succeeds; the
    port is added, and cached as disabled with the default MTU. *)
Lemma push_caches_desired_config_witness :
  let r := test_Push other_admin
                     (mkMgrSt new_manager (test_world good_sde)) in
  r.1 = inr ()
  ∧ ∃ c, GetPortConfig (this r.2) 1 1 = inr c
         ∧ config_matches None other_admin_port c
         ∧ PortConfig.admin_state c = ADMIN_STATE_DISABLED
         ∧ PortConfig.mtu c = Some 1500.
Proof.
  intros r.
  split; [exact pushed_other_admin_ok|].
  destruct (@push_caches_desired_config TestSde test_sde test_constants
              other_admin new_manager (test_world good_sde)
              other_admin_port reachable_new NoDup_other_admin
              (list_elem_of_here _ _) pushed_other_admin_ok)
    as (c & Hget & Hmatch).
  exists c. split; [exact Hget|]. split; [exact Hmatch|].
  destruct Hmatch as (_ & _ & Hadmin & _ & _ & _ & _ & _ & Hmtu).
  split; [exact Hadmin|exact Hmtu].
Defined.

(** X9 on a run: [two_ports] is accepted. *)
Lemma verify_ok_wellformed_witness :
  (test_Verify two_ports (mkMgrSt new_manager (test_world good_sde))).1
  = inr ()
  ∧ NoDup (Node.id <$> ChassisConfig.nodes two_ports)
  ∧ NoDup (port_key_of <$> ChassisConfig.singleton_ports two_ports)
  ∧ NoDup (port_ids (ChassisConfig.singleton_ports two_ports)).
Proof.
  assert (Hok : (test_Verify two_ports
                   (mkMgrSt new_manager (test_world good_sde))).1 = inr ())
    by (vm_compute; reflexivity).
  split; [exact Hok|].
  pose proof (@verify_ok_wellformed TestSde test_sde test_constants two_ports
                (mkMgrSt new_manager (test_world good_sde)) Hok) as Hwf.
  cbv zeta in Hwf.
  destruct Hwf as (_ & _ & _ & _ & _ & Hnodes & _ & Hkeys & Hids).
  split; [exact Hnodes|]. split; [exact Hkeys|exact Hids].
Defined.

(** X11 on a run: the same push; the admin state that [GetPortData] reports
    for the port is disabled. *)
Lemma GetPortData_after_push_witness :
  let s := mkDataSt (test_Push other_admin
                       (mkMgrSt new_manager (test_world good_sde))).2 [] in
  GetPortData (ReqAdminStatus 1 1) s
  = (inr (RespAdminStatus ADMIN_STATE_DISABLED), s)
  ∧ GetPortData (ReqPortSpeed 1 1) s = (inr (RespPortSpeed 10000000000), s)
  ∧ GetPortData (ReqFecStatus 1 1) s = (inr (RespFecStatus 1), s)
  ∧ GetPortData (ReqAutonegStatus 1 1) s = (inr (RespAutonegStatus 0), s)
  ∧ GetPortData (ReqLoopbackStatus 1 1) s = (inr (RespLoopbackStatus 0), s).
Proof.
  intros s.
  destruct (@GetPortData_after_push TestSde test_sde test_state_query
              test_constants test_data_constants
              other_admin new_manager (test_world good_sde)
              other_admin_port [] reachable_new NoDup_other_admin
              (list_elem_of_here _ _) pushed_other_admin_ok)
    as (Hadmin & _ & _ & _ & Hspeed & Hfec & Hautoneg & Hloopback).
  split; [exact Hadmin|]. split; [exact Hspeed|]. split; [exact Hfec|].
  split; [exact Hautoneg|exact Hloopback].
Defined.

(** X12 on a run: the operational status of port 2 after two ports were
    pushed; the backend is asked about port 2 of unit 0. *)
Lemma oper_status_is_queried_witness :
  let s := mkDataSt (mkMgrSt pushed_two_ports (test_world good_sde)) [] in
  let s' := mkDataSt (mkMgrSt pushed_two_ports (test_world good_sde))
                     [(0, 2)] in
  GetPortState 1 2 s = (inr 1, s')
  ∧ GetPortData (ReqOperStatus 1 2) s = (inr (RespOperStatus 1 0), s').
Proof.
  intros s s'.
  assert (Hget : ∃ c, GetPortConfig pushed_two_ports 1 2 = inr c)
    by (eexists; vm_compute; reflexivity).
  destruct Hget as [c Hget].
  destruct (@oper_status_is_queried TestSde test_sde test_state_query
              test_constants test_data_constants
              pushed_two_ports (test_world good_sde) [] 1 2 c
              reachable_pushed_two_ports Hget)
    as (unit & sdk_port_id & Hunit & Hsdk & Hstate & Hdata).
  assert (unit = 0) as -> by (vm_compute in Hunit; congruence).
  assert (sdk_port_id = 2) as -> by (vm_compute in Hsdk; congruence).
  split; [exact Hstate|exact Hdata].
Defined.

Lemma reachable_accepted_two_ports :
  @reachable () accepting_sde test_constants accepted_two_ports.
Proof.
  exact (reachable_Push two_ports new_manager (mkWorld () []) reachable_new).
Qed.

(** X13 on a run: two ports were pushed on the backend that accepts every
    call, then node 1 is replayed; port 1 keeps what was cached. *)
Lemma replay_keeps_cached_fields_witness :
  let c := cached_10g ADMIN_STATE_ENABLED in
  let r := ReplayPortsConfig 1 (mkMgrSt accepted_two_ports (mkWorld () [])) in
  GetPortConfig accepted_two_ports 1 1 = inr c
  ∧ r.1 = inr ()
  ∧ ∃ c', GetPortConfig (this r.2) 1 1 = inr c'
          ∧ PortConfig.admin_state c' = PortConfig.admin_state c
          ∧ PortConfig.speed_bps c' = PortConfig.speed_bps c
          ∧ PortConfig.fec_mode c' = PortConfig.fec_mode c
          ∧ PortConfig.mtu c' = PortConfig.mtu c
          ∧ PortConfig.autoneg c' = PortConfig.autoneg c
          ∧ PortConfig.loopback_mode c' = PortConfig.loopback_mode c.
Proof.
  intros c r.
  assert (Hget : GetPortConfig accepted_two_ports 1 1 = inr c)
    by (vm_compute; reflexivity).
  split; [exact Hget|].
  exact (@replay_keeps_cached_fields () accepting_sde test_constants
           accepted_two_ports (mkWorld () []) 1 1 c
           reachable_accepted_two_ports
           (λ _ _ _ _ _, eq_refl) (λ _ _ _ _, eq_refl) (λ _ _ _ _, eq_refl)
           Hget).
Defined.

(** X14 on a run: [two_ports] pushed twice; the second push runs on a
    backend that would refuse every change. *)
Lemma repush_issues_no_mutation_witness :
  let refusing := test_world (mkTestSde true true true true true true false) in
  let second := test_Push two_ports (mkMgrSt pushed_two_ports refusing) in
  ∃ l, calls (mworld second.2) = calls refusing ++ l
       ∧ Forall (λ call, is_mutation call = false) l.
Proof.
  intros refusing second.
  assert (Hmtu : Forall (λ singleton_port,
                           ConfigParams.mtu
                             (SingletonPort.config_params singleton_port) ≠ 0)
                        (ChassisConfig.singleton_ports two_ports))
    by (repeat constructor; discriminate).
  exact (@repush_issues_no_mutation TestSde test_sde test_constants
           two_ports new_manager (test_world good_sde) refusing
           reachable_new NoDup_two_ports Hmtu pushed_two_ports_ok).
Defined.
